(** * discord-mcp: the tool dispatcher of [index.js], embedded and verified

    [index.js] exposes a Discord bot as a set of named tools.  A tool call is
    a name and a bag of JSON arguments; [handleTool] turns it into calls of
    the discord.js client and shapes a JSON result.

    The embedding is shallow.  JavaScript values are the inductive [jsval];
    the handler is a function in a state-and-exception monad [M] whose state
    holds the config file, the state of the platform client and the log of
    the asynchronous client calls made so far.  What lies outside the
    repository (the JSON codec of the JavaScript runtime, the discord.js
    client and the platform behind it) is an interface: the classes
    [Runtime] and [Platform].  The theorems hold for every instance;
    [TestRuntime] and [TestPlatform] are executable instances on which the
    handler is run.

    Conventions of the model:
    - numbers are integer valued ([JNum n] with [n : Z]) or [JNaN]; this is
      exact for the doubles of JavaScript below 2^53 in magnitude;
    - strings are sequences of code units, here bytes; [toLowerCase] is a
      service of the runtime, of which only its effect on ASCII strings is
      known;
    - the conversions of an object to a string or a number are those of an
      object without a [toString] or a [valueOf] of its own; what depends on
      such a conversion is stated for values that are no objects
      ([primitive]);
    - an object is the list of its own properties in insertion order, without
      repeated keys;
    - the config file, when it exists, can be read and written;
    - tool calls do not overlap, so an asynchronous client call that the
      handler awaits takes effect and settles where it is awaited;
    - the closures of a batch are not awaited where [Array.prototype.map]
      calls them: each runs up to its first [await] and is then a pending
      [task]; under [Promise.allSettled] the tasks take turns in an order
      that the platform chooses ([schedule]), a turn being the answer of the
      platform to the call that a task awaits or the next stretch of the
      task, so the calls of the items interleave;
    - the four analysis tools and the four thread tools are a parameter
      ([elsewhere]) of [handleTool]. *)

From Stdlib Require Import String Ascii ZArith List Bool Lia DecimalString.
Import ListNotations.
Local Open Scope string_scope.
Local Open Scope Z_scope.

Set Implicit Arguments.
Set Warnings "-register-all".

(* ================================================================= *)
(** ** JavaScript values *)

Inductive jsval : Type :=
| JUndefined
| JNull
| JBool (b : bool)
| JNum (n : Z)
| JNaN
| JStr (s : string)
| JArr (items : list jsval)
| JObj (props : list (string * jsval))
| JDate (t : option Z).          (* time value in ms; [None] is Invalid Date *)

(** What a [throw] carries.  Errors of the platform client are [Error]s. *)
Inductive exn : Type :=
| Error (message : string)
| TypeError (message : string)
| SyntaxError (message : string).

Definition message (e : exn) : string :=
  match e with Error m | TypeError m | SyntaxError m => m end.

(** A settled promise: [inl] is a rejection, [inr] a fulfilment. *)
Definition settled (A : Type) : Type := (exn + A)%type.

(** *** Characters *)

Definition is_digit (c : ascii) : bool :=
  let n := nat_of_ascii c in (48 <=? n)%nat && (n <=? 57)%nat.

(** A string of decimal digits and nothing else. *)
Fixpoint all_digits (s : string) : bool :=
  match s with
  | EmptyString => true
  | String c s' => is_digit c && all_digits s'
  end.

(** A string of ASCII characters: every byte is below 128. *)
Fixpoint is_ascii (s : string) : bool :=
  match s with
  | EmptyString => true
  | String c s' => (nat_of_ascii c <? 128)%nat && is_ascii s'
  end.

(** The letters A to Z made small, every other byte kept. *)
Definition lower_ascii (c : ascii) : ascii :=
  let n := nat_of_ascii c in
  if (65 <=? n)%nat && (n <=? 90)%nat then ascii_of_nat (n + 32) else c.

Fixpoint ascii_toLowerCase (s : string) : string :=
  match s with
  | EmptyString => EmptyString
  | String c s' => String (lower_ascii c) (ascii_toLowerCase s')
  end.

(** Services of the JavaScript runtime that the program calls.
    [String.prototype.toLowerCase] is one of them: it follows the case
    mappings of Unicode, of which two facts are used.  On a string of ASCII
    characters it makes the letters A to Z small and keeps the rest; and
    only a string of decimal digits has such a string as its lower case,
    namely itself. *)
Class Runtime : Type := {
  JSON_parse : string -> option jsval;          (* [None]: throws SyntaxError *)
  JSON_stringify : jsval -> string;             (* JSON.stringify(v, null, 2) *)
  StringToNumber : string -> option Z;          (* [None]: NaN *)
  Date_toString : option Z -> string;
  toLowerCase : string -> string;               (* String.prototype.toLowerCase *)
  toLowerCase_ascii :
    forall s, is_ascii s = true -> toLowerCase s = ascii_toLowerCase s;
  toLowerCase_digits :
    forall s, all_digits (toLowerCase s) = true -> toLowerCase s = s
}.

Definition string_of_Z (n : Z) : string := NilZero.string_of_int (Z.to_int n).

(** ToBoolean. *)
Definition truthy (v : jsval) : bool :=
  match v with
  | JUndefined | JNull | JNaN => false
  | JBool b => b
  | JNum n => negb (n =? 0)
  | JStr s => negb (s =? EmptyString)%string
  | JArr _ | JObj _ | JDate _ => true
  end.

(** A value that is no object.  The conversions below are those of the
    language for such a value; for an object they are the conversions of an
    object that has no [toString] or [valueOf] of its own (with one that is
    no function the conversion throws a TypeError), so what depends on the
    conversion of an argument is stated for the values that are no
    objects. *)
Definition primitive (v : jsval) : bool :=
  match v with
  | JArr _ | JObj _ => false
  | _ => true
  end.

(** [a || b] *)
Definition js_or (a b : jsval) : jsval := if truthy a then a else b.

Section RuntimeOps.
Context {RT : Runtime}.

(** ToString, as template literals and [RegExp.prototype.test] apply it; of
    an object, the one of an object without a [toString] of its own. *)
Fixpoint ToString (v : jsval) : string :=
  match v with
  | JUndefined => "undefined"
  | JNull => "null"
  | JBool true => "true"
  | JBool false => "false"
  | JNum n => string_of_Z n
  | JNaN => "NaN"
  | JStr s => s
  | JArr items =>
      String.concat ","
        (map (fun x => match x with
                       | JUndefined | JNull => EmptyString
                       | _ => ToString x
                       end) items)
  | JObj _ => "[object Object]"
  | JDate t => Date_toString t
  end.

(** ToNumber; [None] stands for NaN.  Of an object, the one of an object
    without a [toString] or a [valueOf] of its own. *)
Definition ToNumber (v : jsval) : option Z :=
  match v with
  | JUndefined | JNaN => None
  | JNull => Some 0
  | JBool b => Some (if b then 1 else 0)
  | JNum n => Some n
  | JStr s => StringToNumber s
  | JArr _ | JObj _ => StringToNumber (ToString v)
  | JDate t => t
  end.

(** [Math.min(a, b)] *)
Definition Math_min (a b : jsval) : jsval :=
  match ToNumber a, ToNumber b with
  | Some x, Some y => JNum (Z.min x y)
  | _, _ => JNaN
  end.

(** [a * b] *)
Definition js_mul (a b : jsval) : jsval :=
  match ToNumber a, ToNumber b with
  | Some x, Some y => JNum (x * y)
  | _, _ => JNaN
  end.

End RuntimeOps.

(** TimeClip of ECMAScript: the time values a Date can hold. *)
Definition TimeClip (t : option Z) : option Z :=
  match t with
  | Some t => if Z.abs t <=? 8640000000000000 then Some t else None
  | None => None
  end.

(** [new Date(now + ms)] for a number [now] and the result [ms] of a product. *)
Definition new_Date_plus (now : Z) (ms : jsval) : jsval :=
  match ms with
  | JNum d => JDate (TimeClip (Some (now + d)))
  | _ => JDate None
  end.

(** Own properties of an object, looked up by key. *)
Fixpoint assoc (k : string) (ps : list (string * jsval)) : option jsval :=
  match ps with
  | [] => None
  | (k', v) :: ps' => if (k =? k')%string then Some v else assoc k ps'
  end.

(** Assignment keeps the position of a key that is present and appends a
    new one, as the property order of JavaScript objects does. *)
Fixpoint assoc_set (k : string) (v : jsval) (ps : list (string * jsval))
  : list (string * jsval) :=
  match ps with
  | [] => [(k, v)]
  | (k', v') :: ps' =>
      if (k =? k')%string then (k, v) :: ps' else (k', v') :: assoc_set k v ps'
  end.

(** [v.k] for the property names this program uses (none of them is a
    built-in property of strings, arrays or dates). *)
Definition get_prop (v : jsval) (k : string) : exn + jsval :=
  match v with
  | JUndefined =>
      inl (TypeError ("Cannot read properties of undefined (reading '" ++ k ++ "')"))
  | JNull =>
      inl (TypeError ("Cannot read properties of null (reading '" ++ k ++ "')"))
  | JObj ps => inr (match assoc k ps with Some x => x | None => JUndefined end)
  | _ => inr JUndefined
  end.

(** [v.k], with undefined where the access would throw. *)
Definition field (k : string) (v : jsval) : jsval :=
  match get_prop v k with inr x => x | inl _ => JUndefined end.

(** [o.k = v] in strict mode (the file is an ES module).  A property set on
    an array or a date is an expando that JSON.stringify does not see. *)
Definition set_prop (o : jsval) (k : string) (v : jsval) : exn + jsval :=
  match o with
  | JUndefined =>
      inl (TypeError ("Cannot set properties of undefined (setting '" ++ k ++ "')"))
  | JNull =>
      inl (TypeError ("Cannot set properties of null (setting '" ++ k ++ "')"))
  | JObj ps => inr (JObj (assoc_set k v ps))
  | JArr items => inr (JArr items)
  | JDate t => inr (JDate t)
  | JBool _ | JNum _ | JNaN | JStr _ =>
      inl (TypeError ("Cannot create property '" ++ k ++ "' on a primitive value"))
  end.

(** The receiver of [.map(...)]. *)
Definition as_array (v : jsval) : exn + list jsval :=
  match v with
  | JArr items => inr items
  | JUndefined => inl (TypeError "Cannot read properties of undefined (reading 'map')")
  | JNull => inl (TypeError "Cannot read properties of null (reading 'map')")
  | _ => inl (TypeError "map is not a function")
  end.

(** [a[i]] on an array. *)
Definition array_get (items : list jsval) (i : nat) : jsval :=
  nth i items JUndefined.

(** [s === v] for a string [s]. *)
Definition strict_eq_str (s : string) (v : jsval) : bool :=
  match v with JStr t => (s =? t)%string | _ => false end.

(** *** Strings *)

(** The double quote, as a one-character string. *)
Definition dquote : string := String "034" EmptyString.

(** [x.toLowerCase()] on a value: only strings have the method. *)
Definition call_toLowerCase {RT : Runtime} (v : jsval) : exn + string :=
  match v with
  | JStr s => inr (toLowerCase s)
  | JUndefined =>
      inl (TypeError "Cannot read properties of undefined (reading 'toLowerCase')")
  | JNull =>
      inl (TypeError "Cannot read properties of null (reading 'toLowerCase')")
  | _ => inl (TypeError "toLowerCase is not a function")
  end.

(** The matcher of [/^\d{17,20}$/]: [\d{17,20}] is greedy, it takes digits
    while there are some and fewer than 20 were taken; it succeeds when at
    least 17 were taken, and [$] then asks for the end of the input. *)
Fixpoint digits_upto (max : nat) (s : string) : nat * string :=
  match max, s with
  | S max', String c s' =>
      if is_digit c
      then let (n, rest) := digits_upto max' s' in (S n, rest)
      else (O, s)
  | _, _ => (O, s)
  end.

Definition snowflake_test (s : string) : bool :=
  let (n, rest) := digits_upto 20 s in
  (17 <=? n)%nat && match rest with EmptyString => true | _ => false end.

(* ================================================================= *)
(** ** The platform client (discord.js), as the program sees it *)

Record Guild : Type := {
  guild_id : string;
  guild_name : string;
  guild_memberCount : Z
}.

Record Channel : Type := {
  channel_id : string;
  channel_name : string;
  channel_isTextBased : bool
}.

Record Role : Type := {
  role_id : string;
  role_name : string;
  role_hexColor : string;
  role_hoist : bool;
  role_mentionable : bool
}.

Record User : Type := {
  username : string;
  globalName : option string          (* [None] is null *)
}.

Record Member : Type := {
  member_id : string;
  user : User;
  displayName : string
}.

Record Message : Type := {
  message_id : string;
  author_username : string;
  author_id : string;
  member_displayName : option string; (* [m.member?.displayName] *)
  content : string;
  createdAt : option Z;
  editedAt : option (option Z);       (* [None] is null *)
  attachments_size : Z;
  embeds_length : Z;
  reactions : list (string * Z);      (* emoji text and count *)
  reference_messageId : option string
}.

(** The asynchronous calls of the client library, indexed by what their
    promise is fulfilled with. *)
Inductive call : Type -> Type :=
| Guild_channels_create (g : Guild) (options : jsval) : call Channel
| Guild_channels_fetchActiveThreads (g : Guild) : call (list Channel)
| Client_channels_fetch (id : jsval) : call (option Channel)
| Channel_delete (ch : Channel) : call unit
| Channel_send (ch : Channel) (body : jsval) : call Message
| Channel_messages_fetch (ch : Channel) (options : jsval) : call (list Message)
| Channel_messages_fetch_id (ch : Channel) (id : jsval) : call Message
| Message_delete (m : Message) : call unit
| Message_reply (m : Message) (options : jsval) : call Message
| Message_edit (m : Message) (body : jsval) : call unit
| Message_react (m : Message) (emoji : jsval) : call unit
| Guild_roles_create (g : Guild) (options : jsval) : call Role
| Role_delete (r : Role) : call unit
| Guild_members_fetch_id (g : Guild) (id : jsval) : call Member
| Guild_members_fetch (g : Guild) : call unit
| Guild_members_ban (g : Guild) (id : jsval) (options : jsval) : call unit
| Guild_members_unban (g : Guild) (id : jsval) (reason : jsval) : call unit
| Member_kick (m : Member) (reason : jsval) : call unit
| Member_timeout (m : Member) (ms : jsval) (reason : jsval) : call unit
| Member_roles_add (m : Member) (r : Role) : call unit
| Member_roles_remove (m : Member) (r : Role) : call unit.

Inductive logged : Type := Logged (A : Type) (c : call A).

(** The [i]-th element of a list replaced. *)
Fixpoint replace_nth {A} (i : nat) (x : A) (l : list A) : list A :=
  match l, i with
  | [], _ => []
  | _ :: l', O => x :: l'
  | y :: l', S i' => y :: replace_nth i' x l'
  end.

(** The client and the platform behind it.  [client] is their joint state;
    the caches and the clock are views of it, and [exec] is the effect and
    the settlement of one asynchronous call, at the instant at which the
    platform answers it.  [schedule] is the part of the event loop in a
    batch: while the promises of a batch are pending, it names, turn by
    turn, the position in the batch of the promise that goes on next. *)
Class Platform : Type := {
  client : Type;
  discordReady : settled unit;
  Date_now : client -> Z;
  guilds_cache : client -> list Guild;
  channels_cache : client -> Guild -> list Channel;
  roles_cache : client -> Guild -> list Role;
  members_cache : client -> Guild -> list Member;
  exec : forall A : Type, call A -> client -> settled A * client;
  schedule : client -> list nat
}.

(* ================================================================= *)
(** ** State and effects of a tool call *)

Section Program.
Context {RT : Runtime} {PF : Platform}.

Record state : Type := mkState {
  config_file : option string;     (* content of CONFIG_PATH, if it exists *)
  discord : client;
  calls : list logged              (* asynchronous client calls, oldest first *)
}.

Definition M (A : Type) : Type := state -> (exn + A) * state.

Definition ret {A} (a : A) : M A := fun s => (inr a, s).

Definition bind {A B} (m : M A) (k : A -> M B) : M B :=
  fun s => match m s with
           | (inr a, s') => k a s'
           | (inl e, s') => (inl e, s')
           end.

Definition throw {A} (e : exn) : M A := fun s => (inl e, s).

Definition lift {A} (r : exn + A) : M A := fun s => (r, s).

Definition get_state : M state := fun s => (inr s, s).

(** *** Closures that are not awaited where they are called

    The closure that [Array.prototype.map] calls for an item of a batch
    runs only up to its first [await]; there it is suspended, and [map]
    goes on to the next item.  A [task] is such a closure at a point where
    it can be suspended: it has settled; or it awaits the promise of a
    client call that it has made; or it awaits a promise that needs no
    answer of the platform and goes on at its next turn.  When it goes on it
    sees the client as it is then. *)
Inductive task (A : Type) : Type :=
| Settled (r : settled A)
| Awaiting (B : Type) (c : call B) (k : settled B -> client -> task A)
| Resuming (k : client -> task A).

Arguments Settled {A} r.
Arguments Awaiting {A B} c k.
Arguments Resuming {A} k.

(** Code of an async function, from the instant at which it is called. *)
Definition T (A : Type) : Type := client -> task A.

Definition t_ret {A} (a : A) : T A := fun _ => Settled (inr a).

Definition t_throw {A} (e : exn) : T A := fun _ => Settled (inl e).

Definition t_lift {A} (r : exn + A) : T A := fun _ => Settled r.

(** The client, as the running code sees it. *)
Definition t_client : T client := fun d => Settled (inr d).

(** What follows a task, once it has settled. *)
Fixpoint then_task {A B} (t : task A) (f : A -> client -> task B) (d : client)
  : task B :=
  match t with
  | Settled (inr a) => f a d
  | Settled (inl e) => Settled (inl e)
  | Awaiting c k => Awaiting c (fun r d' => then_task (k r d') f d')
  | Resuming k => Resuming (fun d' => then_task (k d') f d')
  end.

Definition t_bind {A B} (m : T A) (f : A -> T B) : T B :=
  fun d => then_task (m d) f d.

(** [await] of the promise of a client call. *)
Definition await_call {A} (c : call A) : T A :=
  fun _ => Awaiting c (fun r _ => Settled r).

(** [await f(...)] for an async function [f] of the program: the body of
    [f] runs at once up to its own first [await], and the caller goes on at
    a later turn than the one at which [f] settles. *)
Fixpoint later {A} (t : task A) : task A :=
  match t with
  | Settled r => Resuming (fun _ => Settled r)
  | Awaiting c k => Awaiting c (fun r d => later (k r d))
  | Resuming k => Resuming (fun d => later (k d))
  end.

Definition await {A} (m : T A) : T A := fun d => later (m d).

(** [try { ... } catch] around code with an [await]. *)
Fixpoint caught {A} (t : task A) : task (settled A) :=
  match t with
  | Settled r => Settled (inr r)
  | Awaiting c k => Awaiting c (fun r d => caught (k r d))
  | Resuming k => Resuming (fun d => caught (k d))
  end.

Definition t_try {A} (m : T A) : T (settled A) := fun d => caught (m d).

End Program.

Declare Scope js_scope.
Delimit Scope js_scope with js.
Notation "x <- m ;; k" := (bind m (fun x => k))
  (at level 100, m at next level, right associativity) : js_scope.
Notation "m ;;; k" := (bind m (fun _ => k))
  (at level 100, right associativity) : js_scope.
Notation "x <~ m ;; k" := (t_bind m (fun x => k))
  (at level 100, m at next level, right associativity) : js_scope.
Notation "m ~;; k" := (t_bind m (fun _ => k))
  (at level 100, right associativity) : js_scope.
Local Open Scope js_scope.

Section Program2.
Context {RT : Runtime} {PF : Platform}.

(** [await] of one client call: the call is logged, the client moves on and
    a rejection is thrown. *)
Definition perform {A} (c : call A) : M A :=
  fun s =>
    let (r, d) := exec c (discord s) in
    (r, {| config_file := config_file s;
           discord := d;
           calls := calls s ++ [Logged c] |}).

(** [try { m } catch]: what [m] threw, if it did, is a value for the handler. *)
Definition try_catch {A} (m : M A) : M (settled A) :=
  fun s => let (r, s') := m s in (inr r, s').

(** *** Promises of a batch *)

(** The call that a task has made and awaits is in the log from the
    instant at which the task got there. *)
Definition issue {A} (t : task A) (s : state) : state :=
  match t with
  | Awaiting c _ =>
      {| config_file := config_file s;
         discord := discord s;
         calls := calls s ++ [Logged c] |}
  | _ => s
  end.

(** The promise that a callback of [map] returns without awaiting it: the
    promise of a client call, or the one of an async closure, which has run
    up to its first [await]. *)
Definition start {A} (m : T A) : M (task A) :=
  fun s => (inr (m (discord s)), issue (m (discord s)) s).

(** One turn of a pending promise.  The platform answers the call that the
    task awaits: the call takes effect and its promise settles.  Or the
    task, whose awaited promise has settled, goes on up to its next
    [await]. *)
Definition turn {A} (t : task A) (s : state) : task A * state :=
  match t with
  | Settled r => (Settled r, s)
  | Awaiting c k =>
      let (r, d) := exec c (discord s) in
      (Resuming (k r),
       {| config_file := config_file s; discord := d; calls := calls s |})
  | Resuming k => (k (discord s), issue (k (discord s)) s)
  end.

(** A task that takes all its turns in a row, up to its settlement. *)
Fixpoint finish {A} (t : task A) (s : state) : settled A * state :=
  match t with
  | Settled r => (r, s)
  | Awaiting c k =>
      let (r, d) := exec c (discord s) in
      finish (k r d)
        (issue (k r d)
           {| config_file := config_file s; discord := d; calls := calls s |})
  | Resuming k => finish (k (discord s)) (issue (k (discord s)) s)
  end.

(** The turns of a schedule, one after the other; a turn for a position
    outside the batch is no turn. *)
Fixpoint take_turns {A} (turns : list nat) (ts : list (task A)) (s : state)
  : list (task A) * state :=
  match turns with
  | [] => (ts, s)
  | i :: turns' =>
      match nth_error ts i with
      | Some t =>
          let (t', s') := turn t s in
          take_turns turns' (replace_nth i t' ts) s'
      | None => take_turns turns' ts s
      end
  end.

Fixpoint finish_all {A} (ts : list (task A)) (s : state)
  : list (settled A) * state :=
  match ts with
  | [] => ([], s)
  | t :: ts' =>
      let (r, s1) := finish t s in
      let (rs, s2) := finish_all ts' s1 in
      (r :: rs, s2)
  end.

(** [await Promise.allSettled(promises)]: the pending promises take the
    turns that the schedule gives them, and those that are pending after
    its last turn go on to their settlement in the order of the batch.  The
    value is the list of the settlements, in the order of the promises; a
    rejection among them is a value like any other and throws nothing. *)
Definition Promise_allSettled {A} (promises : list (task A))
  : M (list (settled A)) :=
  fun s =>
    let (ts, s1) := take_turns (schedule (discord s)) promises s in
    let (rs, s2) := finish_all ts s1 in
    (inr rs, s2).

(** [await] of an async function where it is called: nothing else runs
    before it has settled. *)
Definition awaited {A} (m : T A) : M A :=
  fun s =>
    let (r, s') := finish (m (discord s)) (issue (m (discord s)) s) in (r, s').

(** [a.map((x, i) => ...)] with a callback that has effects or may throw. *)
Fixpoint Array_mapi_from {A B} (i : nat) (f : A -> nat -> M B) (l : list A)
  : M (list B) :=
  match l with
  | [] => ret []
  | x :: l' =>
      y <- f x i ;;
      ys <- Array_mapi_from (S i) f l' ;;
      ret (y :: ys)
  end.

Definition Array_mapi {A B} (f : A -> nat -> M B) (l : list A) : M (list B) :=
  Array_mapi_from O f l.

Definition Array_map {A B} (f : A -> M B) (l : list A) : M (list B) :=
  Array_mapi (fun x _ => f x) l.

(** *** Config store *)

Definition existsSync : M bool :=
  fun s => (inr (match config_file s with Some _ => true | None => false end), s).

Definition readFileSync : M string :=
  fun s => match config_file s with
           | Some text => (inr text, s)
           | None => (inl (Error "ENOENT: no such file or directory"), s)
           end.

Definition writeFileSync (text : string) : M unit :=
  fun s => (inr tt, {| config_file := Some text;
                       discord := discord s;
                       calls := calls s |}).

Definition parse (text : string) : M jsval :=
  match JSON_parse text with
  | Some v => ret v
  | None => throw (SyntaxError "Unexpected token in JSON")
  end.

Definition loadConfig : M jsval :=
  present <- existsSync ;;
  if present then
    r <- try_catch (text <- readFileSync ;; parse text) ;;
    match r with
    | inr v => ret v
    | inl _ => ret (JObj [])
    end
  else ret (JObj []).

Definition saveConfig (config : jsval) : M unit :=
  writeFileSync (JSON_stringify config).

(** *** Resolvers *)

Definition requireDiscord : M unit := lift discordReady.

Definition resolveGuildId (args : jsval) : M jsval :=
  g <- lift (get_prop args "guild_id") ;;
  if truthy g then ret g else
  config <- loadConfig ;;
  d <- lift (get_prop config "default_guild_id") ;;
  if truthy d then ret d else
  throw (Error "No guild_id provided and no default guild set. Use set_guild first.").

(** [collection.get(key)] on a collection keyed by identifier strings. *)
Definition cache_get {A} (id_of : A -> string) (cache : list A) (key : jsval)
  : option A :=
  find (fun x => strict_eq_str (id_of x) key) cache.

Definition getGuild (guildId : jsval) : M Guild :=
  s <- get_state ;;
  match cache_get guild_id (guilds_cache (discord s)) guildId with
  | Some guild => ret guild
  | None =>
      throw (Error ("Guild " ++ ToString guildId
                    ++ " not found or bot is not in this server"))
  end.

(** The callback of [guild.members.cache.find] in [resolveMember]. *)
Definition member_matches (lower : string) (m : Member) : bool :=
  (toLowerCase (username (user m)) =? lower)%string
  || (toLowerCase (displayName m) =? lower)%string
  || match globalName (user m) with
     | Some g => negb (g =? EmptyString)%string && (toLowerCase g =? lower)%string
     | None => false
     end.

Definition resolveMember (guild : Guild) (userIdOrName : jsval) : M Member :=
  if snowflake_test (ToString userIdOrName) then
    perform (Guild_members_fetch_id guild userIdOrName)
  else
    perform (Guild_members_fetch guild) ;;;
    lower <- lift (call_toLowerCase userIdOrName) ;;
    s <- get_state ;;
    match find (member_matches lower) (members_cache (discord s) guild) with
    | Some member => ret member
    | None =>
        throw (Error ("User " ++ dquote ++ ToString userIdOrName ++ dquote
                      ++ " not found in this server"))
    end.

Definition resolveRole (guild : Guild) (roleIdOrName : jsval) : M Role :=
  s <- get_state ;;
  let roles := roles_cache (discord s) guild in
  if snowflake_test (ToString roleIdOrName) then
    match cache_get role_id roles roleIdOrName with
    | Some role => ret role
    | None => throw (Error ("Role " ++ ToString roleIdOrName ++ " not found"))
    end
  else
    lower <- lift (call_toLowerCase roleIdOrName) ;;
    match find (fun r => (toLowerCase (role_name r) =? lower)%string) roles with
    | Some role => ret role
    | None =>
        throw (Error ("Role " ++ dquote ++ ToString roleIdOrName ++ dquote
                      ++ " not found"))
    end.

Definition resolveTextChannel (guild : Guild) (channelId : jsval) : M Channel :=
  s <- get_state ;;
  channel <-
    match cache_get channel_id (channels_cache (discord s) guild) channelId with
    | Some ch => ret (Some ch)
    | None =>
        r <- try_catch (perform (Client_channels_fetch channelId)) ;;
        match r with
        | inr ch => ret ch
        | inl _ => ret None
        end
    end ;;
  channel <-
    match channel with
    | Some ch => ret (Some ch)
    | None =>
        activeThreads <- perform (Guild_channels_fetchActiveThreads guild) ;;
        ret (cache_get channel_id activeThreads channelId)
    end ;;
  match channel with
  | None => throw (Error ("Channel/thread " ++ ToString channelId ++ " not found"))
  | Some ch =>
      if channel_isTextBased ch then ret ch
      else throw (Error ("Channel " ++ ToString channelId ++ " is not text-based"))
  end.

(** *** The resolvers inside a closure of a batch

    [resolveMember] and [resolveTextChannel] once more, as code that is
    suspended at its [await]s: [mass_time_out] and [mass_send_message] call
    them in closures that run side by side. *)

Definition async_resolveMember (guild : Guild) (userIdOrName : jsval) : T Member :=
  if snowflake_test (ToString userIdOrName) then
    await_call (Guild_members_fetch_id guild userIdOrName)
  else
    await_call (Guild_members_fetch guild) ~;;
    lower <~ t_lift (call_toLowerCase userIdOrName) ;;
    d <~ t_client ;;
    match find (member_matches lower) (members_cache d guild) with
    | Some member => t_ret member
    | None =>
        t_throw (Error ("User " ++ dquote ++ ToString userIdOrName ++ dquote
                        ++ " not found in this server"))
    end.

Definition async_resolveTextChannel (guild : Guild) (channelId : jsval) : T Channel :=
  d <~ t_client ;;
  channel <~
    match cache_get channel_id (channels_cache d guild) channelId with
    | Some ch => t_ret (Some ch)
    | None =>
        r <~ t_try (await_call (Client_channels_fetch channelId)) ;;
        match r with
        | inr ch => t_ret ch
        | inl _ => t_ret None
        end
    end ;;
  channel <~
    match channel with
    | Some ch => t_ret (Some ch)
    | None =>
        activeThreads <~ await_call (Guild_channels_fetchActiveThreads guild) ;;
        t_ret (cache_get channel_id activeThreads channelId)
    end ;;
  match channel with
  | None => t_throw (Error ("Channel/thread " ++ ToString channelId ++ " not found"))
  | Some ch =>
      if channel_isTextBased ch then t_ret ch
      else t_throw (Error ("Channel " ++ ToString channelId ++ " is not text-based"))
  end.

End Program2.

(* ================================================================= *)
(** ** The dispatcher *)

(** [switch (x) { case k: ... default: ... }] over string labels. *)
Definition switch {A} (x : string) (cases : list (string * A)) (default : A) : A :=
  match find (fun c => (x =? fst c)%string) cases with
  | Some c => snd c
  | None => default
  end.

(** Channel types of the platform API. *)
Definition ChannelType_GuildText : jsval := JNum 0.
Definition ChannelType_GuildVoice : jsval := JNum 2.
Definition ChannelType_GuildCategory : jsval := JNum 4.

(** The cases of [handleTool] that are not embedded here: the four analysis
    tools and the four thread tools. *)
Definition elsewhere_tools : list string :=
  [ "server_analysis"; "channel_analysis"; "user_analysis"; "thread_analysis";
    "create_thread"; "send_thread_message"; "list_threads"; "archive_thread" ].

Section Handlers.
Context {RT : Runtime} {PF : Platform}.

(** Their bodies, left open. *)
Variable elsewhere : string -> Guild -> jsval -> M jsval.

Definition arg (args : jsval) (k : string) : M jsval := lift (get_prop args k).

Definition no_reason (args_reason : jsval) : jsval :=
  js_or args_reason (JStr "No reason provided").

(** *** Guild tools *)

Definition set_guild (args : jsval) : M jsval :=
  g <- arg args "guild_id" ;;
  guild <- getGuild g ;;
  config <- loadConfig ;;
  config <- lift (set_prop config "default_guild_id" g) ;;
  saveConfig config ;;;
  ret (JObj [ ("success", JBool true);
              ("default_guild_id", g);
              ("guild_name", JStr (guild_name guild)) ]).

Definition get_guild : M jsval :=
  config <- loadConfig ;;
  d <- lift (get_prop config "default_guild_id") ;;
  if negb (truthy d) then
    ret (JObj [ ("default_guild_id", JNull);
                ("message", JStr "No default guild set. Use set_guild.") ])
  else
    r <- try_catch (getGuild d) ;;
    match r with
    | inr guild =>
        ret (JObj [ ("default_guild_id", d);
                    ("guild_name", JStr (guild_name guild));
                    ("member_count", JNum (guild_memberCount guild)) ])
    | inl _ =>
        ret (JObj [ ("default_guild_id", d);
                    ("message", JStr "Saved but bot may no longer be in this server") ])
    end.

Definition list_guilds : M jsval :=
  config <- loadConfig ;;
  d <- lift (get_prop config "default_guild_id") ;;
  s <- get_state ;;
  ret (JObj [ ("guilds",
               JArr (map (fun g =>
                            JObj [ ("id", JStr (guild_id g));
                                   ("name", JStr (guild_name g));
                                   ("member_count", JNum (guild_memberCount g));
                                   ("is_default", JBool (strict_eq_str (guild_id g) d)) ])
                         (guilds_cache (discord s))));
              ("default_guild_id", js_or d JNull) ]).

(** *** Channels *)

Definition text_channel_options (name category_id topic : jsval) : jsval :=
  JObj [ ("name", name); ("type", ChannelType_GuildText);
         ("parent", js_or category_id JNull); ("topic", js_or topic JNull) ].

Definition voice_channel_options (name category_id user_limit : jsval) : jsval :=
  JObj [ ("name", name); ("type", ChannelType_GuildVoice);
         ("parent", js_or category_id JNull); ("userLimit", js_or user_limit (JNum 0)) ].

Definition category_options (name : jsval) : jsval :=
  JObj [ ("name", name); ("type", ChannelType_GuildCategory) ].

Definition create_channel (guild : Guild) (args : jsval) : M jsval :=
  name <- arg args "name" ;;
  category_id <- arg args "category_id" ;;
  topic <- arg args "topic" ;;
  ch <- perform (Guild_channels_create guild (text_channel_options name category_id topic)) ;;
  ret (JObj [ ("id", JStr (channel_id ch)); ("name", JStr (channel_name ch));
              ("type", JStr "text") ]).

Definition create_category (guild : Guild) (args : jsval) : M jsval :=
  name <- arg args "name" ;;
  cat <- perform (Guild_channels_create guild (category_options name)) ;;
  ret (JObj [ ("id", JStr (channel_id cat)); ("name", JStr (channel_name cat));
              ("type", JStr "category") ]).

Definition create_voice_channel (guild : Guild) (args : jsval) : M jsval :=
  name <- arg args "name" ;;
  category_id <- arg args "category_id" ;;
  user_limit <- arg args "user_limit" ;;
  vc <- perform (Guild_channels_create guild (voice_channel_options name category_id user_limit)) ;;
  ret (JObj [ ("id", JStr (channel_id vc)); ("name", JStr (channel_name vc));
              ("type", JStr "voice") ]).

(** The two shapes of a batch outcome. *)
Definition failed (key : string) (echo : jsval) (reason : exn) : jsval :=
  JObj [ (key, echo); ("status", JStr "failed"); ("error", JStr (message reason)) ].

Definition mass_channels (guild : Guild) (args : jsval) : M jsval :=
  channels <- arg args "channels" ;;
  channels <- lift (as_array channels) ;;
  promises <- Array_map (fun ch =>
      name <- lift (get_prop ch "name") ;;
      category_id <- lift (get_prop ch "category_id") ;;
      topic <- lift (get_prop ch "topic") ;;
      start (await_call (Guild_channels_create guild
                          (text_channel_options name category_id topic)))) channels ;;
  results <- Promise_allSettled promises ;;
  outcomes <- Array_mapi (fun r i =>
      name <- lift (get_prop (array_get channels i) "name") ;;
      match r with
      | inr value =>
          ret (JObj [ ("name", name); ("id", JStr (channel_id value));
                      ("status", JStr "created") ])
      | inl reason => ret (failed "name" name reason)
      end) results ;;
  ret (JArr outcomes).

Definition mass_categories (guild : Guild) (args : jsval) : M jsval :=
  names <- arg args "names" ;;
  names <- lift (as_array names) ;;
  promises <- Array_map (fun n =>
      start (await_call (Guild_channels_create guild (category_options n)))) names ;;
  results <- Promise_allSettled promises ;;
  outcomes <- Array_mapi (fun r i =>
      match r with
      | inr value =>
          ret (JObj [ ("name", array_get names i); ("id", JStr (channel_id value));
                      ("status", JStr "created") ])
      | inl reason => ret (failed "name" (array_get names i) reason)
      end) results ;;
  ret (JArr outcomes).

Definition mass_voice_channels (guild : Guild) (args : jsval) : M jsval :=
  channels <- arg args "channels" ;;
  channels <- lift (as_array channels) ;;
  promises <- Array_map (fun ch =>
      name <- lift (get_prop ch "name") ;;
      category_id <- lift (get_prop ch "category_id") ;;
      user_limit <- lift (get_prop ch "user_limit") ;;
      start (await_call (Guild_channels_create guild
                          (voice_channel_options name category_id user_limit)))) channels ;;
  results <- Promise_allSettled promises ;;
  outcomes <- Array_mapi (fun r i =>
      name <- lift (get_prop (array_get channels i) "name") ;;
      match r with
      | inr value =>
          ret (JObj [ ("name", name); ("id", JStr (channel_id value));
                      ("status", JStr "created") ])
      | inl reason => ret (failed "name" name reason)
      end) results ;;
  ret (JArr outcomes).

Definition delete (guild : Guild) (args : jsval) : M jsval :=
  id <- arg args "channel_id" ;;
  s <- get_state ;;
  match cache_get channel_id (channels_cache (discord s) guild) id with
  | None => throw (Error ("Channel " ++ ToString id ++ " not found"))
  | Some ch =>
      let chName := channel_name ch in
      perform (Channel_delete ch) ;;;
      ret (JObj [ ("deleted", id); ("name", JStr chName) ])
  end.

(** The closure [async (id) => { ... }] of [mass_delete]. *)
Definition mass_delete_item (guild : Guild) (id : jsval) : T jsval :=
  d <~ t_client ;;
  match cache_get channel_id (channels_cache d guild) id with
  | None => t_throw (Error ("Channel " ++ ToString id ++ " not found"))
  | Some ch =>
      let n := channel_name ch in
      await_call (Channel_delete ch) ~;;
      t_ret (JObj [ ("id", id); ("name", JStr n) ])
  end.

Definition mass_delete (guild : Guild) (args : jsval) : M jsval :=
  channel_ids <- arg args "channel_ids" ;;
  channel_ids <- lift (as_array channel_ids) ;;
  promises <- Array_map (fun id => start (mass_delete_item guild id)) channel_ids ;;
  results <- Promise_allSettled promises ;;
  outcomes <- Array_mapi (fun r i =>
      match r with
      | inr value =>
          name <- lift (get_prop value "name") ;;
          ret (JObj [ ("id", array_get channel_ids i); ("name", name);
                      ("status", JStr "deleted") ])
      | inl reason => ret (failed "id" (array_get channel_ids i) reason)
      end) results ;;
  ret (JArr outcomes).

(** *** Messages *)

Definition opt_str (o : option string) : jsval :=
  match o with Some s => JStr s | None => JUndefined end.

(** The object built for one message by [get_messages]. *)
Definition message_view (m : Message) : jsval :=
  JObj [ ("id", JStr (message_id m));
         ("author", JStr (author_username m));
         ("author_id", JStr (author_id m));
         ("display_name", js_or (opt_str (member_displayName m)) (JStr (author_username m)));
         ("content", JStr (content m));
         ("timestamp", JDate (createdAt m));
         ("edited", JBool (match editedAt m with Some _ => true | None => false end));
         ("attachments", JNum (attachments_size m));
         ("embeds", JNum (embeds_length m));
         ("reactions",
          JArr (map (fun r => JObj [ ("emoji", JStr (fst r)); ("count", JNum (snd r)) ])
                    (reactions m)));
         ("reply_to", js_or (opt_str (reference_messageId m)) JNull) ].

(** [fetchOptions] of [get_messages]. *)
Definition fetchOptions (args_limit args_before : jsval) : jsval :=
  let limit := Math_min (js_or args_limit (JNum 20)) (JNum 100) in
  JObj (("limit", limit)
        :: if truthy args_before then [("before", args_before)] else []).

Definition get_messages (guild : Guild) (args : jsval) : M jsval :=
  id <- arg args "channel_id" ;;
  channel <- resolveTextChannel guild id ;;
  limit <- arg args "limit" ;;
  before <- arg args "before_message_id" ;;
  messages <- perform (Channel_messages_fetch channel (fetchOptions limit before)) ;;
  ret (JObj [ ("channel_id", JStr (channel_id channel));
              ("channel_name", JStr (channel_name channel));
              ("messages", JArr (map message_view (rev messages))) ]).

Definition send_message (guild : Guild) (args : jsval) : M jsval :=
  id <- arg args "channel_id" ;;
  channel <- resolveTextChannel guild id ;;
  body <- arg args "content" ;;
  msg <- perform (Channel_send channel body) ;;
  ret (JObj [ ("message_id", JStr (message_id msg)); ("channel_id", id);
              ("content", body) ]).

Definition reply_message (guild : Guild) (args : jsval) : M jsval :=
  id <- arg args "channel_id" ;;
  channel <- resolveTextChannel guild id ;;
  mid <- arg args "message_id" ;;
  targetMsg <- perform (Channel_messages_fetch_id channel mid) ;;
  body <- arg args "content" ;;
  ping <- arg args "ping" ;;
  let repliedUser := match ping with JBool false => false | _ => true end in
  msg <- perform (Message_reply targetMsg
                    (JObj [ ("content", body);
                            ("allowedMentions",
                             JObj [ ("repliedUser", JBool repliedUser) ]) ])) ;;
  ret (JObj [ ("message_id", JStr (message_id msg)); ("channel_id", id);
              ("replied_to", mid); ("content", body) ]).

Definition edit_message (guild : Guild) (args : jsval) : M jsval :=
  id <- arg args "channel_id" ;;
  channel <- resolveTextChannel guild id ;;
  mid <- arg args "message_id" ;;
  msg <- perform (Channel_messages_fetch_id channel mid) ;;
  body <- arg args "content" ;;
  perform (Message_edit msg body) ;;;
  ret (JObj [ ("edited_message_id", mid); ("channel_id", id); ("new_content", body) ]).

(** The closure [async (m) => { ... }] of [mass_send_message]. *)
Definition mass_send_message_item (guild : Guild) (m : jsval) : T jsval :=
  id <~ t_lift (get_prop m "channel_id") ;;
  channel <~ await (async_resolveTextChannel guild id) ;;
  body <~ t_lift (get_prop m "content") ;;
  msg <~ await_call (Channel_send channel body) ;;
  t_ret (JObj [ ("message_id", JStr (message_id msg)); ("channel_id", id) ]).

Definition mass_send_message (guild : Guild) (args : jsval) : M jsval :=
  messages <- arg args "messages" ;;
  messages <- lift (as_array messages) ;;
  promises <- Array_map (fun m => start (mass_send_message_item guild m)) messages ;;
  results <- Promise_allSettled promises ;;
  outcomes <- Array_mapi (fun r i =>
      id <- lift (get_prop (array_get messages i) "channel_id") ;;
      match r with
      | inr value =>
          mid <- lift (get_prop value "message_id") ;;
          ret (JObj [ ("channel_id", id); ("message_id", mid); ("status", JStr "sent") ])
      | inl reason => ret (failed "channel_id" id reason)
      end) results ;;
  ret (JArr outcomes).

Definition delete_message (guild : Guild) (args : jsval) : M jsval :=
  id <- arg args "channel_id" ;;
  channel <- resolveTextChannel guild id ;;
  mid <- arg args "message_id" ;;
  msg <- perform (Channel_messages_fetch_id channel mid) ;;
  perform (Message_delete msg) ;;;
  ret (JObj [ ("deleted_message_id", mid); ("channel_id", id) ]).

(** The closure [async (id) => { ... }] of [mass_delete_message]. *)
Definition mass_delete_message_item (channel : Channel) (id : jsval) : T jsval :=
  msg <~ await_call (Channel_messages_fetch_id channel id) ;;
  await_call (Message_delete msg) ~;;
  t_ret id.

Definition mass_delete_message (guild : Guild) (args : jsval) : M jsval :=
  id <- arg args "channel_id" ;;
  channel <- resolveTextChannel guild id ;;
  message_ids <- arg args "message_ids" ;;
  message_ids <- lift (as_array message_ids) ;;
  promises <- Array_map (fun id => start (mass_delete_message_item channel id))
                        message_ids ;;
  results <- Promise_allSettled promises ;;
  outcomes <- Array_mapi (fun r i =>
      match r with
      | inr _ =>
          ret (JObj [ ("message_id", array_get message_ids i);
                      ("status", JStr "deleted") ])
      | inl reason => ret (failed "message_id" (array_get message_ids i) reason)
      end) results ;;
  ret (JArr outcomes).

Definition add_reaction (guild : Guild) (args : jsval) : M jsval :=
  id <- arg args "channel_id" ;;
  channel <- resolveTextChannel guild id ;;
  mid <- arg args "message_id" ;;
  msg <- perform (Channel_messages_fetch_id channel mid) ;;
  emoji <- arg args "emoji" ;;
  perform (Message_react msg emoji) ;;;
  ret (JObj [ ("message_id", mid); ("emoji", emoji); ("status", JStr "reacted") ]).

(** *** Roles *)

Definition role_options (name color hoist mentionable : jsval) : jsval :=
  JObj [ ("name", name); ("color", js_or color JNull);
         ("hoist", js_or hoist (JBool false));
         ("mentionable", js_or mentionable (JBool false)) ].

Definition create_role (guild : Guild) (args : jsval) : M jsval :=
  name <- arg args "name" ;;
  color <- arg args "color" ;;
  hoist <- arg args "hoist" ;;
  mentionable <- arg args "mentionable" ;;
  role <- perform (Guild_roles_create guild (role_options name color hoist mentionable)) ;;
  ret (JObj [ ("id", JStr (role_id role)); ("name", JStr (role_name role));
              ("color", JStr (role_hexColor role)); ("hoist", JBool (role_hoist role));
              ("mentionable", JBool (role_mentionable role)) ]).

Definition delete_role (guild : Guild) (args : jsval) : M jsval :=
  id <- arg args "role_id" ;;
  s <- get_state ;;
  match cache_get role_id (roles_cache (discord s) guild) id with
  | None => throw (Error ("Role " ++ ToString id ++ " not found"))
  | Some role =>
      let roleName := role_name role in
      perform (Role_delete role) ;;;
      ret (JObj [ ("deleted", id); ("name", JStr roleName) ])
  end.

Definition mass_create_role (guild : Guild) (args : jsval) : M jsval :=
  roles <- arg args "roles" ;;
  roles <- lift (as_array roles) ;;
  promises <- Array_map (fun r =>
      name <- lift (get_prop r "name") ;;
      color <- lift (get_prop r "color") ;;
      hoist <- lift (get_prop r "hoist") ;;
      mentionable <- lift (get_prop r "mentionable") ;;
      start (await_call (Guild_roles_create guild
                          (role_options name color hoist mentionable)))) roles ;;
  results <- Promise_allSettled promises ;;
  outcomes <- Array_mapi (fun r i =>
      name <- lift (get_prop (array_get roles i) "name") ;;
      match r with
      | inr value =>
          ret (JObj [ ("name", name); ("id", JStr (role_id value));
                      ("status", JStr "created") ])
      | inl reason => ret (failed "name" name reason)
      end) results ;;
  ret (JArr outcomes).

(** The closure [async (id) => { ... }] of [mass_delete_role]. *)
Definition mass_delete_role_item (guild : Guild) (id : jsval) : T jsval :=
  d <~ t_client ;;
  match cache_get role_id (roles_cache d guild) id with
  | None => t_throw (Error ("Role " ++ ToString id ++ " not found"))
  | Some role =>
      let n := role_name role in
      await_call (Role_delete role) ~;;
      t_ret (JObj [ ("id", id); ("name", JStr n) ])
  end.

Definition mass_delete_role (guild : Guild) (args : jsval) : M jsval :=
  role_ids <- arg args "role_ids" ;;
  role_ids <- lift (as_array role_ids) ;;
  promises <- Array_map (fun id => start (mass_delete_role_item guild id)) role_ids ;;
  results <- Promise_allSettled promises ;;
  outcomes <- Array_mapi (fun r i =>
      match r with
      | inr value =>
          name <- lift (get_prop value "name") ;;
          ret (JObj [ ("id", array_get role_ids i); ("name", name);
                      ("status", JStr "deleted") ])
      | inl reason => ret (failed "id" (array_get role_ids i) reason)
      end) results ;;
  ret (JArr outcomes).

Definition role_change (status : string) (member : Member) (role : Role) : jsval :=
  JObj [ ("user_id", JStr (member_id member));
         ("username", JStr (username (user member)));
         ("role_id", JStr (role_id role)); ("role_name", JStr (role_name role));
         ("status", JStr status) ].

Definition assign_role (guild : Guild) (args : jsval) : M jsval :=
  uid <- arg args "user_id" ;;
  member <- resolveMember guild uid ;;
  rid <- arg args "role_id" ;;
  role <- resolveRole guild rid ;;
  perform (Member_roles_add member role) ;;;
  ret (role_change "assigned" member role).

Definition remove_role (guild : Guild) (args : jsval) : M jsval :=
  uid <- arg args "user_id" ;;
  member <- resolveMember guild uid ;;
  rid <- arg args "role_id" ;;
  role <- resolveRole guild rid ;;
  perform (Member_roles_remove member role) ;;;
  ret (role_change "removed" member role).

(** *** Moderation *)

Definition Date_now_M : M Z := fun s => (inr (Date_now (discord s)), s).

Definition kick_user (guild : Guild) (args : jsval) : M jsval :=
  uid <- arg args "user_id" ;;
  member <- resolveMember guild uid ;;
  reason <- arg args "reason" ;;
  perform (Member_kick member (no_reason reason)) ;;;
  ret (JObj [ ("kicked", JStr (member_id member));
              ("username", JStr (username (user member)));
              ("reason", no_reason reason) ]).

Definition ban_options (default_reason : string) (reason delete_message_days : jsval)
  : jsval :=
  JObj [ ("reason", js_or reason (JStr default_reason));
         ("deleteMessageDays", js_or delete_message_days (JNum 0)) ].

Definition ban_user (guild : Guild) (args : jsval) : M jsval :=
  uid <- arg args "user_id" ;;
  member <- resolveMember guild uid ;;
  reason <- arg args "reason" ;;
  days <- arg args "delete_message_days" ;;
  perform (Guild_members_ban guild (JStr (member_id member))
             (ban_options "No reason provided" reason days)) ;;;
  ret (JObj [ ("banned", JStr (member_id member));
              ("username", JStr (username (user member)));
              ("reason", no_reason reason) ]).

Definition unban_user (guild : Guild) (args : jsval) : M jsval :=
  uid <- arg args "user_id" ;;
  reason <- arg args "reason" ;;
  perform (Guild_members_unban guild uid (no_reason reason)) ;;;
  ret (JObj [ ("unbanned", uid); ("reason", no_reason reason) ]).

(** [args.duration_minutes * 60 * 1000] *)
Definition minutes_to_ms (duration_minutes : jsval) : jsval :=
  js_mul (js_mul duration_minutes (JNum 60)) (JNum 1000).

Definition time_out_user (guild : Guild) (args : jsval) : M jsval :=
  uid <- arg args "user_id" ;;
  member <- resolveMember guild uid ;;
  duration_minutes <- arg args "duration_minutes" ;;
  let ms := minutes_to_ms duration_minutes in
  reason <- arg args "reason" ;;
  perform (Member_timeout member ms (no_reason reason)) ;;;
  now <- Date_now_M ;;
  ret (JObj [ ("timed_out", JStr (member_id member));
              ("username", JStr (username (user member)));
              ("duration_minutes", duration_minutes);
              ("until", new_Date_plus now ms);
              ("reason", no_reason reason) ]).

Definition mass_ban (guild : Guild) (args : jsval) : M jsval :=
  user_ids <- arg args "user_ids" ;;
  user_ids <- lift (as_array user_ids) ;;
  promises <- Array_map (fun id =>
      reason <- arg args "reason" ;;
      days <- arg args "delete_message_days" ;;
      start (await_call (Guild_members_ban guild id (ban_options "Mass ban" reason days))))
    user_ids ;;
  results <- Promise_allSettled promises ;;
  outcomes <- Array_mapi (fun r i =>
      match r with
      | inr _ =>
          ret (JObj [ ("user_id", array_get user_ids i); ("status", JStr "banned") ])
      | inl reason => ret (failed "user_id" (array_get user_ids i) reason)
      end) results ;;
  ret (JArr outcomes).

(** The closure [async (id) => { ... }] of [mass_time_out]. *)
Definition mass_time_out_item (guild : Guild) (args ms : jsval) (id : jsval)
  : T string :=
  m <~ await (async_resolveMember guild id) ;;
  reason <~ t_lift (get_prop args "reason") ;;
  await_call (Member_timeout m ms (js_or reason (JStr "Mass timeout"))) ~;;
  t_ret (username (user m)).

Definition mass_time_out (guild : Guild) (args : jsval) : M jsval :=
  duration_minutes <- arg args "duration_minutes" ;;
  let ms := minutes_to_ms duration_minutes in
  user_ids <- arg args "user_ids" ;;
  user_ids <- lift (as_array user_ids) ;;
  promises <- Array_map (fun id => start (mass_time_out_item guild args ms id))
                        user_ids ;;
  results <- Promise_allSettled promises ;;
  outcomes <- Array_mapi (fun r i =>
      match r with
      | inr value =>
          now <- Date_now_M ;;
          ret (JObj [ ("user_id", array_get user_ids i); ("username", JStr value);
                      ("status", JStr "timed_out"); ("until", new_Date_plus now ms) ])
      | inl reason => ret (failed "user_id" (array_get user_ids i) reason)
      end) results ;;
  ret (JArr outcomes).

(** *** [handleTool] *)

Definition guild_tools (guild : Guild) (args : jsval) : list (string * M jsval) :=
  [ ("create_channel", create_channel guild args);
    ("create_category", create_category guild args);
    ("create_voice_channel", create_voice_channel guild args);
    ("mass_channels", mass_channels guild args);
    ("mass_categories", mass_categories guild args);
    ("mass_voice_channels", mass_voice_channels guild args);
    ("delete", delete guild args);
    ("mass_delete", mass_delete guild args);
    ("get_messages", get_messages guild args);
    ("send_message", send_message guild args);
    ("reply_message", reply_message guild args);
    ("edit_message", edit_message guild args);
    ("mass_send_message", mass_send_message guild args);
    ("delete_message", delete_message guild args);
    ("mass_delete_message", mass_delete_message guild args);
    ("add_reaction", add_reaction guild args);
    ("create_role", create_role guild args);
    ("delete_role", delete_role guild args);
    ("mass_create_role", mass_create_role guild args);
    ("mass_delete_role", mass_delete_role guild args);
    ("assign_role", assign_role guild args);
    ("remove_role", remove_role guild args);
    ("kick_user", kick_user guild args);
    ("ban_user", ban_user guild args);
    ("unban_user", unban_user guild args);
    ("time_out_user", time_out_user guild args);
    ("mass_ban", mass_ban guild args);
    ("mass_time_out", mass_time_out guild args) ].

Definition handleTool (name : string) (args : jsval) : M jsval :=
  requireDiscord ;;;
  switch name
    [ ("set_guild", set_guild args);
      ("get_guild", get_guild);
      ("list_guilds", list_guilds) ]
    ( guildId <- resolveGuildId args ;;
      guild <- getGuild guildId ;;
      switch name (guild_tools guild args)
        ( if existsb (String.eqb name) elsewhere_tools
          then elsewhere name guild args
          else throw (Error ("Unknown tool: " ++ name)) ) ).

(** *** The request handler around it *)

Record tool_response : Type := {
  content_text : string;
  isError : option bool            (* [None]: the field is absent *)
}.

Definition callTool (name : string) (args : jsval) (s : state)
  : tool_response * state :=
  match handleTool name args s with
  | (inr result, s') =>
      ({| content_text := JSON_stringify result; isError := None |}, s')
  | (inl err, s') =>
      ({| content_text := "Error: " ++ message err; isError := Some true |}, s')
  end.

End Handlers.

Arguments handleTool {RT PF} elsewhere name args _.
Arguments callTool {RT PF} elsewhere name args s.

(* ================================================================= *)
(** ** An executable runtime: a JSON printer and parser *)

Module TestRuntime.

Definition hex_digit (n : nat) : ascii :=
  ascii_of_nat (if (n <? 10)%nat then 48 + n else 87 + n).

(** The escapes of JSON.stringify for the bytes below 0x80. *)
Fixpoint quote_chars (s : string) : string :=
  match s with
  | EmptyString => EmptyString
  | String c s' =>
      let n := nat_of_ascii c in
      let rest := quote_chars s' in
      if (n =? 34)%nat then String "\" (String "034" rest)
      else if (n =? 92)%nat then String "\" (String "\" rest)
      else if (n =? 10)%nat then String "\" (String "n" rest)
      else if (n =? 13)%nat then String "\" (String "r" rest)
      else if (n =? 9)%nat then String "\" (String "t" rest)
      else if (n =? 8)%nat then String "\" (String "b" rest)
      else if (n =? 12)%nat then String "\" (String "f" rest)
      else if (n <? 32)%nat then
        "\u00" ++ String (hex_digit (n / 16)) (String (hex_digit (n mod 16)) rest)
      else String c rest
  end.

Definition quote (s : string) : string := dquote ++ quote_chars s ++ dquote.

Definition newline : string := String (ascii_of_nat 10) EmptyString.

Fixpoint spaces (n : nat) : string :=
  match n with O => EmptyString | S n' => String " " (spaces n') end.

(** [JSON.stringify(v, null, 2)] at nesting depth [depth].  A property whose
    value is undefined is left out; undefined in an array prints as null. *)
Fixpoint stringify_at (depth : nat) (v : jsval) {struct v} : string :=
  let pad := spaces (2 * S depth) in
  match v with
  | JUndefined | JNull | JNaN => "null"
  | JBool true => "true"
  | JBool false => "false"
  | JNum n => string_of_Z n
  | JStr s => quote s
  | JDate (Some t) => quote ("Date " ++ string_of_Z t)
  | JDate None => "null"
  | JArr [] => "[]"
  | JArr items =>
      "[" ++ newline
      ++ String.concat ("," ++ newline)
           (map (fun x => pad ++ stringify_at (S depth) x) items)
      ++ newline ++ spaces (2 * depth) ++ "]"
  | JObj props =>
      match filter (fun p => match snd p with JUndefined => false | _ => true end)
                   props with
      | [] => "{}"
      | _ =>
          "{" ++ newline
          ++ String.concat ("," ++ newline)
               (flat_map (fun p : string * jsval =>
                  let (k, x) := p in
                  match x with
                  | JUndefined => []
                  | _ => [pad ++ quote k ++ ": " ++ stringify_at (S depth) x]
                  end) props)
          ++ newline ++ spaces (2 * depth) ++ "}"
      end
  end.

Definition stringify (v : jsval) : string := stringify_at O v.

Definition is_space (c : ascii) : bool :=
  let n := nat_of_ascii c in
  (n =? 32)%nat || (n =? 10)%nat || (n =? 13)%nat || (n =? 9)%nat.

Fixpoint skip_ws (s : string) : string :=
  match s with
  | String c s' => if is_space c then skip_ws s' else s
  | EmptyString => s
  end.

Fixpoint read_digits (acc : Z) (s : string) : Z * string :=
  match s with
  | String c s' =>
      if is_digit c
      then read_digits (10 * acc + Z.of_nat (nat_of_ascii c - 48)) s'
      else (acc, s)
  | EmptyString => (acc, s)
  end.

(** An integer literal: an optional minus sign and digits. *)
Definition read_int (s : string) : option (Z * string) :=
  match s with
  | String "-" (String c s') =>
      if is_digit c then
        let (n, rest) := read_digits 0 (String c s') in Some (- n, rest)
      else None
  | String c _ =>
      if is_digit c then Some (read_digits 0 s) else None
  | EmptyString => None
  end.

Definition unhex (c : ascii) : option nat :=
  let n := nat_of_ascii c in
  if is_digit c then Some (n - 48)%nat
  else if (97 <=? n)%nat && (n <=? 102)%nat then Some (n - 87)%nat
  else if (65 <=? n)%nat && (n <=? 70)%nat then Some (n - 55)%nat
  else None.

(** The characters of a string literal, after its opening quote. *)
Fixpoint read_string (s : string) : option (string * string) :=
  match s with
  | EmptyString => None
  | String "034" rest => Some (EmptyString, rest)
  | String "\" (String "u" (String "0" (String "0" (String h (String l rest))))) =>
      match unhex h, unhex l, read_string rest with
      | Some a, Some b, Some (t, r) => Some (String (ascii_of_nat (16 * a + b)) t, r)
      | _, _, _ => None
      end
  | String "\" (String e rest) =>
      let plain (c : ascii) :=
        match read_string rest with
        | Some (t, r) => Some (String c t, r)
        | None => None
        end in
      match e with
      | "034"%char => plain "034"%char
      | "\"%char => plain "\"%char
      | "/"%char => plain "/"%char
      | "n"%char => plain (ascii_of_nat 10)
      | "r"%char => plain (ascii_of_nat 13)
      | "t"%char => plain (ascii_of_nat 9)
      | "b"%char => plain (ascii_of_nat 8)
      | "f"%char => plain (ascii_of_nat 12)
      | _ => None
      end
  | String c rest =>
      if (nat_of_ascii c <? 32)%nat then None else
      match read_string rest with
      | Some (t, r) => Some (String c t, r)
      | None => None
      end
  end.

Definition literal (word : string) (v : jsval) (s : string) : option (jsval * string) :=
  if String.prefix word s
  then Some (v, String.substring (String.length word)
                  (String.length s - String.length word) s)
  else None.

(** A value, the items of an array after [[] and the members of an object
    after [{]; [fuel] bounds the number of steps. *)
Fixpoint read_value (fuel : nat) (s : string) {struct fuel} : option (jsval * string) :=
  match fuel with
  | O => None
  | S fuel' =>
      match skip_ws s with
      | String "[" r =>
          match skip_ws r with
          | String "]" r' => Some (JArr [], r')
          | _ => read_items fuel' [] r
          end
      | String "{" r =>
          match skip_ws r with
          | String "}" r' => Some (JObj [], r')
          | _ => read_members fuel' [] r
          end
      | String "034" r =>
          match read_string r with
          | Some (t, r') => Some (JStr t, r')
          | None => None
          end
      | String "n" _ as w => literal "null" JNull w
      | String "t" _ as w => literal "true" (JBool true) w
      | String "f" _ as w => literal "false" (JBool false) w
      | w =>
          match read_int w with
          | Some (n, r) => Some (JNum n, r)
          | None => None
          end
      end
  end
with read_items (fuel : nat) (acc : list jsval) (s : string) {struct fuel}
  : option (jsval * string) :=
  match fuel with
  | O => None
  | S fuel' =>
      match read_value fuel' s with
      | Some (v, r) =>
          match skip_ws r with
          | String "," r' => read_items fuel' (acc ++ [v]) r'
          | String "]" r' => Some (JArr (acc ++ [v]), r')
          | _ => None
          end
      | None => None
      end
  end
with read_members (fuel : nat) (acc : list (string * jsval)) (s : string) {struct fuel}
  : option (jsval * string) :=
  match fuel with
  | O => None
  | S fuel' =>
      match skip_ws s with
      | String "034" r =>
          match read_string r with
          | Some (k, r1) =>
              match skip_ws r1 with
              | String ":" r2 =>
                  match read_value fuel' r2 with
                  | Some (v, r3) =>
                      match skip_ws r3 with
                      | String "," r4 => read_members fuel' (assoc_set k v acc) r4
                      | String "}" r4 => Some (JObj (assoc_set k v acc), r4)
                      | _ => None
                      end
                  | None => None
                  end
              | _ => None
              end
          | None => None
          end
      | _ => None
      end
  end.

Definition parse_text (text : string) : option jsval :=
  match read_value (2 * String.length text + 2) text with
  | Some (v, rest) =>
      match skip_ws rest with
      | EmptyString => Some v
      | _ => None
      end
  | None => None
  end.

(** StringToNumber on the integer literals; the empty string is 0. *)
Definition string_to_number (s : string) : option Z :=
  match skip_ws s with
  | EmptyString => Some 0
  | w =>
      match read_int w with
      | Some (n, rest) =>
          match skip_ws rest with EmptyString => Some n | _ => None end
      | None => None
      end
  end.

Definition date_text (t : option Z) : string :=
  match t with
  | Some t => "Date " ++ string_of_Z t
  | None => "Invalid Date"
  end.

(** The lower case of this runtime folds the letters A to Z and nothing
    else. *)
#[export] Instance runtime : Runtime.
Proof.
  refine {| JSON_parse := parse_text;
            JSON_stringify := stringify;
            StringToNumber := string_to_number;
            Date_toString := date_text;
            toLowerCase := ascii_toLowerCase |}.
  - intros s _. reflexivity.
  - intros s. induction s as [|c s IH]; [reflexivity|].
    cbn [ascii_toLowerCase all_digits]. intros H.
    apply andb_prop in H. destruct H as [Hc Hs].
    rewrite (IH Hs). f_equal.
    clear - Hc. destruct c as [[] [] [] [] [] [] [] []];
      first [reflexivity | discriminate Hc].
Defined.

End TestRuntime.

(* ================================================================= *)
(** ** An executable platform: two guilds, one channel, two members *)

Module TestPlatform.
Import TestRuntime.

Record test_client : Type := {
  next_id : Z;          (* the next identifier the platform hands out *)
  clock : Z             (* milliseconds since the epoch *)
}.

Definition home : Guild :=
  {| guild_id := "111111111111111111"; guild_name := "Home"; guild_memberCount := 3 |}.

Definition lab : Guild :=
  {| guild_id := "222222222222222222"; guild_name := "Lab"; guild_memberCount := 8 |}.

Definition general : Channel :=
  {| channel_id := "333333333333333333"; channel_name := "general";
     channel_isTextBased := true |}.

Definition alice : Member :=
  {| member_id := "444444444444444444";
     user := {| username := "alice"; globalName := Some "Alice W" |};
     displayName := "Al" |}.

Definition bob : Member :=
  {| member_id := "555555555555555555";
     user := {| username := "bob"; globalName := None |};
     displayName := "bob" |}.

Definition mods : Role :=
  {| role_id := "666666666666666666"; role_name := "Mods";
     role_hexColor := "#ff0000"; role_hoist := true; role_mentionable := false |}.

Definition posted (id : Z) (body : jsval) : Message :=
  {| message_id := string_of_Z id; author_username := "bot"; author_id := "7";
     member_displayName := None; content := ToString body;
     createdAt := Some 0; editedAt := None; attachments_size := 0;
     embeds_length := 0; reactions := []; reference_messageId := None |}.

(** Every call takes 250 ms. *)
Definition tick (c : test_client) : test_client :=
  {| next_id := next_id c; clock := clock c + 250 |}.

Definition fresh (c : test_client) : test_client :=
  {| next_id := next_id c + 1; clock := clock c + 250 |}.

(** The platform refuses to create a channel named [b], knows the members
    [alice] and [bob], and bans only [bob].  The pending promises of a batch
    take their turns one after the other, four rounds long. *)
Definition run (A : Type) (c : call A) (st : test_client) : settled A * test_client :=
  match c in call T return settled T * test_client with
  | Guild_channels_create _ options =>
      match field "name" options with
      | JStr "b" => (inl (Error "Missing Permissions"), tick st)
      | name =>
          (inr {| channel_id := string_of_Z (next_id st);
                  channel_name := ToString name;
                  channel_isTextBased := true |}, fresh st)
      end
  | Guild_channels_fetchActiveThreads _ => (inr [], tick st)
  | Client_channels_fetch _ => (inl (Error "Unknown Channel"), tick st)
  | Channel_delete _ => (inr tt, tick st)
  | Channel_send _ body => (inr (posted (next_id st) body), fresh st)
  | Channel_messages_fetch _ _ => (inr [], tick st)
  | Channel_messages_fetch_id _ _ => (inl (Error "Unknown Message"), tick st)
  | Message_delete _ => (inr tt, tick st)
  | Message_reply _ options => (inr (posted (next_id st) (field "content" options)), fresh st)
  | Message_edit _ _ => (inr tt, tick st)
  | Message_react _ _ => (inr tt, tick st)
  | Guild_roles_create _ options =>
      (inr {| role_id := string_of_Z (next_id st);
              role_name := ToString (field "name" options);
              role_hexColor := "#000000"; role_hoist := false;
              role_mentionable := false |}, fresh st)
  | Role_delete _ => (inr tt, tick st)
  | Guild_members_fetch_id _ id =>
      match find (fun m => strict_eq_str (member_id m) id) [alice; bob] with
      | Some m => (inr m, tick st)
      | None => (inl (Error "Unknown Member"), tick st)
      end
  | Guild_members_fetch _ => (inr tt, tick st)
  | Guild_members_ban _ id _ =>
      if strict_eq_str (member_id bob) id then (inr tt, tick st)
      else (inl (Error "Unknown User"), tick st)
  | Guild_members_unban _ _ _ => (inl (Error "Unknown Ban"), tick st)
  | Member_kick _ _ => (inr tt, tick st)
  | Member_timeout _ _ _ => (inr tt, tick st)
  | Member_roles_add _ _ => (inr tt, tick st)
  | Member_roles_remove _ _ => (inr tt, tick st)
  end.

#[export] Instance platform : Platform := {
  client := test_client;
  discordReady := inr tt;
  Date_now := clock;
  guilds_cache := fun _ => [home; lab];
  channels_cache := fun _ _ => [general];
  roles_cache := fun _ _ => [mods];
  members_cache := fun _ _ => [alice; bob];
  exec := run;
  schedule := fun _ => [0; 1; 2; 3; 0; 1; 2; 3; 0; 1; 2; 3; 0; 1; 2; 3]%nat
}.

(** The cases that are not embedded are not exercised by the tests. *)
Definition elsewhere (name : string) (_ : Guild) (_ : jsval) : M jsval :=
  throw (Error ("not embedded: " ++ name)).

(** A state at startup: no config file, no call made yet. *)
Definition startup : state :=
  {| config_file := None;
     discord := {| next_id := 1000; clock := 1700000000000 |};
     calls := [] |}.

Definition with_config (config : jsval) : state :=
  {| config_file := Some (stringify config);
     discord := {| next_id := 1000; clock := 1700000000000 |};
     calls := [] |}.

Definition tool (name : string) (args : jsval) : M jsval :=
  handleTool elsewhere name args.

(** Arguments that name the guild [home]. *)
Definition in_home (props : list (string * jsval)) : jsval :=
  JObj (("guild_id", JStr (guild_id home)) :: props).

Definition three_channels : list jsval :=
  [ JObj [("name", JStr "a")]; JObj [("name", JStr "b")]; JObj [("name", JStr "c")] ].

(** A batch of three time-outs: [alice], someone the platform does not
    know, and [bob]. *)
Definition three_time_outs : list jsval :=
  [ JStr (member_id alice); JStr "999999999999999999"; JStr (member_id bob) ].

Definition time_out_three : jsval :=
  in_home [ ("duration_minutes", JNum 10); ("user_ids", JArr three_time_outs) ].

Definition fetch_of (id : string) : logged :=
  Logged (Guild_members_fetch_id home (JStr id)).

Definition time_out_of (m : Member) : logged :=
  Logged (Member_timeout m (JNum 600000) (JStr "Mass timeout")).

(** A config with a field that the program does not know. *)
Definition themed_config : list (string * jsval) :=
  [ ("default_guild_id", JStr (guild_id home)); ("theme", JStr "dark") ].

Definition time_out_alice : jsval :=
  in_home [ ("user_id", JStr (member_id alice)); ("duration_minutes", JNum 10) ].

Definition read_general (limit : jsval) : jsval :=
  in_home [ ("channel_id", JStr (channel_id general)); ("limit", limit) ].

(** Calls that may come between a [set_guild] and a [get_guild]. *)
Definition other_calls : list (string * jsval) :=
  [ ("list_guilds", JNull);
    ("mass_channels", in_home [("channels", JArr three_channels)]);
    ("get_messages", read_general (JNum 5)) ].

End TestPlatform.

(* ================================================================= *)
(** ** Vocabulary of the statements *)

(** [null] and [undefined]. *)
Definition nullish (v : jsval) : bool :=
  match v with JUndefined | JNull => true | _ => false end.

(** The value of [args.guild_id || undefined]: does the call name a guild? *)
Definition names_guild (args : jsval) : bool :=
  match get_prop args "guild_id" with
  | inr g => truthy g
  | inl _ => false
  end.

(** The three tools that [handleTool] serves before it resolves a guild. *)
Definition guild_free (name : string) : bool :=
  (name =? "set_guild")%string || (name =? "get_guild")%string
  || (name =? "list_guilds")%string.

(** A token of 17 to 20 decimal digits and nothing else. *)
Definition snowflake_shaped (s : string) : Prop :=
  all_digits s = true /\ (17 <= String.length s <= 20)%nat.

(** Two characters that are the same letter: they are equal, or one is a
    capital letter A to Z and the other the small letter, 32 places on. *)
Definition capital_of (small capital : ascii) : Prop :=
  (65 <= nat_of_ascii capital <= 90)%nat
  /\ nat_of_ascii small = (nat_of_ascii capital + 32)%nat.

Definition same_letter (c1 c2 : ascii) : Prop :=
  c1 = c2 \/ capital_of c1 c2 \/ capital_of c2 c1.

(** Two strings that differ at most in the case of their letters A to Z. *)
Fixpoint equal_up_to_case (a b : string) : Prop :=
  match a, b with
  | EmptyString, EmptyString => True
  | String c1 a', String c2 b' => same_letter c1 c2 /\ equal_up_to_case a' b'
  | _, _ => False
  end.

(** [x] is the first element of [l] for which [p] holds. *)
Definition first_match {A} (p : A -> Prop) (l : list A) (x : A) : Prop :=
  exists before after,
    l = (before ++ x :: after)%list /\ p x /\ forall y, In y before -> ~ p y.

Section Vocabulary.
Context {RT : Runtime} {PF : Platform}.

(** Equality of strings up to case, as the language has it: the two have
    the same lower case. *)
Definition same_ignoring_case (a b : string) : Prop := toLowerCase a = toLowerCase b.

(** A member answers to a name through its account name, its display name in
    the server or its global display name, when it has one. *)
Definition answers_to (name : string) (m : Member) : Prop :=
  same_ignoring_case (username (user m)) name
  \/ same_ignoring_case (displayName m) name
  \/ exists g, globalName (user m) = Some g /\ g <> EmptyString
               /\ same_ignoring_case g name.

(** The config that the store holds in a state. *)
Definition stored_config (s : state) : jsval :=
  match fst (loadConfig s) with
  | inr config => config
  | inl _ => JUndefined
  end.

(** Does the persisted config carry a default guild? *)
Definition has_default (s : state) : bool :=
  match get_prop (stored_config s) "default_guild_id" with
  | inr d => truthy d
  | inl _ => false
  end.

(** The guild the client knows under an identifier. *)
Definition known_guild (s : state) (id : jsval) : option Guild :=
  cache_get guild_id (guilds_cache (discord s)) id.

(** The first two statements of the second half of [handleTool]. *)
Definition resolve_guild (args : jsval) : M Guild :=
  guildId <- resolveGuildId args ;;
  getGuild guildId.

(** The call that a task awaits, if it awaits one. *)
Definition pending {A} (t : task A) : list logged :=
  match t with
  | Awaiting c _ => [Logged c]
  | _ => []
  end.

(** One run of a task up to its settlement: the calls that the task makes,
    in their order (the one that it awaits to begin with included), and the
    settlement.  Each call is answered by the platform, at some instant, and
    the task goes on at some later instant. *)
Fixpoint run_of {A} (t : task A) (cs : list logged) (res : settled A) : Prop :=
  match t with
  | Settled r => cs = [] /\ res = r
  | Awaiting c k =>
      exists (answered resumed : client) (cs' : list logged),
        cs = Logged c :: cs'
        /\ run_of (k (fst (exec c answered)) resumed) cs' res
  | Resuming k => exists resumed : client, run_of (k resumed) cs res
  end.


(** A task all of whose calls satisfy [P], and whose value, if it is
    fulfilled, satisfies [Q]. *)
Fixpoint calls_within (P : logged -> Prop) {A} (Q : A -> Prop) (t : task A) : Prop :=
  match t with
  | Settled (inr a) => Q a
  | Settled (inl _) => True
  | Awaiting c k => P (Logged c) /\ forall r d, calls_within P Q (k r d)
  | Resuming k => forall d, calls_within P Q (k d)
  end.



(** The entries of a log whose calls are marked with the position of the
    item that made them: those of the item at position [i]. *)
Definition share (i : nat) (trace : list (nat * logged)) : list logged :=
  map snd (filter (fun p => (fst p =? i)%nat) trace).

(** A batch under way: [ts] is what the tasks [t0s] have become, and [trace]
    the calls of the tasks since the batch was launched. *)
Definition underway {A} (t0s ts : list (task A)) (trace : list (nat * logged))
  : Prop :=
  List.length ts = List.length t0s
  /\ Forall (fun p => (fst p < List.length t0s)%nat) trace
  /\ forall i t0,
       nth_error t0s i = Some t0 ->
       exists t done,
         nth_error ts i = Some t
         /\ (pending t0 ++ share i trace = done ++ pending t)%list
         /\ forall cs r, run_of t cs r -> run_of t0 (done ++ cs) r.

(** A computation called [n] times in a row. *)
Fixpoint repeatedly {A} (n : nat) (m : M A) (s : state) : list (exn + A) * state :=
  match n with
  | O => ([], s)
  | S n' =>
      let (r, s1) := m s in
      let (rs, s2) := repeatedly n' m s1 in
      (r :: rs, s2)
  end.

(** A computation that leaves the config file as it found it. *)
Definition keeps_config {A} (m : M A) : Prop :=
  forall s, config_file (snd (m s)) = config_file s.

(** A computation without any effect on the state. *)
Definition pure {A} (m : M A) : Prop := forall s, snd (m s) = s.

(** A sequence of tool calls, each on the state its predecessor left. *)
Fixpoint run_calls (elsewhere : string -> Guild -> jsval -> M jsval)
    (cs : list (string * jsval)) (s : state) : state :=
  match cs with
  | [] => s
  | (name, args) :: cs' =>
      run_calls elsewhere cs' (snd (handleTool elsewhere name args s))
  end.

End Vocabulary.







(* ================================================================= *)
(** ** Batch tools, as the specification describes them *)

Section BatchTools.
Context {RT : Runtime} {PF : Platform}.

(** A batch tool: where its items are, what it does once before them and for
    each of them, and how an outcome names its item and what was affected. *)
Record batch_tool : Type := {
  bt_name : string;
  bt_list : string;
  bt_item_ok : jsval -> bool;
  bt_context : Type;
  bt_setup : Guild -> jsval -> M bt_context;
  bt_value : Type;
  bt_operation : Guild -> jsval -> bt_context -> jsval -> T bt_value;
  bt_key : string;
  bt_item_key : jsval -> jsval;
  bt_status : string;
  bt_affected : string;
  bt_affected_id : jsval -> bt_value -> jsval
}.

Definition any_item (_ : jsval) : bool := true.
Definition object_item (item : jsval) : bool := negb (nullish item).
Definition no_setup (_ : Guild) (_ : jsval) : M unit := ret tt.
Definition itself (item : jsval) : jsval := item.

Definition batch_mass_channels : batch_tool := {|
  bt_name := "mass_channels"; bt_list := "channels"; bt_item_ok := object_item;
  bt_setup := no_setup;
  bt_operation := fun guild _ _ ch =>
    await_call (Guild_channels_create guild
               (text_channel_options (field "name" ch) (field "category_id" ch)
                                     (field "topic" ch)));
  bt_key := "name"; bt_item_key := field "name"; bt_status := "created";
  bt_affected := "id"; bt_affected_id := fun _ ch => JStr (channel_id ch) |}.

Definition batch_mass_categories : batch_tool := {|
  bt_name := "mass_categories"; bt_list := "names"; bt_item_ok := any_item;
  bt_setup := no_setup;
  bt_operation := fun guild _ _ n =>
    await_call (Guild_channels_create guild (category_options n));
  bt_key := "name"; bt_item_key := itself; bt_status := "created";
  bt_affected := "id"; bt_affected_id := fun _ ch => JStr (channel_id ch) |}.

Definition batch_mass_voice_channels : batch_tool := {|
  bt_name := "mass_voice_channels"; bt_list := "channels"; bt_item_ok := object_item;
  bt_setup := no_setup;
  bt_operation := fun guild _ _ ch =>
    await_call (Guild_channels_create guild
               (voice_channel_options (field "name" ch) (field "category_id" ch)
                                      (field "user_limit" ch)));
  bt_key := "name"; bt_item_key := field "name"; bt_status := "created";
  bt_affected := "id"; bt_affected_id := fun _ ch => JStr (channel_id ch) |}.

Definition batch_mass_delete : batch_tool := {|
  bt_name := "mass_delete"; bt_list := "channel_ids"; bt_item_ok := any_item;
  bt_setup := no_setup;
  bt_operation := fun guild _ _ id => mass_delete_item guild id;
  bt_key := "id"; bt_item_key := itself; bt_status := "deleted";
  bt_affected := "id"; bt_affected_id := fun id _ => id |}.

Definition batch_mass_send_message : batch_tool := {|
  bt_name := "mass_send_message"; bt_list := "messages"; bt_item_ok := object_item;
  bt_setup := no_setup;
  bt_operation := fun guild _ _ m => mass_send_message_item guild m;
  bt_key := "channel_id"; bt_item_key := field "channel_id"; bt_status := "sent";
  bt_affected := "message_id"; bt_affected_id := fun _ sent => field "message_id" sent |}.

Definition batch_mass_delete_message : batch_tool := {|
  bt_name := "mass_delete_message"; bt_list := "message_ids"; bt_item_ok := any_item;
  bt_setup := fun guild args =>
    id <- arg args "channel_id" ;; resolveTextChannel guild id;
  bt_operation := fun _ _ channel id => mass_delete_message_item channel id;
  bt_key := "message_id"; bt_item_key := itself; bt_status := "deleted";
  bt_affected := "message_id"; bt_affected_id := fun id _ => id |}.

Definition batch_mass_create_role : batch_tool := {|
  bt_name := "mass_create_role"; bt_list := "roles"; bt_item_ok := object_item;
  bt_setup := no_setup;
  bt_operation := fun guild _ _ r =>
    await_call (Guild_roles_create guild
               (role_options (field "name" r) (field "color" r) (field "hoist" r)
                             (field "mentionable" r)));
  bt_key := "name"; bt_item_key := field "name"; bt_status := "created";
  bt_affected := "id"; bt_affected_id := fun _ role => JStr (role_id role) |}.

Definition batch_mass_delete_role : batch_tool := {|
  bt_name := "mass_delete_role"; bt_list := "role_ids"; bt_item_ok := any_item;
  bt_setup := no_setup;
  bt_operation := fun guild _ _ id => mass_delete_role_item guild id;
  bt_key := "id"; bt_item_key := itself; bt_status := "deleted";
  bt_affected := "id"; bt_affected_id := fun id _ => id |}.

Definition batch_mass_ban : batch_tool := {|
  bt_name := "mass_ban"; bt_list := "user_ids"; bt_item_ok := any_item;
  bt_setup := no_setup;
  bt_operation := fun guild args _ id =>
    await_call (Guild_members_ban guild id
               (ban_options "Mass ban" (field "reason" args)
                            (field "delete_message_days" args)));
  bt_key := "user_id"; bt_item_key := itself; bt_status := "banned";
  bt_affected := "user_id"; bt_affected_id := fun id _ => id |}.

Definition batch_mass_time_out : batch_tool := {|
  bt_name := "mass_time_out"; bt_list := "user_ids"; bt_item_ok := any_item;
  bt_setup := no_setup;
  bt_operation := fun guild args _ id =>
    mass_time_out_item guild args (minutes_to_ms (field "duration_minutes" args)) id;
  bt_key := "user_id"; bt_item_key := itself; bt_status := "timed_out";
  bt_affected := "username"; bt_affected_id := fun _ name => JStr name |}.

Definition batch_tools : list batch_tool :=
  [ batch_mass_channels; batch_mass_categories; batch_mass_voice_channels;
    batch_mass_delete; batch_mass_send_message; batch_mass_delete_message;
    batch_mass_create_role; batch_mass_delete_role; batch_mass_ban;
    batch_mass_time_out ].




End BatchTools.

(* ================================================================= *)
(** ** The advertised tools *)

(** An entry of the [tools] table that the server lists: the name of the
    tool, the properties of its input schema with their types, and the
    properties the schema requires.  Descriptions and the schemas of array
    items are left out. *)
Record tool_entry : Type := {
  tool_name : string;
  tool_properties : list (string * string);
  tool_required : list string
}.

Definition tools : list tool_entry :=
  [ {| tool_name := "set_guild";
       tool_properties := [("guild_id", "string")];
       tool_required := ["guild_id"] |};
    {| tool_name := "get_guild";
       tool_properties := [];
       tool_required := [] |};
    {| tool_name := "list_guilds";
       tool_properties := [];
       tool_required := [] |};
    {| tool_name := "create_channel";
       tool_properties := [("guild_id", "string"); ("name", "string");
                           ("category_id", "string"); ("topic", "string")];
       tool_required := ["name"] |};
    {| tool_name := "create_category";
       tool_properties := [("guild_id", "string"); ("name", "string")];
       tool_required := ["name"] |};
    {| tool_name := "create_voice_channel";
       tool_properties := [("guild_id", "string"); ("name", "string");
                           ("category_id", "string"); ("user_limit", "number")];
       tool_required := ["name"] |};
    {| tool_name := "mass_channels";
       tool_properties := [("guild_id", "string"); ("channels", "array")];
       tool_required := ["channels"] |};
    {| tool_name := "mass_categories";
       tool_properties := [("guild_id", "string"); ("names", "array")];
       tool_required := ["names"] |};
    {| tool_name := "mass_voice_channels";
       tool_properties := [("guild_id", "string"); ("channels", "array")];
       tool_required := ["channels"] |};
    {| tool_name := "delete";
       tool_properties := [("guild_id", "string"); ("channel_id", "string")];
       tool_required := ["channel_id"] |};
    {| tool_name := "mass_delete";
       tool_properties := [("guild_id", "string"); ("channel_ids", "array")];
       tool_required := ["channel_ids"] |};
    {| tool_name := "get_messages";
       tool_properties := [("guild_id", "string"); ("channel_id", "string");
                           ("limit", "number"); ("before_message_id", "string")];
       tool_required := ["channel_id"] |};
    {| tool_name := "send_message";
       tool_properties := [("guild_id", "string"); ("channel_id", "string");
                           ("content", "string")];
       tool_required := ["channel_id"; "content"] |};
    {| tool_name := "reply_message";
       tool_properties := [("guild_id", "string"); ("channel_id", "string");
                           ("message_id", "string"); ("content", "string");
                           ("ping", "boolean")];
       tool_required := ["channel_id"; "message_id"; "content"] |};
    {| tool_name := "edit_message";
       tool_properties := [("guild_id", "string"); ("channel_id", "string");
                           ("message_id", "string"); ("content", "string")];
       tool_required := ["channel_id"; "message_id"; "content"] |};
    {| tool_name := "mass_send_message";
       tool_properties := [("guild_id", "string"); ("messages", "array")];
       tool_required := ["messages"] |};
    {| tool_name := "delete_message";
       tool_properties := [("guild_id", "string"); ("channel_id", "string");
                           ("message_id", "string")];
       tool_required := ["channel_id"; "message_id"] |};
    {| tool_name := "mass_delete_message";
       tool_properties := [("guild_id", "string"); ("channel_id", "string");
                           ("message_ids", "array")];
       tool_required := ["channel_id"; "message_ids"] |};
    {| tool_name := "add_reaction";
       tool_properties := [("guild_id", "string"); ("channel_id", "string");
                           ("message_id", "string"); ("emoji", "string")];
       tool_required := ["channel_id"; "message_id"; "emoji"] |};
    {| tool_name := "create_role";
       tool_properties := [("guild_id", "string"); ("name", "string");
                           ("color", "string"); ("hoist", "boolean");
                           ("mentionable", "boolean")];
       tool_required := ["name"] |};
    {| tool_name := "delete_role";
       tool_properties := [("guild_id", "string"); ("role_id", "string")];
       tool_required := ["role_id"] |};
    {| tool_name := "mass_create_role";
       tool_properties := [("guild_id", "string"); ("roles", "array")];
       tool_required := ["roles"] |};
    {| tool_name := "mass_delete_role";
       tool_properties := [("guild_id", "string"); ("role_ids", "array")];
       tool_required := ["role_ids"] |};
    {| tool_name := "assign_role";
       tool_properties := [("guild_id", "string"); ("user_id", "string");
                           ("role_id", "string")];
       tool_required := ["user_id"; "role_id"] |};
    {| tool_name := "remove_role";
       tool_properties := [("guild_id", "string"); ("user_id", "string");
                           ("role_id", "string")];
       tool_required := ["user_id"; "role_id"] |};
    {| tool_name := "server_analysis";
       tool_properties := [("guild_id", "string")];
       tool_required := [] |};
    {| tool_name := "channel_analysis";
       tool_properties := [("guild_id", "string"); ("channel_id", "string");
                           ("limit", "number")];
       tool_required := ["channel_id"] |};
    {| tool_name := "user_analysis";
       tool_properties := [("guild_id", "string"); ("user_id", "string");
                           ("limit", "number")];
       tool_required := ["user_id"] |};
    {| tool_name := "create_thread";
       tool_properties := [("guild_id", "string"); ("channel_id", "string");
                           ("name", "string"); ("message_id", "string");
                           ("auto_archive_duration", "number"); ("reason", "string")];
       tool_required := ["channel_id"; "name"] |};
    {| tool_name := "send_thread_message";
       tool_properties := [("guild_id", "string"); ("thread_id", "string");
                           ("content", "string")];
       tool_required := ["thread_id"; "content"] |};
    {| tool_name := "thread_analysis";
       tool_properties := [("guild_id", "string"); ("thread_id", "string");
                           ("limit", "number")];
       tool_required := ["thread_id"] |};
    {| tool_name := "list_threads";
       tool_properties := [("guild_id", "string"); ("channel_id", "string");
                           ("include_archived", "boolean")];
       tool_required := [] |};
    {| tool_name := "archive_thread";
       tool_properties := [("guild_id", "string"); ("thread_id", "string");
                           ("archived", "boolean"); ("locked", "boolean")];
       tool_required := ["thread_id"] |};
    {| tool_name := "kick_user";
       tool_properties := [("guild_id", "string"); ("user_id", "string");
                           ("reason", "string")];
       tool_required := ["user_id"] |};
    {| tool_name := "ban_user";
       tool_properties := [("guild_id", "string"); ("user_id", "string");
                           ("reason", "string"); ("delete_message_days", "number")];
       tool_required := ["user_id"] |};
    {| tool_name := "unban_user";
       tool_properties := [("guild_id", "string"); ("user_id", "string");
                           ("reason", "string")];
       tool_required := ["user_id"] |};
    {| tool_name := "time_out_user";
       tool_properties := [("guild_id", "string"); ("user_id", "string");
                           ("duration_minutes", "number"); ("reason", "string")];
       tool_required := ["user_id"; "duration_minutes"] |};
    {| tool_name := "mass_ban";
       tool_properties := [("guild_id", "string"); ("user_ids", "array");
                           ("reason", "string"); ("delete_message_days", "number")];
       tool_required := ["user_ids"] |};
    {| tool_name := "mass_time_out";
       tool_properties := [("guild_id", "string"); ("user_ids", "array");
                           ("duration_minutes", "number"); ("reason", "string")];
       tool_required := ["user_ids"; "duration_minutes"] |} ].

(** Is [name] the name of a listed tool? *)
Definition advertised (name : string) : bool :=
  existsb (fun t => (name =? tool_name t)%string) tools.

(** Does the schema of the tool [name] declare a property [k]? *)
Definition declares (name k : string) : bool :=
  match find (fun t => (name =? tool_name t)%string) tools with
  | Some t => existsb (String.eqb k) (map fst (tool_properties t))
  | None => false
  end.

(** Two bags of arguments with the same value for every property that the
    schema of [name] declares. *)
Definition agree_on_declared (name : string) (args args' : jsval) : Prop :=
  forall k, declares name k = true -> field k args = field k args'.

(* ================================================================= *)
(** ** Threads *)

Section Threads.
Context {RT : Runtime} {PF : Platform}.

(** [channel.isThread()] of the client library. *)
Variable isThread : Channel -> bool.

(** [c && c.isThread()] as a guard on a channel that may be missing. *)
Definition thread_only (c : option Channel) : option Channel :=
  match c with
  | Some ch => if isThread ch then Some ch else None
  | None => None
  end.

Definition fetchThread (guild : Guild) (threadId : jsval) : M Channel :=
  s <- get_state ;;
  match thread_only (cache_get channel_id (channels_cache (discord s) guild) threadId) with
  | Some cached => ret cached
  | None =>
      r <- try_catch (perform (Client_channels_fetch threadId)) ;;
      match thread_only (match r with inr fetched => fetched | inl _ => None end) with
      | Some fetched => ret fetched
      | None =>
          activeThreads <- perform (Guild_channels_fetchActiveThreads guild) ;;
          match cache_get channel_id activeThreads threadId with
          | Some active => ret active
          | None =>
              throw (Error ("Thread " ++ ToString threadId
                            ++ " not found or bot cannot access it"))
          end
      end
  end.

Definition send_thread_message (guild : Guild) (args : jsval) : M jsval :=
  id <- arg args "thread_id" ;;
  thread <- fetchThread guild id ;;
  body <- arg args "content" ;;
  msg <- perform (Channel_send thread body) ;;
  ret (JObj [ ("message_id", JStr (message_id msg)); ("thread_id", id);
              ("content", body) ]).

End Threads.

Module TestThreads.
Import TestRuntime TestPlatform.

(** A dispatcher for the tests whose case [send_thread_message] is the body
    above, every channel being taken for a thread. *)
Definition elsewhere_with_threads (name : string) (guild : Guild) (args : jsval)
  : M jsval :=
  if (name =? "send_thread_message")%string
  then send_thread_message (fun _ => true) guild args
  else elsewhere name guild args.

End TestThreads.

(* ================================================================= *)
(** ** Further vocabulary *)

Section Vocabulary2.
Context {RT : Runtime} {PF : Platform}.

(** A state with another content of the config file. *)
Definition with_config_file (file : option string) (s : state) : state :=
  {| config_file := file; discord := discord s; calls := calls s |}.

(** A computation that neither reads nor writes the config file: with
    another file it returns the same, does the same to the client, and
    leaves that file. *)
Definition config_blind {A} (m : M A) : Prop :=
  forall file s,
    m (with_config_file file s)
    = (fst (m s), with_config_file file (snd (m s))).

(** The last check of [resolveTextChannel]: a channel that was found is
    returned if it is text based, and refused if it is not. *)
Definition text_only (id : jsval) (ch : Channel) : exn + Channel :=
  if channel_isTextBased ch then inr ch
  else inl (Error ("Channel " ++ ToString id ++ " is not text-based")).

(** The client calls that a computation adds to the log. *)
Definition makes_calls {A} (m : M A) (s : state) (cs : list logged) : Prop :=
  calls (snd (m s)) = (calls s ++ cs)%list.

(** The default guild that the store holds, when it holds one. *)
Definition stored_default (s : state) : jsval :=
  field "default_guild_id" (stored_config s).

End Vocabulary2.

(* ================================================================= *)
(** ** Vocabulary of the further properties *)

Section Vocabulary3.
Context {RT : Runtime} {PF : Platform}.

(** The case labels of the second [switch] of [handleTool] that are embedded;
    they depend neither on the guild nor on the arguments. *)
Definition guild_cases : list string :=
  map fst (guild_tools {| guild_id := EmptyString; guild_name := EmptyString;
                          guild_memberCount := 0 |} JUndefined).

(** Does [handleTool] have a case for [name]? *)
Definition has_case (name : string) : bool :=
  guild_free name
  || existsb (String.eqb name) guild_cases
  || existsb (String.eqb name) elsewhere_tools.

(** Bodies for the cases that are not embedded which read, of their
    arguments, only properties that the schema of their tool declares (the
    guild has been resolved from [guild_id] before they run). *)
Definition reads_declared (elsewhere : string -> Guild -> jsval -> M jsval) : Prop :=
  forall n g a a' s,
    nullish a = false -> nullish a' = false ->
    (forall k, declares n k = true -> k <> "guild_id" -> field k a = field k a') ->
    elsewhere n g a s = elsewhere n g a' s.

End Vocabulary3.

(** The reason that a moderation call hands to the platform. *)
Definition reason_sent (l : logged) : option jsval :=
  match l with
  | Logged c =>
      match c with
      | Member_kick _ reason => Some reason
      | Guild_members_ban _ _ options => Some (field "reason" options)
      | Guild_members_unban _ _ reason => Some reason
      | Member_timeout _ _ reason => Some reason
      | _ => None
      end
  end.

(** The answer of a batch of one item, against the settlement of the single
    tool on that item: the one outcome carries the key of the item, and
    either the failure with its message, or the success status and the same
    values as the answer of the single tool for the listed properties. *)
Definition lone_outcome (key : string) (echo : jsval) (status : string)
    (same : list (string * string)) (single batch : exn + jsval) : Prop :=
  match single with
  | inl e => batch = inr (JArr [failed key echo e])
  | inr r =>
      exists out,
        batch = inr (JArr [out])
        /\ field key out = echo
        /\ field "status" out = JStr status
        /\ Forall (fun p => field (fst p) out = field (snd p) r) same
  end.

Section Vocabulary4.
Context {RT : Runtime} {PF : Platform}.

(** A computation all of whose calls of the client satisfy [P]. *)
Definition only_calls (P : logged -> Prop) {A} (m : M A) : Prop :=
  forall s, exists cs, calls (snd (m s)) = (calls s ++ cs)%list /\ Forall P cs.

(** A computation all of whose calls of the client satisfy [P], and whose
    value, if it returns one, satisfies [Q]. *)
Definition only_yields (P : logged -> Prop) {A} (Q : A -> Prop) (m : M A) : Prop :=
  forall s,
    exists cs,
      calls (snd (m s)) = (calls s ++ cs)%list
      /\ Forall P cs
      /\ forall a, fst (m s) = inr a -> Q a.

End Vocabulary4.

(** A call that sends to a channel or reads its messages addresses a channel
    that is text based. *)
Definition text_addressed (l : logged) : Prop :=
  match l with
  | Logged c =>
      match c with
      | Channel_send ch _ => channel_isTextBased ch = true
      | Channel_messages_fetch ch _ => channel_isTextBased ch = true
      | Channel_messages_fetch_id ch _ => channel_isTextBased ch = true
      | _ => True
      end
  end.

(** A call that neither deletes anything nor sanctions a member. *)
Definition harmless (l : logged) : Prop :=
  match l with
  | Logged c =>
      match c with
      | Channel_delete _ => False
      | Message_delete _ => False
      | Role_delete _ => False
      | Guild_members_ban _ _ _ => False
      | Member_kick _ _ => False
      | Member_timeout _ _ _ => False
      | _ => True
      end
  end.

(** The tools whose name announces a deletion or a sanction. *)
Definition removing_tools : list string :=
  [ "delete"; "mass_delete"; "delete_message"; "mass_delete_message";
    "delete_role"; "mass_delete_role"; "kick_user"; "ban_user"; "mass_ban";
    "time_out_user"; "mass_time_out" ].

(** The tools that read or write the messages of a channel. *)
Definition message_tools : list string :=
  [ "get_messages"; "send_message"; "reply_message"; "edit_message";
    "mass_send_message"; "delete_message"; "mass_delete_message"; "add_reaction" ].

(* ================================================================= *)
(** ** Properties *)

Unset Implicit Arguments.

Section Properties.
Context {RT : Runtime} {PF : Platform}.
Variable elsewhere : string -> Guild -> jsval -> M jsval.

(** *** Running the monad *)

Lemma bind_inr {A B} (m : M A) (k : A -> M B) s a s' :
  m s = (inr a, s') -> bind m k s = k a s'.
Proof. intros H. unfold bind. rewrite H. reflexivity. Qed.

Lemma bind_inl {A B} (m : M A) (k : A -> M B) s e s' :
  m s = (inl e, s') -> bind m k s = (inl e, s').
Proof. intros H. unfold bind. rewrite H. reflexivity. Qed.

(** *** The turns of a batch *)

Lemma issue_calls {A} (t : task A) (s : state) :
  calls (issue t s) = (calls s ++ pending t)%list.
Proof. destruct t; simpl; rewrite ?app_nil_r; reflexivity. Qed.

Lemma issue_config {A} (t : task A) (s : state) :
  config_file (issue t s) = config_file s.
Proof. destruct t; reflexivity. Qed.


Lemma share_app (i : nat) (t1 t2 : list (nat * logged)) :
  share i (t1 ++ t2) = (share i t1 ++ share i t2)%list.
Proof. unfold share. rewrite filter_app, map_app. reflexivity. Qed.

Lemma share_own (i : nat) (cs : list logged) : share i (map (pair i) cs) = cs.
Proof.
  unfold share. induction cs as [|c cs IH]; simpl; [reflexivity|].
  rewrite Nat.eqb_refl. simpl. rewrite IH. reflexivity.
Qed.

Lemma share_other (i j : nat) (cs : list logged) :
  i <> j -> share i (map (pair j) cs) = [].
Proof.
  intros Hne. unfold share. induction cs as [|c cs IH]; simpl; [reflexivity|].
  destruct (Nat.eqb_spec j i) as [->|_]; [contradiction|exact IH].
Qed.

Lemma map_snd_pair (i : nat) (cs : list logged) : map snd (map (pair i) cs) = cs.
Proof. rewrite map_map. simpl. apply map_id. Qed.

(** A task that takes all its turns in a row makes the calls of one of its
    runs, and settles as that run does. *)
Lemma finish_run {A} (t : task A) :
  forall s,
    exists cs,
      calls (snd (finish t s)) = (calls s ++ cs)%list
      /\ config_file (snd (finish t s)) = config_file s
      /\ run_of t (pending t ++ cs) (fst (finish t s)).
Proof.
  induction t as [r|B c k IH|k IH]; intros s; simpl.
  - exists []. rewrite app_nil_r. repeat split.
  - destruct (exec c (discord s)) as [r d] eqn:E.
    destruct (IH r d (issue (k r d)
                {| config_file := config_file s; discord := d; calls := calls s |}))
      as [cs [Hc [Hf Hr]]].
    exists (pending (k r d) ++ cs)%list.
    rewrite Hc, Hf, issue_calls, issue_config. simpl. rewrite app_assoc.
    repeat split.
    exists (discord s), d, (pending (k r d) ++ cs)%list.
    rewrite E. simpl. split; [reflexivity|exact Hr].
  - destruct (IH (discord s) (issue (k (discord s)) s)) as [cs [Hc [Hf Hr]]].
    exists (pending (k (discord s)) ++ cs)%list.
    rewrite Hc, Hf, issue_calls, issue_config. rewrite app_assoc.
    repeat split. exists (discord s). exact Hr.
Qed.

(** One turn of a task that is part of the way through a run. *)
Lemma turn_run {A} (t0 t : task A) (done : list logged) (s : state) :
  (forall cs r, run_of t cs r -> run_of t0 (done ++ cs) r) ->
  exists done' newly,
    calls (snd (turn t s)) = (calls s ++ newly)%list
    /\ config_file (snd (turn t s)) = config_file s
    /\ ((done ++ pending t) ++ newly = done' ++ pending (fst (turn t s)))%list
    /\ forall cs r, run_of (fst (turn t s)) cs r -> run_of t0 (done' ++ cs) r.
Proof.
  intros Hinv. destruct t as [r|B c k|k]; simpl.
  - exists done, []. rewrite !app_nil_r. repeat split. exact Hinv.
  - destruct (exec c (discord s)) as [r d] eqn:E. simpl.
    exists (done ++ [Logged c])%list, []. rewrite !app_nil_r. repeat split.
    intros cs res [resumed Hrun]. rewrite <- app_assoc. apply Hinv.
    exists (discord s), resumed, cs. rewrite E. split; [reflexivity|exact Hrun].
  - exists done, (pending (k (discord s))).
    rewrite issue_calls, issue_config, app_nil_r. repeat split.
    intros cs res Hrun. apply Hinv. exists (discord s). exact Hrun.
Qed.

Lemma replace_nth_length {A} (i : nat) (x : A) (l : list A) :
  List.length (replace_nth i x l) = List.length l.
Proof.
  revert i. induction l as [|y l IH]; intros [|i]; simpl; try reflexivity.
  rewrite IH. reflexivity.
Qed.

Lemma replace_nth_same {A} (i : nat) (x : A) (l : list A) :
  (i < List.length l)%nat -> nth_error (replace_nth i x l) i = Some x.
Proof.
  revert i. induction l as [|y l IH]; intros [|i] H; simpl in *; try lia.
  - reflexivity.
  - apply IH. lia.
Qed.

Lemma replace_nth_other {A} (i j : nat) (x : A) (l : list A) :
  i <> j -> nth_error (replace_nth i x l) j = nth_error l j.
Proof.
  revert i j. induction l as [|y l IH]; intros [|i] [|j] H; simpl; try reflexivity.
  - contradiction.
  - apply IH. lia.
Qed.

(** The turns that a schedule gives keep every task on one of its runs. *)
Lemma take_turns_run {A} (t0s : list (task A)) (base : list logged)
    (turns : list nat) :
  forall ts trace s,
    underway t0s ts trace ->
    calls s = (base ++ map snd trace)%list ->
    exists trace',
      underway t0s (fst (take_turns turns ts s)) trace'
      /\ calls (snd (take_turns turns ts s)) = (base ++ map snd trace')%list
      /\ config_file (snd (take_turns turns ts s)) = config_file s.
Proof.
  induction turns as [|i turns IH]; intros ts trace s Hu Hc; simpl.
  - exists trace. split; [exact Hu|]. split; [exact Hc|reflexivity].
  - destruct (nth_error ts i) as [t|] eqn:Ht; [|apply (IH ts trace s Hu Hc)].
    destruct Hu as [Hlen [Hlt Hitems]].
    assert (Hi : (i < List.length ts)%nat).
    { apply nth_error_Some. rewrite Ht. discriminate. }
    destruct (nth_error t0s i) as [t0|] eqn:Ht0.
    2: { apply nth_error_None in Ht0. lia. }
    destruct (Hitems i t0 Ht0) as [t1 [done [Ht1 [Hshare Hinv]]]].
    rewrite Ht in Ht1. inversion Ht1; subst t1. clear Ht1.
    destruct (turn_run t0 t done s Hinv) as [done' [newly [Hc' [Hf' [Hd' Hinv']]]]].
    destruct (turn t s) as [t' s'] eqn:Hturn. simpl in *.
    destruct (IH (replace_nth i t' ts) (trace ++ map (pair i) newly)%list s')
      as [trace' [Hu' [Hcalls' Hcfg']]].
    + split; [rewrite replace_nth_length; exact Hlen|]. split.
      * apply Forall_app. split; [exact Hlt|].
        apply Forall_forall. intros p Hp. apply in_map_iff in Hp as [c [<- _]].
        simpl. lia.
      * intros j t0j Hj. destruct (Nat.eq_dec j i) as [->|Hne].
        -- rewrite Ht0 in Hj. inversion Hj; subst t0j.
           exists t', done'. rewrite replace_nth_same by exact Hi.
           rewrite share_app, share_own, app_assoc, Hshare.
           repeat split; assumption.
        -- destruct (Hitems j t0j Hj) as [tj [dj [Htj [Hsj Hij]]]].
           exists tj, dj. rewrite replace_nth_other by congruence.
           rewrite share_app, share_other, app_nil_r by exact Hne.
           repeat split; assumption.
    + rewrite Hc', Hc, map_app, map_snd_pair, app_assoc. reflexivity.
    + exists trace'. split; [exact Hu'|]. split; [exact Hcalls'|].
      rewrite Hcfg'. exact Hf'.
Qed.

Lemma share_shift (i : nat) (trace : list (nat * logged)) :
  share (S i) (map (fun p => (S (fst p), snd p)) trace) = share i trace
  /\ share O (map (fun p => (S (fst p), snd p)) trace) = [].
Proof.
  unfold share. induction trace as [|[j c] trace [IH1 IH2]]; simpl; [split; reflexivity|].
  split; [|exact IH2].
  destruct (Nat.eqb j i); simpl; rewrite IH1; reflexivity.
Qed.

(** The tasks that are pending after the last turn of the schedule go on to
    their settlement one after the other. *)
Lemma finish_all_run {A} (ts : list (task A)) :
  forall s,
    exists trace,
      List.length (fst (finish_all ts s)) = List.length ts
      /\ calls (snd (finish_all ts s)) = (calls s ++ map snd trace)%list
      /\ config_file (snd (finish_all ts s)) = config_file s
      /\ Forall (fun p => (fst p < List.length ts)%nat) trace
      /\ forall i t,
           nth_error ts i = Some t ->
           exists r,
             nth_error (fst (finish_all ts s)) i = Some r
             /\ run_of t (pending t ++ share i trace) r.
Proof.
  induction ts as [|t ts IH]; intros s; simpl.
  - exists []. rewrite app_nil_r. repeat split; [constructor|].
    intros [|i] t H; discriminate.
  - destruct (finish_run t s) as [cs [Hc [Hf Hr]]].
    destruct (finish t s) as [r s1]. simpl in *.
    destruct (IH s1) as [trace [Hlen [Hcalls [Hcfg [Hlt Hitems]]]]].
    destruct (finish_all ts s1) as [rs s2]. simpl in *.
    exists (map (pair O) cs ++ map (fun p => (S (fst p), snd p)) trace)%list.
    split; [rewrite Hlen; reflexivity|]. split.
    { rewrite Hcalls, Hc, map_app, map_snd_pair, map_map. simpl.
      rewrite app_assoc. reflexivity. }
    split; [congruence|]. split.
    { apply Forall_app. split.
      - apply Forall_forall. intros p Hp. apply in_map_iff in Hp as [c [<- _]].
        simpl. lia.
      - rewrite Forall_forall in Hlt. apply Forall_forall. intros p Hp.
        apply in_map_iff in Hp as [q [<- Hq]]. simpl. specialize (Hlt q Hq). lia. }
    intros [|i] ti Hi; simpl in *.
    + inversion Hi; subst ti. exists r. split; [reflexivity|].
      rewrite share_app, share_own.
      rewrite (proj2 (share_shift O trace)), app_nil_r. exact Hr.
    + destruct (Hitems i ti Hi) as [ri [Hri Hrun]]. exists ri. split; [exact Hri|].
      rewrite share_app, share_other by lia.
      rewrite (proj1 (share_shift i trace)). exact Hrun.
Qed.




(** The whole of [Promise.allSettled]: every task is carried to its
    settlement along one of its runs, and the log grows by the calls of
    these runs, those that the tasks awaited already apart. *)
Lemma allSettled_run {A} (t0s : list (task A)) (s : state) :
  exists rs trace s1,
    Promise_allSettled t0s s = (inr rs, s1)
    /\ List.length rs = List.length t0s
    /\ calls s1 = (calls s ++ map snd trace)%list
    /\ config_file s1 = config_file s
    /\ Forall (fun p => (fst p < List.length t0s)%nat) trace
    /\ forall i t0,
         nth_error t0s i = Some t0 ->
         exists r,
           nth_error rs i = Some r
           /\ run_of t0 (pending t0 ++ share i trace) r.
Proof.
  unfold Promise_allSettled.
  destruct (take_turns_run t0s (calls s) (schedule (discord s)) t0s [] s)
    as [trace1 [[Hlen1 [Hlt1 Hitems1]] [Hcalls1 Hcfg1]]].
  { split; [reflexivity|]. split; [constructor|].
    intros i t0 Hi. exists t0, []. split; [exact Hi|]. split; [apply app_nil_r|].
    intros cs r H. exact H. }
  { simpl. rewrite app_nil_r. reflexivity. }
  destruct (take_turns (schedule (discord s)) t0s s) as [ts s1]. simpl in *.
  destruct (finish_all_run ts s1) as [trace2 [Hlen2 [Hcalls2 [Hcfg2 [Hlt2 Hitems2]]]]].
  destruct (finish_all ts s1) as [rs s2]. simpl in *.
  exists rs, (trace1 ++ trace2)%list, s2.
  split; [reflexivity|]. split; [congruence|]. split.
  { rewrite Hcalls2, Hcalls1, map_app, app_assoc. reflexivity. }
  split; [congruence|]. split.
  { apply Forall_app. split; [exact Hlt1|]. rewrite <- Hlen1. exact Hlt2. }
  intros i t0 Hi.
  destruct (Hitems1 i t0 Hi) as [t [done [Ht [Hshare Hinv]]]].
  destruct (Hitems2 i t Ht) as [r [Hr Hrun]].
  exists r. split; [exact Hr|].
  rewrite share_app, app_assoc, Hshare, <- app_assoc. apply Hinv. exact Hrun.
Qed.


(** A turn is a part of the way to the settlement. *)
Lemma finish_turn {A} (t : task A) (s : state) :
  finish (fst (turn t s)) (snd (turn t s)) = finish t s.
Proof.
  destruct t as [r|B c k|k]; cbn [turn finish]; [reflexivity| |reflexivity].
  destruct (exec c (discord s)) as [r d]. reflexivity.
Qed.

Lemma take_turns_one {A} (turns : list nat) :
  forall (t : task A) s,
    exists t' s',
      take_turns turns [t] s = ([t'], s') /\ finish t' s' = finish t s.
Proof.
  induction turns as [|i turns IH]; intros t s; cbn [take_turns].
  - exists t, s. split; reflexivity.
  - destruct i as [|i]; cbn [nth_error].
    + pose proof (finish_turn t s) as Hturn.
      destruct (turn t s) as [t1 s1]. cbn [fst snd replace_nth] in *.
      destruct (IH t1 s1) as [t' [s' [Hrun Hfin]]].
      exists t', s'. split; [exact Hrun|]. rewrite Hfin. exact Hturn.
    + replace (nth_error (@nil (task A)) i) with (@None (task A))
        by (destruct i; reflexivity).
      apply IH.
Qed.

(** With one promise in the batch the schedule does not matter. *)
Lemma allSettled_one {A} (t : task A) (s : state) :
  Promise_allSettled [t] s = (inr [fst (finish t s)], snd (finish t s)).
Proof.
  unfold Promise_allSettled.
  destruct (take_turns_one (schedule (discord s)) t s) as [t' [s' [Hrun Hfin]]].
  rewrite Hrun. cbn [finish_all]. rewrite Hfin.
  destruct (finish t s) as [r s1]. reflexivity.
Qed.

(** *** Closures that are awaited where they are called *)

Lemma finish_then {A B} (t : task A) (f : A -> client -> task B) :
  forall s,
    finish (then_task t f (discord s)) (issue (then_task t f (discord s)) s)
    = match finish t (issue t s) with
      | (inr a, s') => finish (f a (discord s')) (issue (f a (discord s')) s')
      | (inl e, s') => (inl e, s')
      end.
Proof.
  induction t as [[e|a]|C c k IH|k IH]; intros s; cbn [then_task issue finish].
  - reflexivity.
  - reflexivity.
  - cbn [discord config_file calls]. destruct (exec c (discord s)) as [r d].
    apply (IH r d {| config_file := config_file s; discord := d;
                     calls := calls s ++ [Logged c] |}).
  - apply (IH (discord s) s).
Qed.

Lemma awaited_bind {A B} (m : T A) (f : A -> T B) (s : state) :
  awaited (t_bind m f) s = bind (awaited m) (fun a => awaited (f a)) s.
Proof.
  unfold awaited, t_bind, bind. rewrite finish_then.
  destruct (finish (m (discord s)) (issue (m (discord s)) s)) as [[e|a] s'];
    reflexivity.
Qed.

Lemma awaited_call {A} (c : call A) (s : state) :
  awaited (await_call c) s = perform c s.
Proof.
  unfold awaited, await_call, perform. cbn [issue finish discord config_file calls].
  destruct (exec c (discord s)) as [r d]. reflexivity.
Qed.

Lemma awaited_ret {A} (a : A) (s : state) : awaited (t_ret a) s = ret a s.
Proof. reflexivity. Qed.

Lemma awaited_throw {A} (e : exn) (s : state) :
  awaited (t_throw e : T A) s = throw e s.
Proof. reflexivity. Qed.

Lemma awaited_lift {A} (r : exn + A) (s : state) : awaited (t_lift r) s = lift r s.
Proof. reflexivity. Qed.

Lemma awaited_client {B} (f : client -> T B) (s : state) :
  awaited (t_bind t_client f) s = bind get_state (fun s0 => awaited (f (discord s0))) s.
Proof. rewrite awaited_bind. reflexivity. Qed.

Lemma finish_later {A} (t : task A) :
  forall s, finish (later t) (issue (later t) s) = finish t (issue t s).
Proof.
  induction t as [r|C c k IH|k IH]; intros s; cbn [later issue finish].
  - reflexivity.
  - cbn [discord config_file calls]. destruct (exec c (discord s)) as [r d].
    apply (IH r d).
  - apply (IH (discord s)).
Qed.

Lemma awaited_await {A} (m : T A) (s : state) : awaited (await m) s = awaited m s.
Proof. unfold awaited, await. rewrite finish_later. reflexivity. Qed.

Lemma finish_caught {A} (t : task A) :
  forall s,
    finish (caught t) (issue (caught t) s)
    = (inr (fst (finish t (issue t s))), snd (finish t (issue t s))).
Proof.
  induction t as [r|C c k IH|k IH]; intros s; cbn [caught issue finish].
  - reflexivity.
  - cbn [discord config_file calls]. destruct (exec c (discord s)) as [r d].
    apply (IH r d).
  - apply (IH (discord s)).
Qed.

Lemma awaited_try {A} (m : T A) (s : state) :
  awaited (t_try m) s = try_catch (awaited m) s.
Proof.
  unfold awaited, t_try, try_catch. rewrite finish_caught.
  destruct (finish (m (discord s)) (issue (m (discord s)) s)). reflexivity.
Qed.

Lemma bind_cong {A B} (m1 m2 : M A) (k1 k2 : A -> M B) (s : state) :
  m1 s = m2 s -> (forall a s', k1 a s' = k2 a s') -> bind m1 k1 s = bind m2 k2 s.
Proof.
  intros Hm Hk. unfold bind. rewrite Hm.
  destruct (m2 s) as [[e|a] s']; [reflexivity|apply Hk].
Qed.

(** The resolvers of the closures are the resolvers: awaited where they are
    called, they do what [resolveMember] and [resolveTextChannel] do. *)
Lemma async_resolveMember_awaited (guild : Guild) (x : jsval) (s : state) :
  awaited (async_resolveMember guild x) s = resolveMember guild x s.
Proof.
  unfold async_resolveMember, resolveMember.
  destruct (snowflake_test (ToString x)); [apply awaited_call|].
  rewrite awaited_bind. apply bind_cong; [apply awaited_call|]. intros _ s1.
  rewrite awaited_bind. apply bind_cong; [reflexivity|]. intros lower s2.
  rewrite awaited_client. apply bind_cong; [reflexivity|]. intros s3 s4.
  destruct (find (member_matches lower) (members_cache (discord s3) guild));
    reflexivity.
Qed.

Lemma async_resolveTextChannel_awaited (guild : Guild) (x : jsval) (s : state) :
  awaited (async_resolveTextChannel guild x) s = resolveTextChannel guild x s.
Proof.
  unfold async_resolveTextChannel, resolveTextChannel.
  rewrite awaited_client. apply bind_cong; [reflexivity|]. intros s0 s1.
  rewrite awaited_bind. apply bind_cong.
  { destruct (cache_get channel_id (channels_cache (discord s0) guild) x);
      [reflexivity|].
    rewrite awaited_bind. apply bind_cong.
    - rewrite awaited_try. unfold try_catch. rewrite awaited_call. reflexivity.
    - intros [e|ch] s2; reflexivity. }
  intros c1 s2. rewrite awaited_bind. apply bind_cong.
  { destruct c1 as [ch|]; [reflexivity|].
    rewrite awaited_bind. apply bind_cong; [apply awaited_call|].
    intros threads s3. reflexivity. }
  intros c2 s3. destruct c2 as [ch|]; [|reflexivity].
  destruct (channel_isTextBased ch); reflexivity.
Qed.

(** *** The calls of a task *)

Lemma calls_run (P : logged -> Prop) {A} (Q : A -> Prop) (t : task A) :
  calls_within P Q t -> forall cs r, run_of t cs r -> Forall P cs.
Proof.
  induction t as [r0|B c k IH|k IH]; cbn [calls_within run_of]; intros H cs r Hrun.
  - destruct Hrun as [-> _]. constructor.
  - destruct H as [Hc Hk]. destruct Hrun as [answered [resumed [cs' [-> Hrun]]]].
    constructor; [exact Hc|]. apply (IH _ _ (Hk _ _) _ _ Hrun).
  - destruct Hrun as [resumed Hrun]. apply (IH _ (H _) _ _ Hrun).
Qed.

Lemma calls_pending (P : logged -> Prop) {A} (Q : A -> Prop) (t : task A) :
  calls_within P Q t -> Forall P (pending t).
Proof.
  destruct t as [r|B c k|k]; cbn [calls_within pending]; intros H;
    [constructor| |constructor].
  constructor; [exact (proj1 H)|constructor].
Qed.

Lemma in_share (p : nat * logged) (trace : list (nat * logged)) :
  In p trace -> In (snd p) (share (fst p) trace).
Proof.
  intros H. unfold share. apply in_map. apply filter_In.
  split; [exact H|apply Nat.eqb_refl].
Qed.

Lemma calls_then (P : logged -> Prop) {A B} (Q : A -> Prop) (R : B -> Prop)
    (t : task A) (f : A -> client -> task B) :
  calls_within P Q t ->
  (forall a d, Q a -> calls_within P R (f a d)) ->
  forall d, calls_within P R (then_task t f d).
Proof.
  intros Ht Hf. induction t as [[e|a]|C c k IH|k IH]; intros d;
    cbn [then_task calls_within] in *.
  - exact I.
  - apply Hf. exact Ht.
  - destruct Ht as [Hc Hk]. split; [exact Hc|]. intros r d'. apply IH, Hk.
  - intros d'. apply IH, Ht.
Qed.

Lemma calls_bind (P : logged -> Prop) {A B} (R : B -> Prop)
    (m : T A) (f : A -> T B) (d : client) :
  calls_within P (fun _ => True) (m d) ->
  (forall a d', calls_within P R (f a d')) ->
  calls_within P R (t_bind m f d).
Proof.
  intros Hm Hf. unfold t_bind.
  apply (calls_then P (fun _ => True) R); [exact Hm|]. intros a d' _. apply Hf.
Qed.

Lemma calls_bind_post (P : logged -> Prop) {A B} (Q : A -> Prop) (R : B -> Prop)
    (m : T A) (f : A -> T B) (d : client) :
  calls_within P Q (m d) ->
  (forall a d', Q a -> calls_within P R (f a d')) ->
  calls_within P R (t_bind m f d).
Proof. intros Hm Hf. unfold t_bind. apply (calls_then P Q R); assumption. Qed.

Lemma calls_await_call (P : logged -> Prop) {A} (c : call A) (d : client) :
  P (Logged c) -> calls_within P (fun _ => True) (await_call c d).
Proof.
  intros Hc. cbn [await_call calls_within]. split; [exact Hc|].
  intros [e|a] d'; exact I.
Qed.

Lemma calls_lift (P : logged -> Prop) {A} (r : exn + A) (d : client) :
  calls_within P (fun _ => True) (t_lift r d).
Proof. destruct r; exact I. Qed.

Lemma calls_client (P : logged -> Prop) (d : client) :
  calls_within P (fun _ => True) (t_client d).
Proof. exact I. Qed.

Lemma calls_later (P : logged -> Prop) {A} (Q : A -> Prop) (t : task A) :
  calls_within P Q t -> calls_within P Q (later t).
Proof.
  induction t as [[e|a]|C c k IH|k IH]; cbn [later calls_within]; intros H.
  - intros _. exact I.
  - intros _. exact H.
  - split; [exact (proj1 H)|]. intros r d. apply IH, H.
  - intros d. apply IH, H.
Qed.

Lemma calls_await (P : logged -> Prop) {A} (Q : A -> Prop) (m : T A) (d : client) :
  calls_within P Q (m d) -> calls_within P Q (await m d).
Proof. apply calls_later. Qed.

Lemma calls_caught (P : logged -> Prop) {A} (Q : A -> Prop) (t : task A) :
  calls_within P Q t -> calls_within P (fun _ => True) (caught t).
Proof.
  induction t as [r|C c k IH|k IH]; cbn [caught calls_within]; intros H.
  - exact I.
  - split; [exact (proj1 H)|]. intros r d. apply IH, H.
  - intros d. apply IH, H.
Qed.

Lemma calls_try (P : logged -> Prop) {A} (m : T A) (d : client) :
  calls_within P (fun _ => True) (m d) ->
  calls_within P (fun _ => True) (t_try m d).
Proof. apply calls_caught. Qed.

(** *** The config store *)

Lemma loadConfig_run (s : state) :
  loadConfig s
  = (inr match config_file s with
         | Some text =>
             match JSON_parse text with Some v => v | None => JObj [] end
         | None => JObj []
         end, s).
Proof.
  unfold loadConfig, bind, existsSync, try_catch, readFileSync, parse.
  destruct (config_file s) as [text|] eqn:E; cbn; [|reflexivity].
  rewrite E.
  destruct (JSON_parse text); reflexivity.
Qed.

Lemma loadConfig_returns (s : state) : loadConfig s = (inr (stored_config s), s).
Proof. unfold stored_config. rewrite loadConfig_run. reflexivity. Qed.

Lemma stored_config_absent (s : state) :
  config_file s = None -> stored_config s = JObj [].
Proof.
  intros H. unfold stored_config. rewrite loadConfig_run, H. reflexivity.
Qed.

Lemma stored_config_present (s : state) (text : string) :
  config_file s = Some text ->
  stored_config s = match JSON_parse text with Some v => v | None => JObj [] end.
Proof.
  intros H. unfold stored_config. rewrite loadConfig_run, H. reflexivity.
Qed.

(** C5.  [loadConfig] returns a config in every state and leaves the state
    alone; the config is empty when the file is missing and when its content
    does not parse.  [saveConfig] makes the text of the given config the
    whole content of the file, whatever the file held, and touches nothing
    else. *)
Theorem config_store_contract (s : state) :
  (exists config, loadConfig s = (inr config, s))
  /\ (config_file s = None -> loadConfig s = (inr (JObj []), s))
  /\ (forall text, config_file s = Some text -> JSON_parse text = None ->
        loadConfig s = (inr (JObj []), s))
  /\ (forall config,
        saveConfig config s
        = (inr tt, {| config_file := Some (JSON_stringify config);
                      discord := discord s;
                      calls := calls s |})).
Proof.
  repeat split.
  - exists (stored_config s). apply loadConfig_returns.
  - intros H. rewrite loadConfig_returns, (stored_config_absent _ H). reflexivity.
  - intros text H Hbad.
    rewrite loadConfig_returns, (stored_config_present _ _ H), Hbad. reflexivity.
Qed.

(** *** The first statements of [handleTool] *)

Lemma resolveGuildId_state (args : jsval) (s : state) :
  snd (resolveGuildId args s) = s.
Proof.
  unfold resolveGuildId, bind, lift.
  destruct (get_prop args "guild_id") as [e|g]; simpl; [reflexivity|].
  destruct (truthy g); [reflexivity|].
  rewrite loadConfig_returns.
  destruct (get_prop (stored_config s) "default_guild_id") as [e|d]; [reflexivity|].
  destruct (truthy d); reflexivity.
Qed.

Lemma getGuild_run (id : jsval) (s : state) :
  getGuild id s
  = (match known_guild s id with
     | Some guild => inr guild
     | None => inl (Error ("Guild " ++ ToString id
                           ++ " not found or bot is not in this server"))
     end, s).
Proof.
  unfold getGuild, known_guild, bind, get_state.
  destruct (cache_get guild_id (guilds_cache (discord s)) id); reflexivity.
Qed.

Lemma resolve_guild_state (args : jsval) (s : state) :
  snd (resolve_guild args s) = s.
Proof.
  unfold resolve_guild, bind.
  pose proof (resolveGuildId_state args s) as H.
  destruct (resolveGuildId args s) as [[e|g] s']; simpl in H; subst s'.
  - reflexivity.
  - rewrite getGuild_run. reflexivity.
Qed.

Lemma switch_skip {A} (x k : string) (h : A) cases d :
  (x =? k)%string = false -> switch x ((k, h) :: cases) d = switch x cases d.
Proof. intros H. unfold switch. simpl. rewrite H. reflexivity. Qed.

Lemma bind_assoc {A B C} (m : M A) (f : A -> M B) (g : B -> M C) (s : state) :
  bind (bind m f) g s = bind m (fun a => bind (f a) g) s.
Proof. unfold bind. destruct (m s) as [[e|a] s']; reflexivity. Qed.

Lemma bind_ext {A B} (m : M A) (k1 k2 : A -> M B) (s : state) :
  (forall a s', k1 a s' = k2 a s') -> bind m k1 s = bind m k2 s.
Proof. intros H. unfold bind. destruct (m s) as [[e|a] s']; [reflexivity|apply H]. Qed.

(** A tool that is not one of the first three runs the second half. *)
Lemma handleTool_guild_scoped (name : string) (args : jsval) (s : state) :
  guild_free name = false ->
  handleTool elsewhere name args s
  = ( requireDiscord ;;;
      guild <- resolve_guild args ;;
      switch name (guild_tools guild args)
        ( if existsb (String.eqb name) elsewhere_tools
          then elsewhere name guild args
          else throw (Error ("Unknown tool: " ++ name)) ) )%js s.
Proof.
  unfold guild_free. intros H.
  apply orb_false_elim in H as [H H3]. apply orb_false_elim in H as [H1 H2].
  unfold handleTool. rewrite !switch_skip by assumption.
  unfold switch at 1. simpl find. cbv beta iota.
  apply bind_ext. intros _ s'.
  unfold resolve_guild. symmetry. apply bind_assoc.
Qed.

Lemma handleTool_set_guild (args : jsval) (s : state) :
  handleTool elsewhere "set_guild" args s = (requireDiscord ;;; set_guild args)%js s.
Proof. reflexivity. Qed.

Lemma handleTool_get_guild (args : jsval) (s : state) :
  handleTool elsewhere "get_guild" args s = (requireDiscord ;;; get_guild)%js s.
Proof. reflexivity. Qed.

Lemma handleTool_list_guilds (args : jsval) (s : state) :
  handleTool elsewhere "list_guilds" args s = (requireDiscord ;;; list_guilds)%js s.
Proof. reflexivity. Qed.

(** *** Computations without effect *)

Lemma pure_ret {A} (a : A) : pure (ret a).
Proof. intros s. reflexivity. Qed.

Lemma pure_throw {A} (e : exn) : pure (throw e : M A).
Proof. intros s. reflexivity. Qed.

Lemma pure_lift {A} (r : exn + A) : pure (lift r).
Proof. intros s. reflexivity. Qed.

Lemma pure_get_state : pure get_state.
Proof. intros s. reflexivity. Qed.

Lemma pure_bind {A B} (m : M A) (k : A -> M B) :
  pure m -> (forall a, pure (k a)) -> pure (bind m k).
Proof.
  intros Hm Hk s. unfold bind. specialize (Hm s).
  destruct (m s) as [[e|a] s']; simpl in Hm; subst s'; [reflexivity|apply Hk].
Qed.

Lemma pure_try_catch {A} (m : M A) : pure m -> pure (try_catch m).
Proof.
  intros Hm s. unfold try_catch. specialize (Hm s).
  destruct (m s) as [r s']. exact Hm.
Qed.

Lemma pure_loadConfig : pure loadConfig.
Proof. intros s. rewrite loadConfig_returns. reflexivity. Qed.

Lemma pure_getGuild (id : jsval) : pure (getGuild id).
Proof. intros s. rewrite getGuild_run. reflexivity. Qed.

Lemma pure_requireDiscord : pure requireDiscord.
Proof. apply pure_lift. Qed.

Ltac pure_steps :=
  repeat first
    [ apply pure_ret | apply pure_throw | apply pure_lift | apply pure_get_state
    | apply pure_loadConfig | apply pure_getGuild | apply pure_requireDiscord
    | apply pure_try_catch
    | apply pure_bind; [|intros ?]
    | match goal with
      | |- pure (if ?b then _ else _) => destruct b
      | |- pure (match ?x with _ => _ end) => destruct x
      end ].

Lemma pure_get_guild : pure get_guild.
Proof. unfold get_guild. pure_steps. Qed.

Lemma pure_list_guilds : pure list_guilds.
Proof. unfold list_guilds. pure_steps. Qed.

Lemma repeatedly_pure {A} (m : M A) (s : state) (n : nat) :
  pure m -> repeatedly n m s = (repeat (fst (m s)) n, s).
Proof.
  intros Hm. induction n as [|n IH]; simpl; [reflexivity|].
  specialize (Hm s). destruct (m s) as [r s']. simpl in *. subst s'.
  rewrite IH. reflexivity.
Qed.

(** C8.  [get_guild] and [list_guilds] change nothing: neither the config
    file, nor the state of the client, nor the log of client calls.  Hence
    any number of calls in a row, from the same state, give the same result,
    and the result does not depend on the arguments. *)
Theorem guild_queries_idempotent (args : jsval) (s : state) (n : nat) :
  ( snd (handleTool elsewhere "get_guild" args s) = s
    /\ repeatedly n (handleTool elsewhere "get_guild" args) s
       = (repeat (fst (handleTool elsewhere "get_guild" args s)) n, s)
    /\ forall args', handleTool elsewhere "get_guild" args' s
                     = handleTool elsewhere "get_guild" args s )
  /\
  ( snd (handleTool elsewhere "list_guilds" args s) = s
    /\ repeatedly n (handleTool elsewhere "list_guilds" args) s
       = (repeat (fst (handleTool elsewhere "list_guilds" args s)) n, s)
    /\ forall args', handleTool elsewhere "list_guilds" args' s
                     = handleTool elsewhere "list_guilds" args s ).
Proof.
  assert (Hg : pure (handleTool elsewhere "get_guild" args)).
  { intros s0. rewrite handleTool_get_guild.
    apply pure_bind; [apply pure_requireDiscord|intros _; apply pure_get_guild]. }
  assert (Hl : pure (handleTool elsewhere "list_guilds" args)).
  { intros s0. rewrite handleTool_list_guilds.
    apply pure_bind; [apply pure_requireDiscord|intros _; apply pure_list_guilds]. }
  split; (split; [|split]).
  - apply Hg.
  - apply repeatedly_pure, Hg.
  - intros args'. rewrite !handleTool_get_guild. reflexivity.
  - apply Hl.
  - apply repeatedly_pure, Hl.
  - intros args'. rewrite !handleTool_list_guilds. reflexivity.
Qed.

Lemma set_guild_fails_clean (args : jsval) (e : exn) (s s' : state) :
  handleTool elsewhere "set_guild" args s = (inl e, s') -> s' = s.
Proof.
  rewrite handleTool_set_guild.
  unfold bind at 1, requireDiscord, lift.
  destruct discordReady as [e0|[]]; [intros H; inversion H; reflexivity|].
  unfold set_guild, arg, lift, bind, saveConfig, writeFileSync.
  destruct (get_prop args "guild_id") as [e1|g1]; [intros H; inversion H; reflexivity|].
  rewrite getGuild_run.
  destruct (known_guild s g1); [|intros H; inversion H; reflexivity].
  rewrite loadConfig_returns.
  destruct (set_prop (stored_config s) "default_guild_id" g1);
    intros H; inversion H; reflexivity.
Qed.

(** C10.  [set_guild] looks the guild up before it touches the config.  When
    the identifier it is given is not one of a guild the client knows, the
    call fails and the state, the config file included, is as before; once
    the client is connected the failure is the one of [getGuild].  More
    generally no failing [set_guild] leaves a trace in the state. *)
Theorem set_guild_unknown_guild (args g : jsval) (s : state) :
  get_prop args "guild_id" = inr g ->
  known_guild s g = None ->
  (exists e,
     handleTool elsewhere "set_guild" args s = (inl e, s)
     /\ (discordReady = inr tt ->
         e = Error ("Guild " ++ ToString g
                    ++ " not found or bot is not in this server")))
  /\ (forall args' e' s',
        handleTool elsewhere "set_guild" args' s = (inl e', s') -> s' = s).
Proof.
  intros Hg Hk. split.
  - rewrite handleTool_set_guild. unfold bind at 1, requireDiscord, lift.
    destruct discordReady as [e0|[]].
    + exists e0. split; [reflexivity|discriminate].
    + eexists. split; [|intros _; reflexivity].
      unfold set_guild, arg, lift, bind. rewrite Hg, getGuild_run, Hk. reflexivity.
  - intros args' e' s'. apply set_guild_fails_clean.
Qed.

(** C4.  A tool other than [set_guild], [get_guild] and [list_guilds], called
    without a [guild_id] while the persisted config has no default guild,
    fails, and the state is the one before the call: in particular the log
    of client calls has not grown, so the failure comes before any call of
    the platform.  Once the client is connected, and for arguments and a
    config that are objects, the failure is the one [resolveGuildId] throws
    on the caller's input. *)
Theorem guild_scoped_tool_needs_guild (name : string) (args : jsval) (s : state) :
  guild_free name = false ->
  names_guild args = false ->
  has_default s = false ->
  exists e,
    handleTool elsewhere name args s = (inl e, s)
    /\ calls (snd (handleTool elsewhere name args s)) = calls s
    /\ (discordReady = inr tt ->
        nullish args = false ->
        nullish (stored_config s) = false ->
        e = Error "No guild_id provided and no default guild set. Use set_guild first.").
Proof.
  intros Hname Hargs Hdefault.
  assert (H : exists e,
             handleTool elsewhere name args s = (inl e, s)
             /\ (discordReady = inr tt -> nullish args = false ->
                 nullish (stored_config s) = false ->
                 e = Error "No guild_id provided and no default guild set. Use set_guild first.")).
  { rewrite (handleTool_guild_scoped _ _ _ Hname).
    unfold bind at 1, requireDiscord, lift.
    destruct discordReady as [e0|[]].
    { exists e0. split; [reflexivity|discriminate]. }
    unfold resolve_guild, resolveGuildId, lift.
    unfold names_guild in Hargs. unfold has_default in Hdefault.
    unfold bind at 1 2 3.
    destruct (get_prop args "guild_id") as [e1|g] eqn:Eg.
    { exists e1. split; [reflexivity|].
      intros _ Hn _. destruct args; simpl in *; discriminate. }
    rewrite Hargs. unfold bind. rewrite loadConfig_returns.
    destruct (get_prop (stored_config s) "default_guild_id") as [e2|d] eqn:Ed.
    { exists e2. split; [reflexivity|].
      intros _ _ Hn. destruct (stored_config s); simpl in *; discriminate. }
    rewrite Hdefault. eexists. split; [reflexivity|]. intros _ _ _. reflexivity. }
  destruct H as [e [Hrun Hmsg]]. exists e. split; [exact Hrun|].
  split; [rewrite Hrun; reflexivity|exact Hmsg].
Qed.

(** *** [set_guild] and the config file *)

Lemma assoc_set_same (k : string) (v : jsval) ps :
  assoc k (assoc_set k v ps) = Some v.
Proof.
  induction ps as [|[k' v'] ps IH]; simpl.
  - rewrite String.eqb_refl. reflexivity.
  - destruct (k =? k')%string eqn:E; simpl.
    + rewrite String.eqb_refl. reflexivity.
    + rewrite E. exact IH.
Qed.

Lemma assoc_set_other (k k0 : string) (v : jsval) ps :
  k0 <> k -> assoc k0 (assoc_set k v ps) = assoc k0 ps.
Proof.
  intros Hne. induction ps as [|[k' v'] ps IH]; simpl.
  - apply String.eqb_neq in Hne. rewrite Hne. reflexivity.
  - destruct (k =? k')%string eqn:E; simpl.
    + apply String.eqb_eq in E. subst k'.
      apply String.eqb_neq in Hne. rewrite Hne. reflexivity.
    + destruct (k0 =? k')%string; [reflexivity|exact IH].
Qed.

Lemma set_guild_run (args g : jsval) (guild : Guild) ps (s : state) :
  discordReady = inr tt ->
  get_prop args "guild_id" = inr g ->
  known_guild s g = Some guild ->
  stored_config s = JObj ps ->
  handleTool elsewhere "set_guild" args s
  = (inr (JObj [ ("success", JBool true); ("default_guild_id", g);
                 ("guild_name", JStr (guild_name guild)) ]),
     {| config_file :=
          Some (JSON_stringify (JObj (assoc_set "default_guild_id" g ps)));
        discord := discord s;
        calls := calls s |}).
Proof.
  intros Hready Hg Hk Hc.
  rewrite handleTool_set_guild. unfold bind at 1, requireDiscord, lift.
  rewrite Hready.
  unfold set_guild, arg, lift, bind, saveConfig, writeFileSync.
  rewrite Hg, getGuild_run, Hk, loadConfig_returns, Hc. reflexivity.
Qed.

(** C6, as amended.  When the persisted config is an object, the save that a
    successful [set_guild] triggers writes that same object with
    [default_guild_id] set to the new identifier: every other field of the
    config is written back with the value it had. *)
Theorem set_guild_keeps_other_fields
    (args g : jsval) (guild : Guild) ps (s : state) :
  discordReady = inr tt ->
  get_prop args "guild_id" = inr g ->
  known_guild s g = Some guild ->
  stored_config s = JObj ps ->
  exists ps',
    config_file (snd (handleTool elsewhere "set_guild" args s))
    = Some (JSON_stringify (JObj ps'))
    /\ assoc "default_guild_id" ps' = Some g
    /\ forall k, k <> "default_guild_id" -> assoc k ps' = assoc k ps.
Proof.
  intros Hready Hg Hk Hc.
  exists (assoc_set "default_guild_id" g ps).
  rewrite (set_guild_run args g guild ps s Hready Hg Hk Hc). simpl.
  split; [reflexivity|]. split.
  - apply assoc_set_same.
  - intros k Hne. apply assoc_set_other. exact Hne.
Qed.

(** *** Only [set_guild] writes the config file *)

Lemma pure_keeps {A} (m : M A) : pure m -> keeps_config m.
Proof. intros H s. rewrite H. reflexivity. Qed.

Lemma keeps_bind {A B} (m : M A) (k : A -> M B) :
  keeps_config m -> (forall a, keeps_config (k a)) -> keeps_config (bind m k).
Proof.
  intros Hm Hk s. unfold bind. specialize (Hm s).
  destruct (m s) as [[e|a] s']; simpl in Hm; [exact Hm|].
  rewrite Hk. exact Hm.
Qed.

Lemma keeps_perform {A} (c : call A) : keeps_config (perform c).
Proof.
  intros s. unfold perform. destruct (exec c (discord s)). reflexivity.
Qed.

Lemma keeps_try_catch {A} (m : M A) : keeps_config m -> keeps_config (try_catch m).
Proof.
  intros Hm s. unfold try_catch. specialize (Hm s).
  destruct (m s) as [r s']. exact Hm.
Qed.

Lemma keeps_start {A} (m : T A) : keeps_config (start m).
Proof. intros s. apply issue_config. Qed.

Lemma keeps_allSettled {A} (promises : list (task A)) :
  keeps_config (Promise_allSettled promises).
Proof.
  intros s.
  destruct (allSettled_run promises s) as [rs [trace [s1 [Hrun [_ [_ [Hcfg _]]]]]]].
  rewrite Hrun. exact Hcfg.
Qed.

Lemma keeps_Array_mapi_from {A B} (f : A -> nat -> M B) (l : list A) :
  (forall x i, keeps_config (f x i)) ->
  forall i, keeps_config (Array_mapi_from i f l).
Proof.
  intros Hf. induction l as [|x l IH]; intros i; simpl.
  - apply pure_keeps, pure_ret.
  - apply keeps_bind; [apply Hf|intros y].
    apply keeps_bind; [apply IH|intros ys]. apply pure_keeps, pure_ret.
Qed.

Lemma keeps_Array_mapi {A B} (f : A -> nat -> M B) (l : list A) :
  (forall x i, keeps_config (f x i)) -> keeps_config (Array_mapi f l).
Proof. intros Hf. apply keeps_Array_mapi_from. exact Hf. Qed.

Lemma keeps_Array_map {A B} (f : A -> M B) (l : list A) :
  (forall x, keeps_config (f x)) -> keeps_config (Array_map f l).
Proof. intros Hf. apply keeps_Array_mapi. intros x _. apply Hf. Qed.

Ltac keeps_steps :=
  repeat first
    [ apply keeps_perform
    | apply pure_keeps;
      first [ apply pure_ret | apply pure_throw | apply pure_lift
            | apply pure_get_state | apply pure_loadConfig | apply pure_getGuild
            | apply pure_requireDiscord ]
    | apply keeps_try_catch
    | apply keeps_start
    | apply keeps_allSettled
    | apply keeps_Array_map; intros ?
    | apply keeps_Array_mapi; intros ? ?
    | apply keeps_bind; [|intros ?]
    | match goal with
      | |- keeps_config (if ?b then _ else _) => destruct b
      | |- keeps_config (match ?x with _ => _ end) => destruct x
      | |- keeps_config (let _ := _ in _) => cbv zeta
      end ].

Lemma keeps_Date_now_M : keeps_config Date_now_M.
Proof. intros s. reflexivity. Qed.

Lemma keeps_resolveGuildId (args : jsval) : keeps_config (resolveGuildId args).
Proof. unfold resolveGuildId. keeps_steps. Qed.

Lemma keeps_resolveMember (guild : Guild) (x : jsval) :
  keeps_config (resolveMember guild x).
Proof. unfold resolveMember. keeps_steps. Qed.

Lemma keeps_resolveRole (guild : Guild) (x : jsval) :
  keeps_config (resolveRole guild x).
Proof. unfold resolveRole. keeps_steps. Qed.

Lemma keeps_resolveTextChannel (guild : Guild) (x : jsval) :
  keeps_config (resolveTextChannel guild x).
Proof. unfold resolveTextChannel. keeps_steps. Qed.

Ltac keeps_tool :=
  cbv beta delta
    [ snd arg
      create_channel create_category create_voice_channel mass_channels
      mass_categories mass_voice_channels delete mass_delete
      get_messages send_message reply_message edit_message mass_send_message
      delete_message mass_delete_message
      add_reaction create_role delete_role
      mass_create_role mass_delete_role assign_role
      remove_role kick_user ban_user unban_user time_out_user mass_ban
      mass_time_out get_guild list_guilds ];
  repeat first
    [ apply keeps_resolveMember | apply keeps_resolveRole
    | apply keeps_resolveTextChannel | apply keeps_Date_now_M
    | apply keeps_resolveGuildId
    | progress keeps_steps ].

Lemma keeps_guild_tools (guild : Guild) (args : jsval) :
  Forall (fun c => keeps_config (snd c)) (guild_tools guild args).
Proof.
  unfold guild_tools.
  repeat (apply Forall_cons; [keeps_tool|]).
  apply Forall_nil.
Qed.

Lemma keeps_switch {A} (x : string) (cases : list (string * M A)) (d : M A) :
  Forall (fun c => keeps_config (snd c)) cases ->
  keeps_config d -> keeps_config (switch x cases d).
Proof.
  intros Hc Hd. unfold switch.
  destruct (find (fun c => (x =? fst c)%string) cases) as [c|] eqn:E; [|exact Hd].
  apply find_some in E as [Hin _].
  rewrite Forall_forall in Hc. apply Hc, Hin.
Qed.

(** The config file is written by [set_guild] and by no other tool. *)
Lemma handleTool_keeps_config (name : string) (args : jsval) :
  (forall n g a, keeps_config (elsewhere n g a)) ->
  name <> "set_guild" ->
  keeps_config (handleTool elsewhere name args).
Proof.
  intros Helse Hname. unfold handleTool.
  apply keeps_bind; [apply pure_keeps, pure_requireDiscord|intros _].
  apply String.eqb_neq in Hname. rewrite (switch_skip _ _ _ _ _ Hname).
  apply keeps_switch.
  - repeat (apply Forall_cons; [keeps_tool|]). apply Forall_nil.
  - apply keeps_bind; [apply keeps_resolveGuildId|intros guildId].
    apply keeps_bind; [apply pure_keeps, pure_getGuild|intros guild].
    apply keeps_switch; [apply keeps_guild_tools|].
    destruct (existsb (String.eqb name) elsewhere_tools);
      [apply Helse|apply pure_keeps, pure_throw].
Qed.

Lemma run_calls_keeps_config (between : list (string * jsval)) :
  (forall n g a, keeps_config (elsewhere n g a)) ->
  Forall (fun c => fst c <> "set_guild") between ->
  forall s, config_file (run_calls elsewhere between s) = config_file s.
Proof.
  intros Helse. induction between as [|[name args] cs IH]; intros Hall s; simpl.
  - reflexivity.
  - inversion Hall as [|c cs' Hc Hcs]; subst. simpl in Hc.
    rewrite (IH Hcs). apply handleTool_keeps_config; assumption.
Qed.

Lemma stored_config_file (s s' : state) :
  config_file s = config_file s' -> stored_config s = stored_config s'.
Proof.
  intros H. unfold stored_config. rewrite !loadConfig_run, H. reflexivity.
Qed.

(** The config in the store is an object from the first start on: it is one
    when the file is missing, and no tool call makes it anything else, as the
    runtime parses the text of an object back to that object. *)
Lemma config_stays_object (cs : list (string * jsval)) :
  (forall ps, JSON_parse (JSON_stringify (JObj ps)) = Some (JObj ps)) ->
  (forall n g a, keeps_config (elsewhere n g a)) ->
  forall s,
    (exists ps, stored_config s = JObj ps) ->
    exists ps', stored_config (run_calls elsewhere cs s) = JObj ps'.
Proof.
  intros Hjson Helse. induction cs as [|[name args] cs IH]; intros s Hs; simpl.
  - exact Hs.
  - apply IH. destruct (String.eqb_spec name "set_guild") as [->|Hname].
    + destruct (handleTool elsewhere "set_guild" args s) as [[e|r] s'] eqn:Hrun.
      * apply set_guild_fails_clean in Hrun. subst s'. exact Hs.
      * destruct Hs as [ps Hps]. revert Hrun. rewrite handleTool_set_guild.
        unfold bind at 1, requireDiscord, lift.
        destruct discordReady as [e0|[]]; [discriminate|].
        unfold set_guild, arg, lift, bind, saveConfig, writeFileSync.
        destruct (get_prop args "guild_id") as [e1|g]; [discriminate|].
        rewrite getGuild_run. destruct (known_guild s g); [|discriminate].
        rewrite loadConfig_returns, Hps. simpl.
        intros H. inversion H; subst.
        exists (assoc_set "default_guild_id" g ps).
        unfold stored_config. rewrite loadConfig_run. simpl.
        rewrite Hjson. reflexivity.
    + destruct Hs as [ps Hps]. exists ps. rewrite <- Hps.
      apply stored_config_file.
      apply (handleTool_keeps_config name args Helse Hname).
Qed.

(** C3.  After a [set_guild] with the identifier [X] of a guild the client
    knows, and any calls of other tools, [get_guild] answers with [X] as the
    default guild.  The identifier is a non-empty string; the config in the
    store is an object, as it is from the first start on
    ([config_stays_object]; a file that is missing or does not parse counts
    as the empty object); the text written for the new config parses back to
    it; and the tools that are not embedded do not write the config file, as
    in the source. *)
Theorem set_guild_then_get_guild
    (X : string) (args args' : jsval) (guild : Guild) ps
    (between : list (string * jsval)) (s : state) :
  discordReady = inr tt ->
  get_prop args "guild_id" = inr (JStr X) ->
  X <> EmptyString ->
  known_guild s (JStr X) = Some guild ->
  stored_config s = JObj ps ->
  JSON_parse (JSON_stringify (JObj (assoc_set "default_guild_id" (JStr X) ps)))
  = Some (JObj (assoc_set "default_guild_id" (JStr X) ps)) ->
  (forall n g a, keeps_config (elsewhere n g a)) ->
  Forall (fun c => fst c <> "set_guild") between ->
  exists r1 s1 r2,
    handleTool elsewhere "set_guild" args s = (inr r1, s1)
    /\ handleTool elsewhere "get_guild" args' (run_calls elsewhere between s1)
       = (inr r2, run_calls elsewhere between s1)
    /\ get_prop r2 "default_guild_id" = inr (JStr X).
Proof.
  intros Hready Hg HX Hk Hc Hround Helse Hbetween.
  rewrite (set_guild_run args (JStr X) guild ps s Hready Hg Hk Hc).
  set (s1 := {| config_file := _; discord := discord s; calls := calls s |}).
  exists (JObj [ ("success", JBool true); ("default_guild_id", JStr X);
                 ("guild_name", JStr (guild_name guild)) ]), s1.
  set (s2 := run_calls elsewhere between s1).
  assert (Hstored : stored_config s2
                    = JObj (assoc_set "default_guild_id" (JStr X) ps)).
  { rewrite (stored_config_present s2 _
               (eq_trans (run_calls_keeps_config between Helse Hbetween s1) eq_refl)).
    rewrite Hround. reflexivity. }
  assert (Htruthy : truthy (JStr X) = true).
  { simpl. destruct (X =? EmptyString)%string eqn:E; [|reflexivity].
    apply String.eqb_eq in E. contradiction. }
  rewrite handleTool_get_guild. unfold bind at 1, requireDiscord, lift.
  rewrite Hready. unfold get_guild, bind, lift, try_catch.
  rewrite loadConfig_returns, Hstored. simpl get_prop.
  rewrite assoc_set_same, Htruthy. change (negb true) with false. cbv beta iota.
  rewrite getGuild_run.
  destruct (known_guild s2 (JStr X)) as [g2|];
    (eexists; split; [reflexivity|split; reflexivity]).
Qed.

(** *** [get_messages] *)

Lemma resolve_guild_args (args : jsval) (guild : Guild) (s s' : state) :
  resolve_guild args s = (inr guild, s') -> nullish args = false.
Proof.
  unfold resolve_guild, resolveGuildId, bind, lift.
  destruct args; simpl; intros H; try reflexivity; discriminate.
Qed.

Lemma get_prop_field (v : jsval) (k : string) :
  nullish v = false -> get_prop v k = inr (field k v).
Proof. unfold field. destruct v; simpl; intros H; try reflexivity; discriminate. Qed.

(** After the guild is resolved, a tool of the second half runs its case. *)
Lemma handleTool_case (name : string) (args : jsval) (guild : Guild) (s : state) :
  discordReady = inr tt ->
  guild_free name = false ->
  resolve_guild args s = (inr guild, s) ->
  handleTool elsewhere name args s
  = switch name (guild_tools guild args)
      ( if existsb (String.eqb name) elsewhere_tools
        then elsewhere name guild args
        else throw (Error ("Unknown tool: " ++ name)) ) s.
Proof.
  intros Hready Hname Hguild.
  rewrite (handleTool_guild_scoped _ _ _ Hname).
  unfold bind at 1, requireDiscord, lift. rewrite Hready.
  unfold bind at 1. rewrite Hguild. reflexivity.
Qed.



(** *** [time_out_user] *)

Lemma minutes_to_ms_number (d : Z) : minutes_to_ms (JNum d) = JNum (d * 60 * 1000).
Proof. reflexivity. Qed.

(** C7.  For a member that resolves and a timeout that the platform accepts,
    [time_out_user] with [duration_minutes = d] passes [d * 60 * 1000]
    milliseconds to the timeout call of the platform, and the [until] field
    of its result is the clock, read once that call has returned, plus the
    same [d * 60 * 1000] milliseconds: 600000 for [d = 10].  The sum is
    within the range of a Date. *)
Theorem time_out_user_until
    (args : jsval) (guild : Guild) (member : Member) (d : Z) (s s1 : state) :
  discordReady = inr tt ->
  resolve_guild args s = (inr guild, s) ->
  resolveMember guild (field "user_id" args) s = (inr member, s1) ->
  get_prop args "duration_minutes" = inr (JNum d) ->
  fst (perform (Member_timeout member (JNum (d * 60 * 1000))
                  (no_reason (field "reason" args))) s1) = inr tt ->
  Z.abs (Date_now (discord (snd (perform (Member_timeout member (JNum (d * 60 * 1000))
                                           (no_reason (field "reason" args))) s1)))
         + d * 60 * 1000) <= 8640000000000000 ->
  exists r s2,
    handleTool elsewhere "time_out_user" args s = (inr r, s2)
    /\ calls s2
       = (calls s1
          ++ [Logged (Member_timeout member (JNum (d * 60 * 1000))
                        (no_reason (field "reason" args)))])%list
    /\ get_prop r "until" = inr (JDate (Some (Date_now (discord s2) + d * 60 * 1000)))
    /\ (d = 10 ->
        get_prop r "until" = inr (JDate (Some (Date_now (discord s2) + 600000)))).
Proof.
  intros Hready Hguild Hmember Hd Haccept Hrange.
  pose proof (resolve_guild_args _ _ _ _ Hguild) as Hargs.
  rewrite (handleTool_case "time_out_user" args guild s Hready eq_refl Hguild).
  change (switch "time_out_user" (guild_tools guild args) _)
    with (time_out_user guild args).
  unfold time_out_user, arg, lift, bind.
  rewrite (get_prop_field args "user_id" Hargs), Hmember, Hd.
  rewrite (get_prop_field args "reason" Hargs), minutes_to_ms_number.
  revert Haccept Hrange. unfold perform.
  destruct (exec (Member_timeout member (JNum (d * 60 * 1000))
                    (no_reason (field "reason" args))) (discord s1))
    as [[e|[]] d2]; simpl; intros Haccept Hrange; [discriminate|].
  apply Z.leb_le in Hrange.
  eexists. eexists. split; [reflexivity|]. simpl.
  split; [reflexivity|]. rewrite Hrange.
  split; [reflexivity|]. intros ->. reflexivity.
Qed.

(** *** The resolvers *)

Lemma digits_upto_all (max : nat) (s : string) :
  all_digits s = true -> (String.length s <= max)%nat ->
  digits_upto max s = (String.length s, EmptyString).
Proof.
  revert s. induction max as [|max IH]; intros [|c s] Hd Hl; simpl in *;
    try reflexivity; try lia.
  apply andb_true_iff in Hd as [Hc Hs]. rewrite Hc.
  rewrite (IH s Hs) by lia. reflexivity.
Qed.

Lemma digits_upto_sound (max : nat) (s : string) (n : nat) (rest : string) :
  digits_upto max s = (n, rest) ->
  exists p, s = (p ++ rest)%string /\ String.length p = n
            /\ all_digits p = true /\ (n <= max)%nat.
Proof.
  revert s n rest. induction max as [|max IH]; intros s n rest H.
  - destruct s; inversion H; subst; exists EmptyString; auto.
  - destruct s as [|c s]; simpl in H.
    + inversion H; subst. exists EmptyString. repeat split; auto. lia.
    + destruct (is_digit c) eqn:Hc.
      * destruct (digits_upto max s) as [n' rest'] eqn:E.
        inversion H; subst.
        destruct (IH s n' rest E) as [p [Hs [Hl [Hd Hle]]]].
        exists (String c p). simpl. rewrite Hc, Hd, Hl, <- Hs.
        repeat split; auto. lia.
      * inversion H; subst. exists EmptyString. repeat split; auto. lia.
Qed.

Lemma append_empty (p : string) : (p ++ EmptyString)%string = p.
Proof. induction p; simpl; [reflexivity|rewrite IHp; reflexivity]. Qed.

Lemma snowflake_test_shaped (s : string) :
  snowflake_test s = true <-> snowflake_shaped s.
Proof.
  unfold snowflake_test, snowflake_shaped. split.
  - destruct (digits_upto 20 s) as [n rest] eqn:E. intros H.
    apply andb_true_iff in H as [Hn Hrest].
    destruct rest; [|discriminate].
    destruct (digits_upto_sound _ _ _ _ E) as [p [Hs [Hl [Hd Hle]]]].
    rewrite append_empty in Hs. subst p.
    apply Nat.leb_le in Hn. split; [exact Hd|lia].
  - intros [Hd [Hlo Hhi]]. rewrite (digits_upto_all 20 s Hd Hhi).
    apply andb_true_iff. split; [apply Nat.leb_le; exact Hlo|reflexivity].
Qed.

Lemma snowflake_test_not_shaped (s : string) :
  ~ snowflake_shaped s -> snowflake_test s = false.
Proof.
  intros H. destruct (snowflake_test s) eqn:E; [|reflexivity].
  apply snowflake_test_shaped in E. contradiction.
Qed.

(** *** Letter case *)

Lemma nat_of_ascii_inj (c1 c2 : ascii) : nat_of_ascii c1 = nat_of_ascii c2 -> c1 = c2.
Proof.
  intros H. rewrite <- (ascii_nat_embedding c1), <- (ascii_nat_embedding c2), H.
  reflexivity.
Qed.

Lemma lower_ascii_same_letter (c1 c2 : ascii) :
  lower_ascii c1 = lower_ascii c2 <-> same_letter c1 c2.
Proof.
  unfold lower_ascii, same_letter, capital_of.
  pose proof (nat_ascii_bounded c1) as B1. pose proof (nat_ascii_bounded c2) as B2.
  destruct (Nat.leb_spec 65 (nat_of_ascii c1)) as [L1|L1];
    destruct (Nat.leb_spec (nat_of_ascii c1) 90) as [U1|U1];
    destruct (Nat.leb_spec 65 (nat_of_ascii c2)) as [L2|L2];
    destruct (Nat.leb_spec (nat_of_ascii c2) 90) as [U2|U2];
    cbn [andb]; split; intros H.
  all: try (apply (f_equal nat_of_ascii) in H;
            rewrite ?nat_ascii_embedding in H by lia;
            first [ left; apply nat_of_ascii_inj; lia
                  | right; left; lia
                  | right; right; lia ]).
  all: destruct H as [H|[[H1 H2]|[H1 H2]]]; try subst c2; try lia; try reflexivity.
  all: apply nat_of_ascii_inj; rewrite ?nat_ascii_embedding by lia; lia.
Qed.

Lemma ascii_lower_equal (a b : string) :
  ascii_toLowerCase a = ascii_toLowerCase b <-> equal_up_to_case a b.
Proof.
  revert b. induction a as [|c1 a IH]; intros [|c2 b]; cbn [ascii_toLowerCase equal_up_to_case].
  - split; [intros _; exact I|reflexivity].
  - split; [discriminate|intros []].
  - split; [discriminate|intros []].
  - rewrite <- IH, <- lower_ascii_same_letter. split.
    + intros H. injection H as H1 H2. split; assumption.
    + intros [H1 H2]. rewrite H1, H2. reflexivity.
Qed.

Lemma same_ignoring_case_ascii (a b : string) :
  is_ascii a = true -> is_ascii b = true ->
  (same_ignoring_case a b <-> equal_up_to_case a b).
Proof.
  intros Ha Hb. unfold same_ignoring_case.
  rewrite (toLowerCase_ascii a Ha), (toLowerCase_ascii b Hb).
  apply ascii_lower_equal.
Qed.

Lemma all_digits_ascii (s : string) : all_digits s = true -> is_ascii s = true.
Proof.
  induction s as [|c s IH]; [reflexivity|]. cbn [all_digits is_ascii].
  intros H. apply andb_prop in H. destruct H as [Hc Hs]. rewrite (IH Hs).
  unfold is_digit in Hc. apply andb_prop in Hc. destruct Hc as [_ Hc].
  apply Nat.leb_le in Hc. rewrite andb_true_r. apply Nat.ltb_lt. lia.
Qed.

Lemma toLowerCase_of_digits (s : string) : all_digits s = true -> toLowerCase s = s.
Proof.
  intros H. apply toLowerCase_digits.
  rewrite (toLowerCase_ascii s (all_digits_ascii s H)).
  assert (E : ascii_toLowerCase s = s).
  { clear - H. induction s as [|c s IH]; [reflexivity|].
    cbn [all_digits ascii_toLowerCase] in *.
    apply andb_prop in H. destruct H as [Hc Hs]. rewrite (IH Hs). f_equal.
    clear - Hc. destruct c as [[] [] [] [] [] [] [] []];
      first [reflexivity | discriminate Hc]. }
  rewrite E. exact H.
Qed.

Lemma same_case_snowflake (a b : string) :
  same_ignoring_case a b -> snowflake_test a = true -> a = b.
Proof.
  unfold same_ignoring_case. intros Hab Ha.
  assert (Hd : all_digits a = true) by (apply snowflake_test_shaped in Ha; apply Ha).
  pose proof (toLowerCase_of_digits a Hd) as Hla.
  rewrite Hla in Hab. rewrite Hab. apply toLowerCase_digits.
  rewrite <- Hab. exact Hd.
Qed.

Lemma member_matches_answers (name : string) (m : Member) :
  member_matches (toLowerCase name) m = true <-> answers_to name m.
Proof.
  unfold member_matches, answers_to, same_ignoring_case.
  rewrite !orb_true_iff, !String.eqb_eq. split.
  - intros [[H|H]|H]; [left; exact H|right; left; exact H|right; right].
    destruct (globalName (user m)) as [g|]; [|discriminate].
    apply andb_true_iff in H as [Hne Heq].
    exists g. split; [reflexivity|]. split.
    + intros ->. discriminate.
    + apply String.eqb_eq. exact Heq.
  - intros [H|[H|[g [Hg [Hne Heq]]]]]; [left; left; exact H|left; right; exact H|right].
    rewrite Hg. apply andb_true_iff. split.
    + destruct (g =? EmptyString)%string eqn:E; [|reflexivity].
      apply String.eqb_eq in E. contradiction.
    + apply String.eqb_eq. exact Heq.
Qed.

(** [find] returns the first element that passes the test. *)
Lemma find_first_match {A} (p : A -> bool) (P : A -> Prop) (l : list A) (x : A) :
  (forall y, p y = true <-> P y) ->
  (find p l = Some x <-> first_match P l x).
Proof.
  intros Hp. unfold first_match. induction l as [|a l IH]; simpl.
  - split; [discriminate|].
    intros [before [after [H _]]]. destruct before; discriminate.
  - destruct (p a) eqn:Ea.
    + split.
      * intros H. inversion H; subst. exists [], l.
        split; [reflexivity|]. split; [apply Hp; exact Ea|intros y []].
      * intros [before [after [Hl [Hx Hbefore]]]].
        destruct before as [|b before]; simpl in Hl; inversion Hl; subst.
        -- reflexivity.
        -- exfalso. apply (Hbefore b); [left; reflexivity|apply Hp; exact Ea].
    + split.
      * intros H. apply IH in H as [before [after [Hl [Hx Hbefore]]]].
        exists (a :: before), after. subst l. split; [reflexivity|].
        split; [exact Hx|]. intros y [<-|Hy]; [|apply Hbefore; exact Hy].
        intros Hy. apply Hp in Hy. congruence.
      * intros [before [after [Hl [Hx Hbefore]]]].
        destruct before as [|b before]; simpl in Hl; inversion Hl; subst.
        -- apply Hp in Hx. congruence.
        -- apply IH. exists before, after. split; [reflexivity|].
           split; [exact Hx|]. intros y Hy. apply Hbefore. right. exact Hy.
Qed.

Lemma find_no_match {A} (p : A -> bool) (P : A -> Prop) (l : list A) :
  (forall y, p y = true <-> P y) ->
  (forall y, In y l -> ~ P y) -> find p l = None.
Proof.
  intros Hp Hnone. destruct (find p l) as [x|] eqn:E; [|reflexivity].
  apply find_some in E as [Hin Hx]. exfalso. apply (Hnone x Hin), Hp, Hx.
Qed.

Lemma resolveMember_by_name (guild : Guild) (token : string) (s s1 : state) :
  snowflake_test token = false ->
  perform (Guild_members_fetch guild) s = (inr tt, s1) ->
  resolveMember guild (JStr token) s
  = (match find (member_matches (toLowerCase token))
                (members_cache (discord s1) guild) with
     | Some member => inr member
     | None => inl (Error ("User " ++ dquote ++ token ++ dquote
                           ++ " not found in this server"))
     end, s1).
Proof.
  intros Htest Hfetch. unfold resolveMember.
  change (ToString (JStr token)) with token. rewrite Htest.
  unfold bind, lift, get_state. rewrite Hfetch. simpl.
  destruct (find (member_matches (toLowerCase token))
                 (members_cache (discord s1) guild)); reflexivity.
Qed.

Lemma resolveRole_by_name (guild : Guild) (token : string) (s : state) :
  snowflake_test token = false ->
  resolveRole guild (JStr token) s
  = (match find (fun r => (toLowerCase (role_name r) =? toLowerCase token)%string)
                (roles_cache (discord s) guild) with
     | Some role => inr role
     | None => inl (Error ("Role " ++ dquote ++ token ++ dquote ++ " not found"))
     end, s).
Proof.
  intros Htest. unfold resolveRole, bind, get_state, lift. cbv beta iota.
  change (ToString (JStr token)) with token. rewrite Htest. simpl.
  destruct (find _ (roles_cache (discord s) guild)); reflexivity.
Qed.

(** C2.  The test of the resolvers holds exactly for the tokens made of 17
    to 20 decimal digits.  For such a token the member resolver makes the
    fetch by identifier and nothing else, and the role resolver looks the
    identifier up in the role cache.  For every other token the member
    resolver fetches all members and returns the first member of the cache
    that answers to the token, letter case ignored, through its account
    name, its display name or its global name; the role resolver returns the
    first role of that name; and each fails with its not-found error when no
    entry matches.  Two names are the same, letter case ignored, when the
    runtime gives them the same lower case; for names of ASCII characters
    that is when they differ at most in the case of their letters A to
    Z. *)
Theorem resolvers_follow_token_shape (guild : Guild) (token : string) (s : state) :
  (snowflake_test token = true <-> snowflake_shaped token)
  /\ (snowflake_shaped token ->
      resolveMember guild (JStr token) s
      = perform (Guild_members_fetch_id guild (JStr token)) s
      /\ resolveRole guild (JStr token) s
         = (match cache_get role_id (roles_cache (discord s) guild) (JStr token) with
            | Some role => inr role
            | None => inl (Error ("Role " ++ token ++ " not found"))
            end, s))
  /\ (~ snowflake_shaped token ->
      (forall s1, perform (Guild_members_fetch guild) s = (inr tt, s1) ->
         (forall m, resolveMember guild (JStr token) s = (inr m, s1)
                    <-> first_match (answers_to token)
                          (members_cache (discord s1) guild) m)
         /\ ((forall m, In m (members_cache (discord s1) guild) ->
                        ~ answers_to token m) ->
             resolveMember guild (JStr token) s
             = (inl (Error ("User " ++ dquote ++ token ++ dquote
                            ++ " not found in this server")), s1)))
      /\ (forall r, resolveRole guild (JStr token) s = (inr r, s)
                    <-> first_match (fun r => same_ignoring_case (role_name r) token)
                          (roles_cache (discord s) guild) r)
      /\ ((forall r, In r (roles_cache (discord s) guild) ->
                     ~ same_ignoring_case (role_name r) token) ->
          resolveRole guild (JStr token) s
          = (inl (Error ("Role " ++ dquote ++ token ++ dquote ++ " not found")), s)))
  /\ (forall name,
        is_ascii name = true -> is_ascii token = true ->
        (same_ignoring_case name token <-> equal_up_to_case name token)).
Proof.
  split; [apply snowflake_test_shaped|]. split; [|split].
  3: { intros name Hname Htoken. apply same_ignoring_case_ascii; assumption. }
  - intros Hshape. apply snowflake_test_shaped in Hshape. split.
    + unfold resolveMember. change (ToString (JStr token)) with token.
      rewrite Hshape. reflexivity.
    + unfold resolveRole, bind, get_state. cbv beta iota.
      change (ToString (JStr token)) with token. rewrite Hshape.
      destruct (cache_get role_id (roles_cache (discord s) guild) (JStr token));
        reflexivity.
  - intros Hshape. apply snowflake_test_not_shaped in Hshape.
    assert (Hrole : forall r, (toLowerCase (role_name r) =? toLowerCase token)%string = true
                              <-> same_ignoring_case (role_name r) token).
    { intros r. apply String.eqb_eq. }
    split; [|split].
    + intros s1 Hfetch.
      rewrite (resolveMember_by_name guild token s s1 Hshape Hfetch). split.
      * intros m.
        rewrite <- (find_first_match _ _ _ m (member_matches_answers token)).
        destruct (find (member_matches (toLowerCase token))
                       (members_cache (discord s1) guild)).
        -- split; intros H; inversion H; reflexivity.
        -- split; discriminate.
      * intros Hnone.
        rewrite (find_no_match _ _ _ (member_matches_answers token) Hnone).
        reflexivity.
    + intros r. rewrite (resolveRole_by_name guild token s Hshape).
      rewrite <- (find_first_match _ _ _ r Hrole).
      destruct (find _ (roles_cache (discord s) guild)).
      * split; intros H; inversion H; reflexivity.
      * split; discriminate.
    + intros Hnone. rewrite (resolveRole_by_name guild token s Hshape).
      rewrite (find_no_match _ _ _ Hrole Hnone). reflexivity.
Qed.

(** *** Batches *)






Lemma bind_lift {A B} (r : exn + A) (a : A) (k : A -> M B) (s : state) :
  r = inr a -> bind (lift r) k s = k a s.
Proof. intros ->. reflexivity. Qed.

Ltac bt_simpl :=
  cbn [ bt_name bt_list bt_item_ok bt_context bt_setup bt_value bt_operation
        bt_key bt_item_key bt_status bt_affected bt_affected_id
        batch_mass_channels batch_mass_categories batch_mass_voice_channels
        batch_mass_delete batch_mass_send_message batch_mass_delete_message
        batch_mass_create_role batch_mass_delete_role batch_mass_ban
        batch_mass_time_out ] in *.

Lemma no_setup_run (guild : Guild) (args : jsval) (ctx : unit) (s s0 : state) :
  no_setup guild args s = (inr ctx, s0) -> s0 = s.
Proof. intros H. inversion H. reflexivity. Qed.




























(* ----------------------------------------------------------------- *)
(** *** Further properties of the dispatcher *)

Lemma set_guild_client_untouched (args : jsval) (s : state) :
  discord (snd (handleTool elsewhere "set_guild" args s)) = discord s
  /\ calls (snd (handleTool elsewhere "set_guild" args s)) = calls s.
Proof.
  rewrite handleTool_set_guild. unfold bind at 1, requireDiscord, lift.
  destruct discordReady as [e0|[]]; [split; reflexivity|].
  unfold set_guild, arg, lift, bind, saveConfig, writeFileSync.
  destruct (get_prop args "guild_id") as [e1|g1]; [split; reflexivity|].
  rewrite getGuild_run.
  destruct (known_guild s g1); [|split; reflexivity].
  rewrite loadConfig_returns.
  destruct (set_prop (stored_config s) "default_guild_id" g1); split; reflexivity.
Qed.

(** X1.  A tool call after which the config file has another content is a
    [set_guild] that succeeded; and it made no call of the client.  The tools
    that are not embedded are taken not to write the file, as in the
    source. *)
Theorem config_written_only_by_set_guild (name : string) (args : jsval) (s : state) :
  (forall n g a, keeps_config (elsewhere n g a)) ->
  config_file (snd (handleTool elsewhere name args s)) <> config_file s ->
  name = "set_guild"
  /\ (exists r, fst (handleTool elsewhere name args s) = inr r)
  /\ discord (snd (handleTool elsewhere name args s)) = discord s
  /\ calls (snd (handleTool elsewhere name args s)) = calls s.
Proof.
  intros Helse Hchanged.
  destruct (String.eqb_spec name "set_guild") as [->|Hname].
  - split; [reflexivity|]. split; [|apply set_guild_client_untouched].
    destruct (handleTool elsewhere "set_guild" args s) as [[e|r] s'] eqn:Hrun.
    + apply set_guild_fails_clean in Hrun. subst s'. contradiction.
    + exists r. reflexivity.
  - exfalso. apply Hchanged.
    apply (handleTool_keeps_config name args Helse Hname).
Qed.

(** *** Client calls of the resolvers *)

Lemma pure_resolveRole (guild : Guild) (x : jsval) : pure (resolveRole guild x).
Proof. unfold resolveRole. pure_steps. Qed.

Lemma resolveMember_one_call (guild : Guild) (x : jsval) (s : state) :
  makes_calls (resolveMember guild x) s
    [ if snowflake_test (ToString x)
      then Logged (Guild_members_fetch_id guild x)
      else Logged (Guild_members_fetch guild) ].
Proof.
  unfold makes_calls, resolveMember.
  destruct (snowflake_test (ToString x)).
  - unfold perform. destruct (exec (Guild_members_fetch_id guild x) (discord s)).
    reflexivity.
  - unfold bind, perform, lift, get_state.
    destruct (exec (Guild_members_fetch guild) (discord s)) as [[e|[]] d];
      [reflexivity|].
    destruct (call_toLowerCase x) as [e|lower]; [reflexivity|]. cbv beta iota.
    destruct (find (member_matches lower) _); reflexivity.
Qed.

(** X2.  [resolveMember], given a token that is no object, makes one call
    of the client, never more and never less: the fetch by identifier for a
    token of the shape of an identifier, the fetch of all members for any
    other token, be the member found or not (even a token that is no
    string, which then fails on [toLowerCase], has caused the fetch).
    [resolveRole] makes none: it only reads the role cache and changes
    nothing. *)
Theorem resolvers_client_calls (guild : Guild) (x : jsval) (s : state) :
  (primitive x = true ->
   makes_calls (resolveMember guild x) s
     [ if snowflake_test (ToString x)
       then Logged (Guild_members_fetch_id guild x)
       else Logged (Guild_members_fetch guild) ])
  /\ snd (resolveRole guild x s) = s.
Proof.
  split; [intros _; apply resolveMember_one_call|apply pure_resolveRole].
Qed.

(** X3.  [resolveTextChannel] returns only channels that are text based.  A
    channel of the guild cache is final: it is returned without any call of
    the client when it is text based, and refused, without any call and
    without a look elsewhere, when it is not.  On a miss the client is asked
    for the channel.  A channel that it returns is final in the same way,
    and the active threads are not listed.  When it returns none, and also
    when the fetch is rejected, the rejection is passed over and the active
    threads are listed: a rejection of that call is thrown on, and
    otherwise the entry of the list with that identifier, if there is one,
    is returned or refused as before, and the call fails with its
    not-found error if there is none. *)
Theorem resolveTextChannel_sources (guild : Guild) (id : jsval) (s : state) :
  (forall ch s', resolveTextChannel guild id s = (inr ch, s') ->
                 channel_isTextBased ch = true)
  /\ (forall ch,
        cache_get channel_id (channels_cache (discord s) guild) id = Some ch ->
        resolveTextChannel guild id s
        = (if channel_isTextBased ch then inr ch
           else inl (Error ("Channel " ++ ToString id ++ " is not text-based")), s))
  /\ (cache_get channel_id (channels_cache (discord s) guild) id = None ->
      forall fetched s1,
        perform (Client_channels_fetch id) s = (fetched, s1) ->
        match fetched with
        | inr (Some ch) => resolveTextChannel guild id s = (text_only id ch, s1)
        | _ =>
            forall listed s2,
              perform (Guild_channels_fetchActiveThreads guild) s1 = (listed, s2) ->
              resolveTextChannel guild id s
              = (match listed with
                 | inl e => inl e
                 | inr threads =>
                     match cache_get channel_id threads id with
                     | Some ch => text_only id ch
                     | None =>
                         inl (Error ("Channel/thread " ++ ToString id
                                     ++ " not found"))
                     end
                 end, s2)
        end).
Proof.
  split; [|split].
  - intros ch s'. unfold resolveTextChannel, bind, get_state, try_catch, perform.
    cbv beta iota.
    destruct (cache_get channel_id (channels_cache (discord s) guild) id) as [c|];
      simpl.
    2: destruct (exec (Client_channels_fetch id) (discord s)) as [[e|[c|]] d1];
         simpl.
    2,4: destruct (exec (Guild_channels_fetchActiveThreads guild) d1)
           as [[e2|threads] d2]; simpl;
         [intros H; discriminate H|];
         destruct (cache_get channel_id threads id) as [c|]; simpl;
         [|intros H; discriminate H].
    all: destruct (channel_isTextBased c) eqn:E; simpl; intros H;
      inversion H; subst; exact E.
  - intros ch Hhit. unfold resolveTextChannel, bind, get_state. cbv beta iota.
    rewrite Hhit. unfold ret. destruct (channel_isTextBased ch); reflexivity.
  - intros Hmiss fetched s1 Hfetch.
    unfold resolveTextChannel, bind, get_state, try_catch. cbv beta iota.
    rewrite Hmiss, Hfetch. unfold text_only, ret, throw.
    destruct fetched as [e|[ch|]]; simpl.
    + intros listed s2 Hlist. rewrite Hlist.
      destruct listed as [e2|threads]; [reflexivity|]. simpl.
      destruct (cache_get channel_id threads id) as [ch|]; [|reflexivity].
      destruct (channel_isTextBased ch); reflexivity.
    + destruct (channel_isTextBased ch); reflexivity.
    + intros listed s2 Hlist. rewrite Hlist.
      destruct listed as [e2|threads]; [reflexivity|]. simpl.
      destruct (cache_get channel_id threads id) as [ch|]; [|reflexivity].
      destruct (channel_isTextBased ch); reflexivity.
Qed.

(** *** Arguments and the advertised schemas *)

Lemma switch_agree {A} (x : string) (cases cases' : list (string * M A))
    (d d' : M A) (s : state) :
  Forall2 (fun c c' => fst c = fst c' /\ (x = fst c -> snd c s = snd c' s))
          cases cases' ->
  d s = d' s ->
  switch x cases d s = switch x cases' d' s.
Proof.
  intros Hcases Hd. unfold switch.
  induction Hcases as [|c c' cases cases' [Hk Hc] _ IH]; [exact Hd|].
  destruct c as [k h], c' as [k' h']. cbn [fst snd] in Hk, Hc. subst k'.
  cbn [find fst]. destruct (String.eqb_spec x k) as [E|_]; [exact (Hc E)|exact IH].
Qed.

Ltac unfold_tool :=
  cbv beta delta
    [ fst snd arg Promise_allSettled
      create_channel create_category create_voice_channel mass_channels
      mass_categories mass_voice_channels delete mass_delete
      get_messages send_message reply_message edit_message mass_send_message
      delete_message mass_delete_message
      add_reaction create_role delete_role
      mass_create_role mass_delete_role assign_role
      remove_role kick_user ban_user unban_user time_out_user mass_ban
      mass_time_out mass_time_out_item ].

Ltac read_args args args' Hargs Hargs' H :=
  repeat rewrite (fun k => get_prop_field args k Hargs);
  repeat rewrite (fun k => get_prop_field args' k Hargs');
  repeat match goal with
  | |- context [field ?k args] =>
      rewrite (H k ltac:(vm_compute; reflexivity) ltac:(discriminate))
  end.

Lemma guild_tools_agree (name : string) (guild : Guild) (args args' : jsval)
    (s : state) :
  nullish args = false -> nullish args' = false ->
  (forall k, declares name k = true -> k <> "guild_id" ->
             field k args = field k args') ->
  Forall2 (fun c c' => fst c = fst c' /\ (name = fst c -> snd c s = snd c' s))
          (guild_tools guild args) (guild_tools guild args').
Proof.
  intros Hargs Hargs' H. unfold guild_tools.
  repeat (constructor;
          [ split; [reflexivity|];
            cbn [fst snd]; intros E; rewrite E in H; unfold_tool;
            read_args args args' Hargs Hargs' H; reflexivity
          | ]).
  constructor.
Qed.

Lemma advertised_declares_guild_id (name : string) :
  advertised name = true -> guild_free name = false ->
  declares name "guild_id" = true.
Proof.
  assert (H : forallb (fun t => guild_free (tool_name t)
                                || declares (tool_name t) "guild_id") tools = true)
    by (vm_compute; reflexivity).
  rewrite forallb_forall in H.
  unfold advertised. rewrite existsb_exists. intros [t [Hin Ht]] Hfree.
  apply String.eqb_eq in Ht. subst name.
  specialize (H t Hin). rewrite Hfree in H. exact H.
Qed.

(** X4.  A tool reads, of its arguments, only the properties that its
    advertised schema declares: two argument objects that agree on the
    declared properties of an advertised tool give the same result, the same
    calls of the client and the same config file.  This covers the three
    guild tools and the 28 embedded cases; the bodies that are not embedded
    are taken to do the same. *)
Theorem undeclared_arguments_are_ignored
    (name : string) (args args' : jsval) (s : state) :
  reads_declared elsewhere ->
  advertised name = true ->
  nullish args = false -> nullish args' = false ->
  agree_on_declared name args args' ->
  handleTool elsewhere name args s = handleTool elsewhere name args' s.
Proof.
  intros Helse Hadv Hargs Hargs' H.
  destruct (guild_free name) eqn:Hfree.
  - unfold guild_free in Hfree.
    destruct (String.eqb_spec name "set_guild") as [->|_].
    { rewrite !handleTool_set_guild. apply bind_ext. intros _ s'.
      unfold set_guild, arg.
      rewrite (get_prop_field args _ Hargs), (get_prop_field args' _ Hargs').
      rewrite (H "guild_id" ltac:(vm_compute; reflexivity)). reflexivity. }
    destruct (String.eqb_spec name "get_guild") as [->|_].
    { rewrite !handleTool_get_guild. reflexivity. }
    destruct (String.eqb_spec name "list_guilds") as [->|_]; [|discriminate].
    rewrite !handleTool_list_guilds. reflexivity.
  - rewrite !(handleTool_guild_scoped name _ s Hfree).
    apply bind_ext. intros _ s'.
    assert (Hg : resolve_guild args s' = resolve_guild args' s').
    { unfold resolve_guild, resolveGuildId.
      rewrite (get_prop_field args _ Hargs), (get_prop_field args' _ Hargs').
      rewrite (H "guild_id" (advertised_declares_guild_id name Hadv Hfree)).
      reflexivity. }
    cbv beta. apply (bind_cong _ _ _ _ _ Hg). intros guild s1.
    apply switch_agree.
    + apply guild_tools_agree; try assumption. intros k Hk _. exact (H k Hk).
    + destruct (existsb (String.eqb name) elsewhere_tools); [|reflexivity].
      apply Helse; try assumption. intros k Hk _. exact (H k Hk).
Qed.

Lemma field_guild_id_set (k : string) (d : jsval) ps :
  k <> "guild_id" ->
  field k (JObj (assoc_set "guild_id" d ps)) = field k (JObj ps).
Proof.
  intros Hk. unfold field, get_prop. rewrite (assoc_set_other _ _ _ _ Hk).
  reflexivity.
Qed.

(** X5.  The stored default guild stands in for a missing [guild_id]: a
    guild-scoped call whose arguments name no guild behaves, while a default
    is stored, exactly as the same call with [guild_id] set to that default:
    same result, same calls of the client, same state. *)
Theorem default_guild_stands_in (name : string) ps (s : state) :
  reads_declared elsewhere ->
  guild_free name = false ->
  names_guild (JObj ps) = false ->
  nullish (stored_config s) = false ->
  truthy (stored_default s) = true ->
  handleTool elsewhere name (JObj ps) s
  = handleTool elsewhere name
      (JObj (assoc_set "guild_id" (stored_default s) ps)) s.
Proof.
  intros Helse Hfree Hnone Hconfig Hdefault.
  rewrite !(handleTool_guild_scoped name _ s Hfree).
  unfold bind at 1, requireDiscord, lift.
  symmetry. unfold bind at 1. symmetry.
  destruct discordReady as [e|[]]; [reflexivity|].
  assert (H1 : resolve_guild (JObj ps) s = getGuild (stored_default s) s).
  { unfold resolve_guild. apply bind_inr.
    unfold resolveGuildId. unfold names_guild in Hnone.
    rewrite (get_prop_field (JObj ps) _ eq_refl) in Hnone |- *.
    rewrite (bind_lift _ _ _ _ eq_refl). rewrite Hnone.
    rewrite (bind_inr _ _ _ _ _ (loadConfig_returns s)).
    rewrite (get_prop_field _ _ Hconfig).
    rewrite (bind_lift _ _ _ _ eq_refl).
    fold (stored_default s). rewrite Hdefault. reflexivity. }
  assert (H2 : resolve_guild (JObj (assoc_set "guild_id" (stored_default s) ps)) s
               = getGuild (stored_default s) s).
  { unfold resolve_guild. apply bind_inr. unfold resolveGuildId.
    assert (Hg : get_prop (JObj (assoc_set "guild_id" (stored_default s) ps))
                   "guild_id" = inr (stored_default s)).
    { unfold get_prop. rewrite assoc_set_same. reflexivity. }
    rewrite (bind_lift _ (stored_default s) _ _ Hg).
    rewrite Hdefault. reflexivity. }
  apply bind_cong; [rewrite H1, H2; reflexivity|]. intros guild s1.
  apply switch_agree.
  + apply guild_tools_agree; try reflexivity.
    intros k _ Hk. symmetry. apply field_guild_id_set. exact Hk.
  + destruct (existsb (String.eqb name) elsewhere_tools); [|reflexivity].
    apply Helse; try reflexivity.
    intros k _ Hk. symmetry. apply field_guild_id_set. exact Hk.
Qed.

(** *** The advertised tools and the cases of the dispatcher *)

Lemma existsb_eqb_In (x : string) (l : list string) :
  existsb (String.eqb x) l = true <-> In x l.
Proof.
  rewrite existsb_exists. split.
  - intros [y [Hin Hy]]. apply String.eqb_eq in Hy. subst y. exact Hin.
  - intros Hin. exists x. split; [exact Hin|apply String.eqb_refl].
Qed.

Lemma existsb_eqb_incl (x : string) (l1 l2 : list string) :
  forallb (fun y => existsb (String.eqb y) l2) l1 = true ->
  existsb (String.eqb x) l1 = true -> existsb (String.eqb x) l2 = true.
Proof.
  rewrite forallb_forall. intros H Hx. apply existsb_eqb_In in Hx. exact (H x Hx).
Qed.

Lemma existsb_eqb_same (x : string) (l1 l2 : list string) :
  forallb (fun y => existsb (String.eqb y) l2) l1 = true ->
  forallb (fun y => existsb (String.eqb y) l1) l2 = true ->
  existsb (String.eqb x) l1 = existsb (String.eqb x) l2.
Proof.
  intros H12 H21.
  destruct (existsb (String.eqb x) l1) eqn:E1.
  - symmetry. exact (existsb_eqb_incl x l1 l2 H12 E1).
  - destruct (existsb (String.eqb x) l2) eqn:E2; [|reflexivity].
    rewrite (existsb_eqb_incl x l2 l1 H21 E2) in E1. discriminate.
Qed.

Lemma advertised_names (name : string) :
  advertised name = existsb (String.eqb name) (map tool_name tools).
Proof.
  unfold advertised. induction tools as [|t l IH]; [reflexivity|].
  cbn [existsb map]. rewrite IH. reflexivity.
Qed.

Lemma has_case_names (name : string) :
  has_case name
  = existsb (String.eqb name)
      ([ "set_guild"; "get_guild"; "list_guilds" ] ++ guild_cases ++ elsewhere_tools).
Proof.
  unfold has_case, guild_free. rewrite !existsb_app. cbn [existsb].
  rewrite !orb_false_r, <- !orb_assoc. reflexivity.
Qed.

Lemma advertised_has_case (name : string) : advertised name = has_case name.
Proof.
  rewrite advertised_names, has_case_names.
  apply existsb_eqb_same; vm_compute; reflexivity.
Qed.

Lemma switch_default {A} (x : string) (cases : list (string * A)) (d : A) :
  existsb (String.eqb x) (map fst cases) = false -> switch x cases d = d.
Proof.
  unfold switch. induction cases as [|[k h] cases IH]; [reflexivity|].
  cbn [map existsb find fst]. intros H. apply orb_false_elim in H.
  destruct H as [Hk H]. rewrite Hk. exact (IH H).
Qed.

(** X6.  The list of tools that the server advertises and the cases of the
    dispatcher name the same tools: every advertised tool has a case, and no
    case serves a name that is not advertised.  A request for any other name
    is answered, once the guild is resolved, with the error
    [Unknown tool: <name>], and nothing has happened. *)
Theorem advertised_tools_are_the_cases (name : string) :
  advertised name = has_case name
  /\ (advertised name = false ->
      forall args guild s,
        discordReady = inr tt ->
        resolve_guild args s = (inr guild, s) ->
        handleTool elsewhere name args s
        = (inl (Error ("Unknown tool: " ++ name)), s)
        /\ callTool elsewhere name args s
           = ({| content_text := "Error: Unknown tool: " ++ name;
                 isError := Some true |}, s)).
Proof.
  split; [apply advertised_has_case|].
  intros Hno args guild s Hready Hguild.
  assert (H : handleTool elsewhere name args s
              = (inl (Error ("Unknown tool: " ++ name)), s)).
  { rewrite advertised_has_case in Hno. unfold has_case in Hno.
    apply orb_false_elim in Hno. destruct Hno as [Hno Helse].
    apply orb_false_elim in Hno. destruct Hno as [Hfree Hcases].
    rewrite (handleTool_case name args guild s Hready Hfree Hguild).
    rewrite switch_default by exact Hcases.
    rewrite Helse. reflexivity. }
  split; [exact H|]. unfold callTool. rewrite H. reflexivity.
Qed.

(** *** Calls that do not depend on the config file *)

Lemma blind_ret {A} (a : A) : config_blind (ret a).
Proof. intros file s. reflexivity. Qed.

Lemma blind_throw {A} (e : exn) : config_blind (throw e : M A).
Proof. intros file s. reflexivity. Qed.

Lemma blind_lift {A} (r : exn + A) : config_blind (lift r).
Proof. intros file s. unfold lift. destruct r; reflexivity. Qed.

Lemma blind_perform {A} (c : call A) : config_blind (perform c).
Proof.
  intros file s. unfold perform. cbn [discord with_config_file].
  destruct (exec c (discord s)). reflexivity.
Qed.

Lemma blind_bind {A B} (m : M A) (k : A -> M B) :
  config_blind m -> (forall a, config_blind (k a)) -> config_blind (bind m k).
Proof.
  intros Hm Hk file s. unfold bind. rewrite Hm.
  destruct (m s) as [[e|a] s1]; cbn [fst snd]; [reflexivity|apply Hk].
Qed.

Lemma blind_with_state {A} (k : state -> M A) :
  (forall file s0 s, k (with_config_file file s0) s = k s0 s) ->
  (forall s0, config_blind (k s0)) ->
  config_blind (bind get_state k).
Proof.
  intros Hsame Hk file s. unfold bind, get_state. rewrite Hsame. apply Hk.
Qed.

Lemma blind_try_catch {A} (m : M A) : config_blind m -> config_blind (try_catch m).
Proof.
  intros Hm file s. unfold try_catch. rewrite Hm.
  destruct (m s) as [r s1]. reflexivity.
Qed.

Lemma issue_blind {A} (t : task A) (file : option string) (s : state) :
  issue t (with_config_file file s) = with_config_file file (issue t s).
Proof. destruct t; reflexivity. Qed.

Lemma blind_start {A} (m : T A) : config_blind (start m).
Proof.
  intros file s. unfold start. cbn [discord with_config_file fst snd].
  rewrite issue_blind. reflexivity.
Qed.

Lemma turn_blind {A} (t : task A) (file : option string) (s : state) :
  turn t (with_config_file file s)
  = (fst (turn t s), with_config_file file (snd (turn t s))).
Proof.
  destruct t as [r|B c k|k]; cbn [turn discord with_config_file].
  - reflexivity.
  - destruct (exec c (discord s)). reflexivity.
  - rewrite issue_blind. reflexivity.
Qed.

Lemma finish_blind {A} (t : task A) (file : option string) :
  forall s,
    finish t (with_config_file file s)
    = (fst (finish t s), with_config_file file (snd (finish t s))).
Proof.
  induction t as [r|B c k IH|k IH]; intros s;
    cbn [finish discord with_config_file config_file calls].
  - reflexivity.
  - destruct (exec c (discord s)) as [r d].
    rewrite <- (IH r d). rewrite <- issue_blind. reflexivity.
  - rewrite <- (IH (discord s)). rewrite <- issue_blind. reflexivity.
Qed.

Lemma take_turns_blind {A} (file : option string) (turns : list nat) :
  forall (ts : list (task A)) s,
    take_turns turns ts (with_config_file file s)
    = (fst (take_turns turns ts s),
       with_config_file file (snd (take_turns turns ts s))).
Proof.
  induction turns as [|i turns IH]; intros ts s; cbn [take_turns].
  - reflexivity.
  - destruct (nth_error ts i) as [t|]; [|apply IH].
    rewrite turn_blind. destruct (turn t s) as [t' s']. cbn [fst snd]. apply IH.
Qed.

Lemma finish_all_blind {A} (file : option string) (ts : list (task A)) :
  forall s,
    finish_all ts (with_config_file file s)
    = (fst (finish_all ts s), with_config_file file (snd (finish_all ts s))).
Proof.
  induction ts as [|t ts IH]; intros s; cbn [finish_all].
  - reflexivity.
  - rewrite finish_blind. destruct (finish t s) as [r s1]. cbn [fst snd].
    rewrite IH. destruct (finish_all ts s1) as [rs s2]. reflexivity.
Qed.

Lemma blind_allSettled {A} (promises : list (task A)) :
  config_blind (Promise_allSettled promises).
Proof.
  intros file s. unfold Promise_allSettled. cbn [discord with_config_file].
  rewrite take_turns_blind.
  destruct (take_turns (schedule (discord s)) promises s) as [ts s1]. cbn [fst snd].
  rewrite finish_all_blind. destruct (finish_all ts s1) as [rs s2]. reflexivity.
Qed.

Lemma blind_Array_mapi_from {A B} (f : A -> nat -> M B) (l : list A) :
  (forall x i, config_blind (f x i)) ->
  forall i, config_blind (Array_mapi_from i f l).
Proof.
  intros Hf. induction l as [|x l IH]; intros i; cbn [Array_mapi_from].
  - apply blind_ret.
  - apply blind_bind; [apply Hf|]. intros y.
    apply blind_bind; [apply IH|]. intros ys. apply blind_ret.
Qed.

Lemma blind_Array_mapi {A B} (f : A -> nat -> M B) (l : list A) :
  (forall x i, config_blind (f x i)) -> config_blind (Array_mapi f l).
Proof. intros Hf. apply blind_Array_mapi_from. exact Hf. Qed.

Lemma blind_Array_map {A B} (f : A -> M B) (l : list A) :
  (forall x, config_blind (f x)) -> config_blind (Array_map f l).
Proof. intros Hf. apply blind_Array_mapi. intros x _. apply Hf. Qed.

Lemma blind_Date_now_M : config_blind Date_now_M.
Proof. intros file s. reflexivity. Qed.

Ltac blind_step :=
  first
    [ apply blind_perform | apply blind_ret | apply blind_throw | apply blind_lift
    | apply blind_Date_now_M
    | apply blind_try_catch
    | apply blind_start
    | apply blind_allSettled
    | apply blind_Array_map; intros ?
    | apply blind_Array_mapi; intros ? ?
    | match goal with
      | |- config_blind (bind get_state _) =>
          apply blind_with_state; [intros ? ? ?; reflexivity|intros ?]
      end
    | apply blind_bind; [|intros ?]
    | match goal with
      | |- config_blind (if ?b then _ else _) => destruct b
      | |- config_blind (match ?x with _ => _ end) => destruct x
      | |- config_blind (let _ := _ in _) => cbv zeta
      end ].

Ltac blind_steps := repeat blind_step.

Lemma blind_getGuild (id : jsval) : config_blind (getGuild id).
Proof. unfold getGuild. blind_steps. Qed.

Lemma blind_resolveMember (guild : Guild) (x : jsval) :
  config_blind (resolveMember guild x).
Proof. unfold resolveMember. blind_steps. Qed.

Lemma blind_resolveRole (guild : Guild) (x : jsval) :
  config_blind (resolveRole guild x).
Proof. unfold resolveRole. blind_steps. Qed.

Lemma blind_resolveTextChannel (guild : Guild) (x : jsval) :
  config_blind (resolveTextChannel guild x).
Proof. unfold resolveTextChannel. blind_steps. Qed.

Ltac blind_tool :=
  cbv beta delta
    [ snd arg
      create_channel create_category create_voice_channel mass_channels
      mass_categories mass_voice_channels delete mass_delete
      get_messages send_message reply_message edit_message mass_send_message
      delete_message mass_delete_message
      add_reaction create_role delete_role
      mass_create_role mass_delete_role assign_role
      remove_role kick_user ban_user unban_user time_out_user mass_ban
      mass_time_out ];
  repeat first
    [ apply blind_resolveMember | apply blind_resolveRole
    | apply blind_resolveTextChannel
    | blind_step ].

Lemma blind_guild_tools (guild : Guild) (args : jsval) :
  Forall (fun c => config_blind (snd c)) (guild_tools guild args).
Proof.
  unfold guild_tools. repeat (constructor; [solve [blind_tool]|]). constructor.
Qed.

Lemma blind_switch {A} (x : string) (cases : list (string * M A)) (d : M A) :
  Forall (fun c => config_blind (snd c)) cases ->
  config_blind d -> config_blind (switch x cases d).
Proof.
  intros Hcases Hd. unfold switch.
  induction Hcases as [|[k h] cases Hc _ IH]; [exact Hd|].
  cbn [find fst]. destruct (x =? k)%string; [exact Hc|exact IH].
Qed.

Lemma resolve_guild_named (args : jsval) (s : state) :
  names_guild args = true ->
  resolve_guild args s = getGuild (field "guild_id" args) s.
Proof.
  intros Hnames. unfold resolve_guild. apply bind_inr.
  unfold resolveGuildId, field. unfold names_guild in Hnames.
  destruct (get_prop args "guild_id") as [e|g]; [discriminate|].
  rewrite (bind_lift _ g _ _ eq_refl). rewrite Hnames. reflexivity.
Qed.

(** X7.  A guild-scoped call whose arguments name the guild neither reads
    nor writes the config file: whatever the file holds (nothing, a default
    guild, text that is not JSON), the call returns the same, makes the same
    calls of the client, and leaves the file as it is. *)
Theorem named_guild_ignores_config
    (name : string) (args : jsval) (file : option string) (s : state) :
  (forall n g a, config_blind (elsewhere n g a)) ->
  guild_free name = false ->
  names_guild args = true ->
  handleTool elsewhere name args (with_config_file file s)
  = (fst (handleTool elsewhere name args s),
     with_config_file file (snd (handleTool elsewhere name args s))).
Proof.
  intros Helse Hfree Hnames.
  assert (Hblind : config_blind
            ( requireDiscord ;;;
              guild <- resolve_guild args ;;
              switch name (guild_tools guild args)
                ( if existsb (String.eqb name) elsewhere_tools
                  then elsewhere name guild args
                  else throw (Error ("Unknown tool: " ++ name)) ) )%js).
  { apply blind_bind; [apply blind_lift|]. intros _.
    apply blind_bind.
    - intros file' s'. rewrite !(resolve_guild_named args _ Hnames).
      apply blind_getGuild.
    - intros guild. apply blind_switch; [apply blind_guild_tools|].
      destruct (existsb (String.eqb name) elsewhere_tools);
        [apply Helse|apply blind_throw]. }
  rewrite !(handleTool_guild_scoped name args _ Hfree). apply Hblind.
Qed.

(** *** The guild tools and the stored default *)

(** X8.  [get_guild] does not fail on a config that is not [null]: without a
    default it says so; with a default that the client knows it names that
    guild; and a default that the client does not know (the bot has left
    the server) is reported as saved, with a note, instead of the error of
    [getGuild].  Nothing changes. *)
Theorem get_guild_never_fails (args : jsval) (s : state) :
  discordReady = inr tt ->
  nullish (stored_config s) = false ->
  handleTool elsewhere "get_guild" args s
  = (inr (if truthy (stored_default s) then
            match known_guild s (stored_default s) with
            | Some guild =>
                JObj [ ("default_guild_id", stored_default s);
                       ("guild_name", JStr (guild_name guild));
                       ("member_count", JNum (guild_memberCount guild)) ]
            | None =>
                JObj [ ("default_guild_id", stored_default s);
                       ("message",
                        JStr "Saved but bot may no longer be in this server") ]
            end
          else
            JObj [ ("default_guild_id", JNull);
                   ("message", JStr "No default guild set. Use set_guild.") ]), s).
Proof.
  intros Hready Hconfig.
  rewrite handleTool_get_guild.
  unfold requireDiscord. rewrite (bind_lift _ tt _ _ Hready).
  unfold get_guild.
  rewrite (bind_inr _ _ _ _ _ (loadConfig_returns s)).
  rewrite (get_prop_field _ _ Hconfig). fold (stored_default s).
  rewrite (bind_lift _ (stored_default s) _ _ eq_refl).
  destruct (truthy (stored_default s)); cbn [negb]; [|reflexivity].
  unfold bind, try_catch. rewrite getGuild_run.
  destruct (known_guild s (stored_default s)); reflexivity.
Qed.

Lemma assoc_set_twice (k : string) (v v' : jsval) ps :
  assoc_set k v' (assoc_set k v ps) = assoc_set k v' ps.
Proof.
  induction ps as [|[k0 v0] ps IH]; cbn [assoc_set].
  - rewrite String.eqb_refl. reflexivity.
  - destruct (k =? k0)%string eqn:E; cbn [assoc_set].
    + rewrite String.eqb_refl. reflexivity.
    + rewrite E, IH. reflexivity.
Qed.

(** X9.  The last [set_guild] wins, and an earlier one leaves no trace: a
    [set_guild] that follows another one returns what it would have returned
    without it, and leaves the state, config file included, that it would
    have left without it.  In particular a repeated [set_guild] changes
    nothing more. *)
Theorem set_guild_last_call_wins
    (args1 args2 g1 g2 : jsval) (guild1 guild2 : Guild) ps (s : state) :
  discordReady = inr tt ->
  get_prop args1 "guild_id" = inr g1 ->
  get_prop args2 "guild_id" = inr g2 ->
  known_guild s g1 = Some guild1 ->
  known_guild s g2 = Some guild2 ->
  stored_config s = JObj ps ->
  JSON_parse (JSON_stringify (JObj (assoc_set "default_guild_id" g1 ps)))
  = Some (JObj (assoc_set "default_guild_id" g1 ps)) ->
  handleTool elsewhere "set_guild" args2
    (snd (handleTool elsewhere "set_guild" args1 s))
  = handleTool elsewhere "set_guild" args2 s.
Proof.
  intros Hready H1 H2 Hg1 Hg2 Hps Hround.
  rewrite (set_guild_run args1 g1 guild1 ps s Hready H1 Hg1 Hps). cbn [snd].
  pose proof (set_guild_run args2 g2 guild2 ps s Hready H2 Hg2 Hps) as E2.
  pose proof (set_guild_run args2 g2 guild2 (assoc_set "default_guild_id" g1 ps)
                {| config_file :=
                     Some (JSON_stringify (JObj (assoc_set "default_guild_id" g1 ps)));
                   discord := discord s; calls := calls s |}
                Hready H2 Hg2) as E1.
  etransitivity; [apply E1|].
  - erewrite stored_config_present; [|reflexivity]. rewrite Hround. reflexivity.
  - cbn [discord calls]. rewrite assoc_set_twice. symmetry. exact E2.
Qed.

(** X10.  [loadConfig] falls back to the empty config only for a file that
    is missing or is not JSON.  A file that holds the JSON text of [null] is
    loaded as [null], and then [get_guild], [list_guilds] and a [set_guild]
    for a known guild all fail with a TypeError, as does every guild-scoped
    call that names no guild; none of them changes anything. *)
Theorem null_config_breaks_guild_tools
    (text : string) (name : string) (args : jsval) (s : state) :
  config_file s = Some text ->
  JSON_parse text = Some JNull ->
  discordReady = inr tt ->
  loadConfig s = (inr JNull, s)
  /\ handleTool elsewhere "get_guild" args s
     = (inl (TypeError "Cannot read properties of null (reading 'default_guild_id')"), s)
  /\ handleTool elsewhere "list_guilds" args s
     = (inl (TypeError "Cannot read properties of null (reading 'default_guild_id')"), s)
  /\ (forall g guild,
        get_prop args "guild_id" = inr g -> known_guild s g = Some guild ->
        handleTool elsewhere "set_guild" args s
        = (inl (TypeError "Cannot set properties of null (setting 'default_guild_id')"),
           s))
  /\ (guild_free name = false -> nullish args = false -> names_guild args = false ->
      handleTool elsewhere name args s
      = (inl (TypeError "Cannot read properties of null (reading 'default_guild_id')"),
         s)).
Proof.
  intros Hfile Hparse Hready.
  assert (Hnull : stored_config s = JNull).
  { rewrite (stored_config_present _ _ Hfile), Hparse. reflexivity. }
  assert (Hload : loadConfig s = (inr JNull, s)).
  { rewrite loadConfig_returns, Hnull. reflexivity. }
  split; [exact Hload|]. split; [|split; [|split]].
  - rewrite handleTool_get_guild.
    unfold requireDiscord. rewrite (bind_lift _ tt _ _ Hready).
    unfold get_guild. rewrite (bind_inr _ _ _ _ _ Hload). reflexivity.
  - rewrite handleTool_list_guilds.
    unfold requireDiscord. rewrite (bind_lift _ tt _ _ Hready).
    unfold list_guilds. rewrite (bind_inr _ _ _ _ _ Hload). reflexivity.
  - intros g guild Hg Hknown.
    rewrite handleTool_set_guild.
    unfold requireDiscord. rewrite (bind_lift _ tt _ _ Hready).
    unfold set_guild, arg. rewrite (bind_lift _ g _ _ Hg).
    assert (Hguild : getGuild g s = (inr guild, s))
      by (rewrite getGuild_run, Hknown; reflexivity).
    rewrite (bind_inr _ _ _ _ _ Hguild).
    rewrite (bind_inr _ _ _ _ _ Hload). reflexivity.
  - intros Hfree Hargs Hnames.
    rewrite (handleTool_guild_scoped name args s Hfree).
    unfold requireDiscord. rewrite (bind_lift _ tt _ _ Hready).
    apply bind_inl. unfold resolve_guild. apply bind_inl.
    unfold resolveGuildId. unfold names_guild in Hnames.
    rewrite (get_prop_field _ _ Hargs) in Hnames |- *.
    rewrite (bind_lift _ _ _ _ eq_refl). rewrite Hnames.
    rewrite (bind_inr _ _ _ _ _ Hload). reflexivity.
Qed.

(** X11.  [list_guilds] lists the guilds of the client cache, each once and
    in the order of the cache, and flags as default exactly the guilds whose
    identifier is the stored default.  Nothing changes. *)
Theorem list_guilds_flags_the_default (args : jsval) (s : state) :
  discordReady = inr tt ->
  nullish (stored_config s) = false ->
  exists entries,
    handleTool elsewhere "list_guilds" args s
    = (inr (JObj [ ("guilds", JArr entries);
                   ("default_guild_id", js_or (stored_default s) JNull) ]), s)
    /\ List.length entries = List.length (guilds_cache (discord s))
    /\ forall i g,
         nth_error (guilds_cache (discord s)) i = Some g ->
         exists entry,
           nth_error entries i = Some entry
           /\ field "id" entry = JStr (guild_id g)
           /\ field "name" entry = JStr (guild_name g)
           /\ (field "is_default" entry = JBool true
               <-> stored_default s = JStr (guild_id g)).
Proof.
  intros Hready Hconfig.
  eexists. split; [|split].
  - rewrite handleTool_list_guilds.
    unfold requireDiscord. rewrite (bind_lift _ tt _ _ Hready).
    unfold list_guilds.
    rewrite (bind_inr _ _ _ _ _ (loadConfig_returns s)).
    rewrite (get_prop_field _ _ Hconfig). fold (stored_default s).
    rewrite (bind_lift _ (stored_default s) _ _ eq_refl).
    reflexivity.
  - apply length_map.
  - intros i g Hg. eexists. split; [apply map_nth_error; exact Hg|].
    split; [reflexivity|]. split; [reflexivity|].
    change (field "is_default" (JObj _))
      with (JBool (strict_eq_str (guild_id g) (stored_default s))).
    unfold strict_eq_str. destruct (stored_default s) as [| |b|n| |t|l|o|d];
      try (split; discriminate).
    destruct (String.eqb_spec (guild_id g) t) as [->|Hne].
    + split; reflexivity.
    + split; [discriminate|]. intros E. inversion E. subst. contradiction.
Qed.

(** *** Names, whatever the case of their letters *)

(** X12.  Members and roles are found by name whatever the case of the
    letters of the token: two tokens that differ only in the case of their
    letters resolve to the same member and to the same role, fail together,
    and cause the same calls of the client.  (Only the error message, which
    quotes the token, can tell them apart.) *)
Theorem names_resolve_in_any_case (guild : Guild) (a b : string) (s : state) :
  same_ignoring_case a b ->
  snd (resolveMember guild (JStr a) s) = snd (resolveMember guild (JStr b) s)
  /\ (forall m, fst (resolveMember guild (JStr a) s) = inr m
                <-> fst (resolveMember guild (JStr b) s) = inr m)
  /\ (forall r, fst (resolveRole guild (JStr a) s) = inr r
                <-> fst (resolveRole guild (JStr b) s) = inr r).
Proof.
  intros Hab.
  destruct (snowflake_test a) eqn:Ha.
  { rewrite <- (same_case_snowflake a b Hab Ha). repeat split; intros H; exact H. }
  assert (Hb : snowflake_test b = false).
  { destruct (snowflake_test b) eqn:Hb; [|reflexivity].
    assert (Hba : same_ignoring_case b a) by (symmetry; exact Hab).
    rewrite (same_case_snowflake b a Hba Hb) in Hb. congruence. }
  split; [|split].
  - unfold resolveMember. change (ToString (JStr a)) with a.
    change (ToString (JStr b)) with b. rewrite Ha, Hb.
    unfold bind, perform, lift, get_state, call_toLowerCase.
    destruct (exec (Guild_members_fetch guild) (discord s)) as [[e|[]] d];
      [reflexivity|]. rewrite Hab.
    destruct (find (member_matches (toLowerCase b)) _); reflexivity.
  - intros m. unfold resolveMember. change (ToString (JStr a)) with a.
    change (ToString (JStr b)) with b. rewrite Ha, Hb.
    unfold bind, perform, lift, get_state, call_toLowerCase.
    destruct (exec (Guild_members_fetch guild) (discord s)) as [[e|[]] d];
      [split; intros H; exact H|]. rewrite Hab.
    destruct (find (member_matches (toLowerCase b)) _);
      cbn [fst ret throw]; split; intros H; first [exact H | discriminate H].
  - intros r. rewrite (resolveRole_by_name guild a s Ha).
    rewrite (resolveRole_by_name guild b s Hb). rewrite Hab.
    destruct (find _ _); cbn [fst]; split; intros H;
      first [exact H | discriminate H].
Qed.

(** *** Deleting channels and roles *)

Lemma bind_get_state {A} (k : state -> M A) (s : state) :
  bind get_state k s = k s s.
Proof. reflexivity. Qed.

(** X13.  [delete] and [delete_role] act on the caches only.  An identifier
    that the cache does not hold is refused with [... not found] before any
    call of the client; for one that it holds there is exactly one call, the
    deletion of the cached object, and the answer carries the name the
    object had in the cache. *)
Theorem delete_goes_by_the_cache (guild : Guild) (args : jsval) (s : state) :
  nullish args = false ->
  match cache_get channel_id (channels_cache (discord s) guild)
          (field "channel_id" args) with
  | None =>
      delete guild args s
      = (inl (Error ("Channel " ++ ToString (field "channel_id" args)
                     ++ " not found")), s)
  | Some ch =>
      makes_calls (delete guild args) s [Logged (Channel_delete ch)]
      /\ (forall r, fst (delete guild args s) = inr r ->
            r = JObj [ ("deleted", field "channel_id" args);
                       ("name", JStr (channel_name ch)) ])
  end
  /\
  match cache_get role_id (roles_cache (discord s) guild) (field "role_id" args) with
  | None =>
      delete_role guild args s
      = (inl (Error ("Role " ++ ToString (field "role_id" args) ++ " not found")), s)
  | Some role =>
      makes_calls (delete_role guild args) s [Logged (Role_delete role)]
      /\ (forall r, fst (delete_role guild args s) = inr r ->
            r = JObj [ ("deleted", field "role_id" args);
                       ("name", JStr (role_name role)) ])
  end.
Proof.
  intros Hargs. split.
  - unfold makes_calls, delete, arg. rewrite (get_prop_field _ _ Hargs).
    rewrite (bind_lift _ _ _ _ eq_refl).
    rewrite bind_get_state.
    destruct (cache_get channel_id _ _) as [ch|]; [|reflexivity].
    cbv zeta. unfold bind, perform.
    destruct (exec (Channel_delete ch) (discord s)) as [[e|[]] d]; cbn [fst snd calls].
    + split; [reflexivity|discriminate].
    + split; [reflexivity|]. intros r H. inversion H. reflexivity.
  - unfold makes_calls, delete_role, arg. rewrite (get_prop_field _ _ Hargs).
    rewrite (bind_lift _ _ _ _ eq_refl).
    rewrite bind_get_state.
    destruct (cache_get role_id _ _) as [role|]; [|reflexivity].
    cbv zeta. unfold bind, perform.
    destruct (exec (Role_delete role) (discord s)) as [[e|[]] d]; cbn [fst snd calls].
    + split; [reflexivity|discriminate].
    + split; [reflexivity|]. intros r H. inversion H. reflexivity.
Qed.

(** *** Moderation *)

Lemma calls_after_perform {A} (c : call A) (s : state) :
  calls (snd (perform c s)) = (calls s ++ [Logged c])%list.
Proof. unfold perform. destruct (exec c (discord s)). reflexivity. Qed.

Lemma bind_success {A B} (m : M A) (k : A -> M B) (s s' : state) (b : B) :
  bind m k s = (inr b, s') ->
  exists a s1, m s = (inr a, s1) /\ k a s1 = (inr b, s').
Proof.
  unfold bind. destruct (m s) as [[e|a] s1]; [discriminate|].
  intros H. exists a, s1. split; [reflexivity|exact H].
Qed.

(** X14.  The four moderation tools report the reason they acted on: when
    [kick_user], [ban_user], [unban_user] or [time_out_user] succeeds, the
    last call of the client is the moderation call, the reason it handed to
    the platform is the reason of the answer, and that reason is the
    [reason] argument, or [No reason provided] when the argument is missing
    or empty. *)
Theorem moderation_reason_is_reported
    (tool : Guild -> jsval -> M jsval) (guild : Guild) (args r : jsval)
    (s s' : state) :
  In tool [kick_user; ban_user; unban_user; time_out_user] ->
  nullish args = false ->
  tool guild args s = (inr r, s') ->
  exists before l,
    calls s' = (calls s ++ before ++ [l])%list
    /\ reason_sent l = Some (field "reason" r)
    /\ field "reason" r
       = (if truthy (field "reason" args) then field "reason" args
          else JStr "No reason provided").
Proof.
  intros Htool Hargs.
  pose proof (fun k => get_prop_field args k Hargs) as Hget.
  destruct Htool as [<-|[<-|[<-|[<-|[]]]]].
  - unfold kick_user, arg. rewrite !Hget.
    rewrite (bind_lift _ _ _ _ eq_refl). intros H.
    apply bind_success in H. destruct H as [member [s1 [Hm H]]].
    rewrite (bind_lift _ _ _ _ eq_refl) in H.
    apply bind_success in H. destruct H as [[] [s2 [Hk H]]].
    inversion H. subst r s'. clear H.
    pose proof (resolveMember_one_call guild (field "user_id" args) s) as Hc.
    unfold makes_calls in Hc. rewrite Hm in Hc. cbn [snd] in Hc.
    pose proof (calls_after_perform
                  (Member_kick member (no_reason (field "reason" args))) s1) as Hp.
    rewrite Hk in Hp. cbn [snd] in Hp.
    eexists _, _. split; [rewrite Hp, Hc, <- app_assoc; reflexivity|].
    split; reflexivity.
  - unfold ban_user, arg. rewrite !Hget.
    rewrite (bind_lift _ _ _ _ eq_refl). intros H.
    apply bind_success in H. destruct H as [member [s1 [Hm H]]].
    rewrite !(bind_lift _ _ _ _ eq_refl) in H.
    apply bind_success in H. destruct H as [[] [s2 [Hk H]]].
    inversion H. subst r s'. clear H.
    pose proof (resolveMember_one_call guild (field "user_id" args) s) as Hc.
    unfold makes_calls in Hc. rewrite Hm in Hc. cbn [snd] in Hc.
    match type of Hk with perform ?c _ = _ =>
      pose proof (calls_after_perform c s1) as Hp end.
    rewrite Hk in Hp. cbn [snd] in Hp.
    eexists _, _. split; [rewrite Hp, Hc, <- app_assoc; reflexivity|].
    split; reflexivity.
  - unfold unban_user, arg. rewrite !Hget.
    rewrite !(bind_lift _ _ _ _ eq_refl). intros H.
    apply bind_success in H. destruct H as [[] [s2 [Hk H]]].
    inversion H. subst r s'. clear H.
    match type of Hk with perform ?c _ = _ =>
      pose proof (calls_after_perform c s) as Hp end.
    rewrite Hk in Hp. cbn [snd] in Hp.
    exists []. eexists. split; [rewrite Hp; reflexivity|].
    split; reflexivity.
  - unfold time_out_user, arg. rewrite !Hget.
    rewrite (bind_lift _ _ _ _ eq_refl). intros H.
    apply bind_success in H. destruct H as [member [s1 [Hm H]]].
    cbv zeta in H. rewrite !(bind_lift _ _ _ _ eq_refl) in H.
    apply bind_success in H. destruct H as [[] [s2 [Hk H]]].
    unfold bind, Date_now_M, ret in H.
    inversion H. subst r s'. clear H.
    pose proof (resolveMember_one_call guild (field "user_id" args) s) as Hc.
    unfold makes_calls in Hc. rewrite Hm in Hc. cbn [snd] in Hc.
    match type of Hk with perform ?c _ = _ =>
      pose proof (calls_after_perform c s1) as Hp end.
    rewrite Hk in Hp. cbn [snd] in Hp.
    eexists _, _. split; [rewrite Hp, Hc, <- app_assoc; reflexivity|].
    split; reflexivity.
Qed.

(** *** Batches without a list *)

(** X15.  A batch tool maps over its list argument before it does anything
    for an item: when the argument is missing, [null] or anything but an
    array, the whole call fails with the TypeError of that [map], no item is
    processed, and the state is the one the setup left (the state before the
    call for the nine tools without a setup, the state after the resolution
    of the channel for [mass_delete_message]). *)
Theorem batch_needs_an_array
    (b : batch_tool) (args : jsval) (guild : Guild) (ctx : bt_context b)
    (s s0 : state) (e : exn) :
  In b batch_tools ->
  discordReady = inr tt ->
  resolve_guild args s = (inr guild, s) ->
  bt_setup b guild args s = (inr ctx, s0) ->
  as_array (field (bt_list b) args) = inl e ->
  handleTool elsewhere (bt_name b) args s = (inl e, s0).
Proof.
  intros Hb Hready Hguild Hsetup Hlist.
  pose proof (resolve_guild_args _ _ _ _ Hguild) as Hargs.
  pose proof (fun k => get_prop_field args k Hargs) as Hget.
  assert (Hmap : forall {A} k (f : list jsval -> M A) st,
             as_array (field k args) = inl e ->
             bind (lift (get_prop args k))
                  (fun v => bind (lift (as_array v)) f) st = (inl e, st)).
  { intros A k f st Hk. rewrite Hget. rewrite (bind_lift _ _ _ _ eq_refl).
    apply bind_inl. unfold lift. rewrite Hk. reflexivity. }
  repeat (destruct Hb as [<-|Hb]); [..|destruct Hb]; bt_simpl;
    try (apply no_setup_run in Hsetup; subst s0).
  - rewrite (handleTool_case "mass_channels" args guild s Hready eq_refl Hguild).
    change (switch "mass_channels" (guild_tools guild args) _)
      with (mass_channels guild args).
    apply Hmap. exact Hlist.
  - rewrite (handleTool_case "mass_categories" args guild s Hready eq_refl Hguild).
    change (switch "mass_categories" (guild_tools guild args) _)
      with (mass_categories guild args).
    apply Hmap. exact Hlist.
  - rewrite (handleTool_case "mass_voice_channels" args guild s Hready eq_refl Hguild).
    change (switch "mass_voice_channels" (guild_tools guild args) _)
      with (mass_voice_channels guild args).
    apply Hmap. exact Hlist.
  - rewrite (handleTool_case "mass_delete" args guild s Hready eq_refl Hguild).
    change (switch "mass_delete" (guild_tools guild args) _)
      with (mass_delete guild args).
    apply Hmap. exact Hlist.
  - rewrite (handleTool_case "mass_send_message" args guild s Hready eq_refl Hguild).
    change (switch "mass_send_message" (guild_tools guild args) _)
      with (mass_send_message guild args).
    apply Hmap. exact Hlist.
  - rewrite (handleTool_case "mass_delete_message" args guild s Hready eq_refl Hguild).
    change (switch "mass_delete_message" (guild_tools guild args) _)
      with (mass_delete_message guild args).
    unfold mass_delete_message.
    rewrite <- (bind_assoc (arg args "channel_id") (resolveTextChannel guild) _ s).
    rewrite (bind_inr _ _ _ _ _ Hsetup).
    apply Hmap. exact Hlist.
  - rewrite (handleTool_case "mass_create_role" args guild s Hready eq_refl Hguild).
    change (switch "mass_create_role" (guild_tools guild args) _)
      with (mass_create_role guild args).
    apply Hmap. exact Hlist.
  - rewrite (handleTool_case "mass_delete_role" args guild s Hready eq_refl Hguild).
    change (switch "mass_delete_role" (guild_tools guild args) _)
      with (mass_delete_role guild args).
    apply Hmap. exact Hlist.
  - rewrite (handleTool_case "mass_ban" args guild s Hready eq_refl Hguild).
    change (switch "mass_ban" (guild_tools guild args) _)
      with (mass_ban guild args).
    apply Hmap. exact Hlist.
  - rewrite (handleTool_case "mass_time_out" args guild s Hready eq_refl Hguild).
    change (switch "mass_time_out" (guild_tools guild args) _)
      with (mass_time_out guild args).
    unfold mass_time_out, arg. rewrite (Hget "duration_minutes").
    rewrite (bind_lift _ _ _ _ eq_refl). cbv zeta.
    apply (Hmap _ "user_ids"). exact Hlist.
Qed.

(** *** A batch of one *)

Lemma get_prop_first (k : string) (v : jsval) ps :
  get_prop (JObj ((k, v) :: ps)) k = inr v.
Proof. unfold get_prop. cbn [assoc]. rewrite String.eqb_refl. reflexivity. Qed.

Lemma batch_of_one {A} (launch : jsval -> M (task A)) (op : T A) (item : jsval)
    (outcome : settled A -> nat -> M jsval) (s : state) :
  launch item s = start op s ->
  ( promises <- Array_map launch [item] ;;
    results <- Promise_allSettled promises ;;
    outcomes <- Array_mapi outcome results ;;
    ret (JArr outcomes) )%js s
  = ( y <- outcome (fst (awaited op s)) O ;; ret (JArr [y]) )%js (snd (awaited op s)).
Proof.
  intros Hl. unfold Array_map, Array_mapi, awaited. cbn [Array_mapi_from].
  unfold bind, ret. rewrite Hl. unfold start. rewrite allSettled_one.
  destruct (finish (op (discord s)) (issue (op (discord s)) s)) as [r s1].
  cbn [fst snd Array_mapi_from]. unfold bind, ret.
  destruct (outcome r O s1) as [[e|y] s2]; reflexivity.
Qed.

Lemma awaited_mass_delete_item (guild : Guild) (id : jsval) (s : state) :
  awaited (mass_delete_item guild id) s
  = ( s0 <- get_state ;;
      match cache_get channel_id (channels_cache (discord s0) guild) id with
      | None => throw (Error ("Channel " ++ ToString id ++ " not found"))
      | Some ch =>
          perform (Channel_delete ch) ;;;
          ret (JObj [ ("id", id); ("name", JStr (channel_name ch)) ])
      end )%js s.
Proof.
  unfold mass_delete_item. rewrite awaited_client.
  apply bind_cong; [reflexivity|]. intros s0 s1.
  destruct (cache_get channel_id (channels_cache (discord s0) guild) id);
    [|reflexivity].
  cbv zeta. rewrite awaited_bind. apply bind_cong; [apply awaited_call|].
  intros _ s2. reflexivity.
Qed.

Lemma awaited_mass_delete_role_item (guild : Guild) (id : jsval) (s : state) :
  awaited (mass_delete_role_item guild id) s
  = ( s0 <- get_state ;;
      match cache_get role_id (roles_cache (discord s0) guild) id with
      | None => throw (Error ("Role " ++ ToString id ++ " not found"))
      | Some role =>
          perform (Role_delete role) ;;;
          ret (JObj [ ("id", id); ("name", JStr (role_name role)) ])
      end )%js s.
Proof.
  unfold mass_delete_role_item. rewrite awaited_client.
  apply bind_cong; [reflexivity|]. intros s0 s1.
  destruct (cache_get role_id (roles_cache (discord s0) guild) id);
    [|reflexivity].
  cbv zeta. rewrite awaited_bind. apply bind_cong; [apply awaited_call|].
  intros _ s2. reflexivity.
Qed.

Lemma awaited_mass_send_message_item (guild : Guild) (m : jsval) (s : state) :
  awaited (mass_send_message_item guild m) s
  = ( id <- lift (get_prop m "channel_id") ;;
      channel <- resolveTextChannel guild id ;;
      body <- lift (get_prop m "content") ;;
      msg <- perform (Channel_send channel body) ;;
      ret (JObj [ ("message_id", JStr (message_id msg)); ("channel_id", id) ]) )%js s.
Proof.
  unfold mass_send_message_item.
  rewrite awaited_bind. apply bind_cong; [reflexivity|]. intros id s1.
  rewrite awaited_bind. apply bind_cong.
  { rewrite awaited_await. apply async_resolveTextChannel_awaited. }
  intros channel s2.
  rewrite awaited_bind. apply bind_cong; [reflexivity|]. intros body s3.
  rewrite awaited_bind. apply bind_cong; [apply awaited_call|]. intros msg s4.
  reflexivity.
Qed.

Ltac lone_batch Hget :=
  cbv beta delta
    [ arg
      create_channel create_category create_voice_channel mass_channels
      mass_categories mass_voice_channels delete mass_delete
      send_message mass_send_message
      create_role delete_role mass_create_role mass_delete_role ];
  rewrite ?get_prop_first;
  repeat first [ rewrite (bind_lift _ _ _ _ eq_refl) | progress cbn [as_array] ];
  try (erewrite batch_of_one
         by (rewrite ?Hget; cbv beta iota delta [bind lift]; reflexivity));
  rewrite ?awaited_call, ?awaited_mass_delete_item,
    ?awaited_mass_delete_role_item, ?awaited_mass_send_message_item;
  repeat first
    [ rewrite get_prop_first
    | rewrite Hget
    | progress cbn [array_get nth]
    | progress cbv beta iota zeta delta
        [bind lift perform ret throw get_state] ].

Ltac lone_close Hget :=
  lone_batch Hget;
  repeat match goal with
  | |- context [exec ?c ?d] => destruct (exec c d) as [[?|?] ?]; lone_batch Hget
  | |- context [resolveTextChannel ?g ?x ?s] =>
      destruct (resolveTextChannel g x s) as [[?|?] ?]; lone_batch Hget
  | |- context [cache_get ?f ?l ?k] => destruct (cache_get f l k); lone_batch Hget
  end;
  cbn [fst snd lone_outcome];
  first [ reflexivity
        | eexists; split; [reflexivity|]; repeat split; repeat constructor ].

(** X16.  A batch of one item does what the single tool does: for each of
    the seven batch tools that have a single counterpart, the batch with a
    one-item list leaves the state that the single tool leaves for that
    item, and its one outcome reports the settlement of the single tool: its
    error message when it failed, the success status and the same identifier
    (or name) when it succeeded. *)
Theorem batch_of_one_is_the_single_tool
    (guild : Guild) (item v : jsval) (s : state) :
  nullish item = false ->
  ( snd (mass_channels guild (JObj [("channels", JArr [item])]) s)
    = snd (create_channel guild item s)
    /\ lone_outcome "name" (field "name" item) "created" [("id", "id")]
         (fst (create_channel guild item s))
         (fst (mass_channels guild (JObj [("channels", JArr [item])]) s)) )
  /\
  ( snd (mass_voice_channels guild (JObj [("channels", JArr [item])]) s)
    = snd (create_voice_channel guild item s)
    /\ lone_outcome "name" (field "name" item) "created" [("id", "id")]
         (fst (create_voice_channel guild item s))
         (fst (mass_voice_channels guild (JObj [("channels", JArr [item])]) s)) )
  /\
  ( snd (mass_create_role guild (JObj [("roles", JArr [item])]) s)
    = snd (create_role guild item s)
    /\ lone_outcome "name" (field "name" item) "created" [("id", "id")]
         (fst (create_role guild item s))
         (fst (mass_create_role guild (JObj [("roles", JArr [item])]) s)) )
  /\
  ( snd (mass_send_message guild (JObj [("messages", JArr [item])]) s)
    = snd (send_message guild item s)
    /\ lone_outcome "channel_id" (field "channel_id" item) "sent"
         [("message_id", "message_id")]
         (fst (send_message guild item s))
         (fst (mass_send_message guild (JObj [("messages", JArr [item])]) s)) )
  /\
  ( snd (mass_categories guild (JObj [("names", JArr [v])]) s)
    = snd (create_category guild (JObj [("name", v)]) s)
    /\ lone_outcome "name" v "created" [("id", "id")]
         (fst (create_category guild (JObj [("name", v)]) s))
         (fst (mass_categories guild (JObj [("names", JArr [v])]) s)) )
  /\
  ( snd (mass_delete guild (JObj [("channel_ids", JArr [v])]) s)
    = snd (delete guild (JObj [("channel_id", v)]) s)
    /\ lone_outcome "id" v "deleted" [("name", "name")]
         (fst (delete guild (JObj [("channel_id", v)]) s))
         (fst (mass_delete guild (JObj [("channel_ids", JArr [v])]) s)) )
  /\
  ( snd (mass_delete_role guild (JObj [("role_ids", JArr [v])]) s)
    = snd (delete_role guild (JObj [("role_id", v)]) s)
    /\ lone_outcome "id" v "deleted" [("name", "name")]
         (fst (delete_role guild (JObj [("role_id", v)]) s))
         (fst (mass_delete_role guild (JObj [("role_ids", JArr [v])]) s)) ).
Proof.
  intros Hitem.
  pose proof (fun k => get_prop_field item k Hitem) as Hget.
  repeat match goal with |- _ /\ _ => split end; lone_close Hget.
Qed.

(** *** Threads *)


(** X18.  The tool [send_thread_message], in a dispatcher whose case of that
    name is the body above: once the guild is resolved, the tool sends to
    the thread that [fetchThread] found, once, and answers with the
    identifier of the message and with the identifier and the content it
    was given. *)
Theorem send_thread_message_sends_once
    (isThread : Channel -> bool) (guild : Guild) (args : jsval)
    (thread : Channel) (s s1 : state) :
  (forall g a,
     elsewhere "send_thread_message" g a = send_thread_message isThread g a) ->
  discordReady = inr tt ->
  resolve_guild args s = (inr guild, s) ->
  fetchThread isThread guild (field "thread_id" args) s = (inr thread, s1) ->
  calls (snd (handleTool elsewhere "send_thread_message" args s))
  = (calls s1 ++ [Logged (Channel_send thread (field "content" args))])%list
  /\ (forall r s2,
        handleTool elsewhere "send_thread_message" args s = (inr r, s2) ->
        exists msg,
          fst (perform (Channel_send thread (field "content" args)) s1) = inr msg
          /\ r = JObj [ ("message_id", JStr (message_id msg));
                        ("thread_id", field "thread_id" args);
                        ("content", field "content" args) ]).
Proof.
  intros Hcase Hready Hguild Hthread.
  pose proof (resolve_guild_args _ _ _ _ Hguild) as Hargs.
  pose proof (fun k => get_prop_field args k Hargs) as Hget.
  assert (Hrun : handleTool elsewhere "send_thread_message" args s
                 = bind (perform (Channel_send thread (field "content" args)))
                     (fun msg =>
                        ret (JObj [ ("message_id", JStr (message_id msg));
                                    ("thread_id", field "thread_id" args);
                                    ("content", field "content" args) ])) s1).
  { rewrite (handleTool_case "send_thread_message" args guild s Hready eq_refl Hguild).
    change (switch "send_thread_message" (guild_tools guild args) _)
      with (elsewhere "send_thread_message" guild args).
    rewrite Hcase. unfold send_thread_message, arg. rewrite !Hget.
    rewrite (bind_lift _ _ _ _ eq_refl). rewrite (bind_inr _ _ _ _ _ Hthread).
    rewrite (bind_lift _ _ _ _ eq_refl). reflexivity. }
  split.
  - rewrite Hrun. unfold bind, perform.
    destruct (exec _ (discord s1)) as [[e|msg] d]; reflexivity.
  - intros r s2. rewrite Hrun. unfold bind, perform.
    destruct (exec _ (discord s1)) as [[e|msg] d]; [discriminate|].
    intros H. inversion H. exists msg. split; reflexivity.
Qed.

(** *** A time-out without a duration *)

(** X19.  [time_out_user] does not check its duration.  When
    [duration_minutes] is missing, or is a value that is no object and has
    no numeric value, the product that is handed to the platform as the
    length of the time-out is NaN; and should the platform accept the call,
    the answer carries an invalid date as the end of the time-out. *)
Theorem time_out_without_duration
    (args : jsval) (guild : Guild) (member : Member) (s s1 : state) :
  discordReady = inr tt ->
  resolve_guild args s = (inr guild, s) ->
  resolveMember guild (field "user_id" args) s = (inr member, s1) ->
  primitive (field "duration_minutes" args) = true ->
  ToNumber (field "duration_minutes" args) = None ->
  calls (snd (handleTool elsewhere "time_out_user" args s))
  = (calls s1 ++ [Logged (Member_timeout member JNaN
                            (no_reason (field "reason" args)))])%list
  /\ (forall r s2,
        handleTool elsewhere "time_out_user" args s = (inr r, s2) ->
        field "until" r = JDate None
        /\ field "duration_minutes" r = field "duration_minutes" args).
Proof.
  intros Hready Hguild Hmember _ Hnan.
  pose proof (resolve_guild_args _ _ _ _ Hguild) as Hargs.
  pose proof (fun k => get_prop_field args k Hargs) as Hget.
  rewrite (handleTool_case "time_out_user" args guild s Hready eq_refl Hguild).
  change (switch "time_out_user" (guild_tools guild args) _)
    with (time_out_user guild args).
  unfold time_out_user, arg. rewrite !Hget.
  rewrite (bind_lift _ _ _ _ eq_refl). rewrite (bind_inr _ _ _ _ _ Hmember).
  cbv zeta. rewrite !(bind_lift _ _ _ _ eq_refl).
  assert (Hms : minutes_to_ms (field "duration_minutes" args) = JNaN).
  { unfold minutes_to_ms, js_mul. rewrite Hnan. reflexivity. }
  rewrite Hms. unfold bind, perform, Date_now_M, ret.
  destruct (exec _ (discord s1)) as [[e|[]] d]; cbn [snd calls].
  - split; [reflexivity|]. intros r s2 H. discriminate H.
  - split; [reflexivity|]. intros r s2 H. inversion H. split; reflexivity.
Qed.

(** *** Role changes *)

(** X20.  [assign_role] and [remove_role] resolve the member first and the
    role second, and change roles only when both were found.  With the
    member resolved: a role that does not resolve fails the call with the
    error of [resolveRole], after the member fetch and without any other
    call; a role that resolves causes exactly one more call, the addition
    or the removal of that role for that member, and the answer names the
    member and the role that were resolved, not the tokens that were given. *)
Theorem role_change_after_both_resolve
    (guild : Guild) (args : jsval) (member : Member) (s s1 : state) :
  nullish args = false ->
  resolveMember guild (field "user_id" args) s = (inr member, s1) ->
  match fst (resolveRole guild (field "role_id" args) s1) with
  | inl e =>
      assign_role guild args s = (inl e, s1)
      /\ remove_role guild args s = (inl e, s1)
  | inr role =>
      calls (snd (assign_role guild args s))
      = (calls s1 ++ [Logged (Member_roles_add member role)])%list
      /\ calls (snd (remove_role guild args s))
         = (calls s1 ++ [Logged (Member_roles_remove member role)])%list
      /\ (forall r s2, assign_role guild args s = (inr r, s2) ->
            r = role_change "assigned" member role)
      /\ (forall r s2, remove_role guild args s = (inr r, s2) ->
            r = role_change "removed" member role)
  end.
Proof.
  intros Hargs Hmember.
  pose proof (fun k => get_prop_field args k Hargs) as Hget.
  pose proof (pure_resolveRole guild (field "role_id" args) s1) as Hpure.
  unfold assign_role, remove_role, arg. rewrite !Hget.
  rewrite !(bind_lift _ _ _ _ eq_refl). rewrite !(bind_inr _ _ _ _ _ Hmember).
  rewrite !(bind_lift _ _ _ _ eq_refl).
  destruct (resolveRole guild (field "role_id" args) s1) as [[e|role] s1'] eqn:Hrole;
    cbn [snd] in Hpure; subst s1'; cbn [fst].
  - rewrite !(bind_inl _ _ _ _ _ Hrole). split; reflexivity.
  - rewrite !(bind_inr _ _ _ _ _ Hrole). unfold bind, perform, ret.
    destruct (exec (Member_roles_add member role) (discord s1)) as [[e1|[]] d1];
      destruct (exec (Member_roles_remove member role) (discord s1)) as [[e2|[]] d2];
      cbn [snd calls]; repeat split; intros r s2 H;
      first [discriminate H | inversion H; reflexivity].
Qed.

(** *** What the calls of a tool can be *)

Lemma only_pure (P : logged -> Prop) {A} (m : M A) : pure m -> only_calls P m.
Proof.
  intros Hm s. exists []. rewrite Hm, app_nil_r. split; [reflexivity|constructor].
Qed.

Lemma only_perform (P : logged -> Prop) {A} (c : call A) :
  P (Logged c) -> only_calls P (perform c).
Proof.
  intros Hc s. exists [Logged c]. split; [apply calls_after_perform|].
  constructor; [exact Hc|constructor].
Qed.

Lemma only_bind_post (P : logged -> Prop) {A B} (Q : A -> Prop)
    (m : M A) (k : A -> M B) :
  only_calls P m ->
  (forall s a s', m s = (inr a, s') -> Q a) ->
  (forall a, Q a -> only_calls P (k a)) ->
  only_calls P (bind m k).
Proof.
  intros Hm HQ Hk s. destruct (Hm s) as [cs [Hcs HP]]. unfold bind.
  destruct (m s) as [[e|a] s1] eqn:E; cbn [snd] in Hcs.
  - exists cs. split; assumption.
  - destruct (Hk a (HQ _ _ _ E) s1) as [cs2 [H2 HP2]].
    exists (cs ++ cs2)%list. rewrite H2, Hcs, app_assoc.
    split; [reflexivity|]. apply Forall_app. split; assumption.
Qed.

Lemma only_bind (P : logged -> Prop) {A B} (m : M A) (k : A -> M B) :
  only_calls P m -> (forall a, only_calls P (k a)) -> only_calls P (bind m k).
Proof.
  intros Hm Hk. apply (only_bind_post P (fun _ => True)); auto.
Qed.

Lemma only_with_state (P : logged -> Prop) {A} (k : state -> M A) :
  (forall s0, only_calls P (k s0)) -> only_calls P (bind get_state k).
Proof. intros Hk s. rewrite bind_get_state. apply Hk. Qed.

Lemma only_try_catch (P : logged -> Prop) {A} (m : M A) :
  only_calls P m -> only_calls P (try_catch m).
Proof.
  intros Hm s. destruct (Hm s) as [cs H]. exists cs. unfold try_catch.
  destruct (m s). exact H.
Qed.


Lemma only_allSettled (P : logged -> Prop) {A} (ts : list (task A)) :
  Forall (calls_within P (fun _ => True)) ts ->
  only_calls P (Promise_allSettled ts).
Proof.
  intros Hts s.
  destruct (allSettled_run ts s)
    as [rs [trace [s1 [Hrun [_ [Hc [_ [Hlt Hitems]]]]]]]].
  exists (map snd trace). rewrite Hrun. split; [exact Hc|].
  apply Forall_forall. intros c Hin. apply in_map_iff in Hin as [p [<- Hp]].
  rewrite Forall_forall in Hlt. pose proof (Hlt p Hp) as Hi.
  destruct (nth_error ts (fst p)) as [t0|] eqn:Ht0.
  2: { apply nth_error_None in Ht0. lia. }
  destruct (Hitems _ _ Ht0) as [r [_ Hr]].
  assert (Ht : calls_within P (fun _ => True) t0).
  { rewrite Forall_forall in Hts. apply Hts.
    apply nth_error_In with (n := fst p). exact Ht0. }
  pose proof (calls_run P _ t0 Ht _ _ Hr) as Hall.
  rewrite Forall_forall in Hall. apply Hall.
  apply in_or_app. right. apply in_share. exact Hp.
Qed.

Lemma yields_start (P : logged -> Prop) {A} (m : T A) :
  (forall d, calls_within P (fun _ => True) (m d)) ->
  only_yields P (calls_within P (fun _ => True)) (start m).
Proof.
  intros Hm s. exists (pending (m (discord s))). unfold start. cbn [fst snd].
  split; [apply issue_calls|]. split; [apply (calls_pending P _ _ (Hm _))|].
  intros t Ht. inversion Ht; subst. apply Hm.
Qed.

Lemma yields_lift (P : logged -> Prop) {A B} (Q : B -> Prop)
    (r : exn + A) (k : A -> M B) :
  (forall a, only_yields P Q (k a)) -> only_yields P Q (bind (lift r) k).
Proof.
  intros Hk s. destruct r as [e|a]; [|apply Hk].
  exists []. unfold bind, lift. simpl. rewrite app_nil_r.
  split; [reflexivity|]. split; [constructor|]. intros a Ha. discriminate Ha.
Qed.

Lemma yields_Array_mapi_from (P : logged -> Prop) {A B} (Q : B -> Prop)
    (f : A -> nat -> M B) (l : list A) :
  (forall x i, only_yields P Q (f x i)) ->
  forall i, only_yields P (Forall Q) (Array_mapi_from i f l).
Proof.
  intros Hf. induction l as [|x l IH]; intros i s; cbn [Array_mapi_from].
  - exists []. unfold ret. cbn [fst snd]. rewrite app_nil_r.
    split; [reflexivity|]. split; [constructor|].
    intros a Ha. inversion Ha. constructor.
  - destruct (Hf x i s) as [cs [Hc [HP HQ]]].
    destruct (f x i s) as [[e|y] s1] eqn:E; cbn [fst snd] in *.
    + rewrite (bind_inl _ _ _ _ _ E). exists cs. cbn [fst snd].
      split; [exact Hc|]. split; [exact HP|]. intros a Ha. discriminate Ha.
    + rewrite (bind_inr _ _ _ _ _ E).
      destruct (IH (S i) s1) as [cs2 [Hc2 [HP2 HQ2]]].
      destruct (Array_mapi_from (S i) f l s1) as [[e|ys] s2] eqn:E2;
        cbn [fst snd] in *.
      * rewrite (bind_inl _ _ _ _ _ E2). exists (cs ++ cs2)%list. cbn [fst snd].
        rewrite Hc2, Hc, app_assoc.
        split; [reflexivity|]. split; [apply Forall_app; split; assumption|].
        intros a Ha. discriminate Ha.
      * rewrite (bind_inr _ _ _ _ _ E2). exists (cs ++ cs2)%list.
        unfold ret. cbn [fst snd]. rewrite Hc2, Hc, app_assoc.
        split; [reflexivity|]. split; [apply Forall_app; split; assumption|].
        intros a Ha. inversion Ha. constructor; [apply HQ|apply HQ2]; reflexivity.
Qed.

Lemma yields_Array_map (P : logged -> Prop) {A B} (Q : B -> Prop)
    (f : A -> M B) (l : list A) :
  (forall x, only_yields P Q (f x)) -> only_yields P (Forall Q) (Array_map f l).
Proof. intros Hf. apply yields_Array_mapi_from. intros x _. apply Hf. Qed.

(** A batch: the calls of the launch, and the calls of the turns. *)
Lemma only_batch (P : logged -> Prop) {A B} (m : M (list (task A)))
    (k : list (settled A) -> M B) :
  only_yields P (Forall (calls_within P (fun _ => True))) m ->
  (forall rs, only_calls P (k rs)) ->
  only_calls P (bind m (fun promises => bind (Promise_allSettled promises) k)).
Proof.
  intros Hm Hk s. destruct (Hm s) as [cs [Hc [HP HQ]]].
  destruct (m s) as [[e|ts] s1] eqn:E; cbn [fst snd] in *.
  - rewrite (bind_inl _ _ _ _ _ E). exists cs. split; assumption.
  - rewrite (bind_inr _ _ _ _ _ E).
    destruct (only_bind P _ _ (only_allSettled P ts (HQ ts eq_refl)) Hk s1)
      as [cs2 [Hc2 HP2]].
    exists (cs ++ cs2)%list. rewrite Hc2, Hc, app_assoc.
    split; [reflexivity|]. apply Forall_app. split; assumption.
Qed.

Lemma calls_async_resolveMember (P : logged -> Prop) (guild : Guild) (x : jsval)
    (d : client) :
  P (Logged (Guild_members_fetch_id guild x)) ->
  P (Logged (Guild_members_fetch guild)) ->
  calls_within P (fun _ => True) (async_resolveMember guild x d).
Proof.
  intros H1 H2. unfold async_resolveMember.
  destruct (snowflake_test (ToString x)); [apply calls_await_call; exact H1|].
  apply calls_bind; [apply calls_await_call; exact H2|]. intros _ d1.
  apply calls_bind; [apply calls_lift|]. intros lower d2.
  apply calls_bind; [apply calls_client|]. intros d3 d4.
  destruct (find (member_matches lower) (members_cache d3 guild)); exact I.
Qed.

Lemma calls_async_resolveTextChannel (P : logged -> Prop) (guild : Guild)
    (x : jsval) (d : client) :
  P (Logged (Client_channels_fetch x)) ->
  P (Logged (Guild_channels_fetchActiveThreads guild)) ->
  calls_within P (fun ch => channel_isTextBased ch = true)
    (async_resolveTextChannel guild x d).
Proof.
  intros H1 H2. unfold async_resolveTextChannel.
  apply calls_bind; [apply calls_client|]. intros d0 d1.
  apply calls_bind.
  { destruct (cache_get channel_id (channels_cache d0 guild) x); [exact I|].
    apply calls_bind; [apply calls_try, calls_await_call; exact H1|].
    intros [e|ch] d2; exact I. }
  intros c1 d2. apply calls_bind.
  { destruct c1 as [ch|]; [exact I|].
    apply calls_bind; [apply calls_await_call; exact H2|]. intros threads d3.
    exact I. }
  intros c2 d3. destruct c2 as [ch|]; [|exact I].
  destruct (channel_isTextBased ch) eqn:E; [exact E|exact I].
Qed.

Lemma calls_after_resolveTextChannel (P : logged -> Prop) {B} (R : B -> Prop)
    (guild : Guild) (x : jsval) (f : Channel -> T B) (d : client) :
  P (Logged (Client_channels_fetch x)) ->
  P (Logged (Guild_channels_fetchActiveThreads guild)) ->
  (forall ch d', channel_isTextBased ch = true -> calls_within P R (f ch d')) ->
  calls_within P R (t_bind (await (async_resolveTextChannel guild x)) f d).
Proof.
  intros H1 H2 Hf.
  apply (calls_bind_post P (fun ch => channel_isTextBased ch = true)).
  - apply calls_await, calls_async_resolveTextChannel; assumption.
  - exact Hf.
Qed.

Ltac calls_step :=
  first
    [ exact I
    | assumption
    | apply calls_await_call
    | apply calls_lift
    | apply calls_client
    | match goal with
      | |- calls_within _ _ (t_bind (await (async_resolveTextChannel _ _)) _ _) =>
          apply calls_after_resolveTextChannel; [| |intros ? ? ?]
      end
    | apply calls_await, calls_async_resolveMember
    | apply calls_bind; [|intros ? ?]
    | match goal with
      | |- calls_within _ _ ((if ?b then _ else _) _) => destruct b
      | |- calls_within _ _ ((match ?x with _ => _ end) _) => destruct x
      | |- calls_within _ _ (let _ := _ in _) => cbv zeta
      end ].

Ltac launch_steps :=
  repeat first
    [ apply yields_lift; intros ?
    | apply yields_start; intros ?; repeat calls_step ].

Lemma only_Array_mapi_from (P : logged -> Prop) {A B}
    (f : A -> nat -> M B) (l : list A) :
  (forall x i, only_calls P (f x i)) ->
  forall i, only_calls P (Array_mapi_from i f l).
Proof.
  intros Hf. induction l as [|x l IH]; intros i; cbn [Array_mapi_from].
  - apply only_pure, pure_ret.
  - apply only_bind; [apply Hf|]. intros y.
    apply only_bind; [apply IH|]. intros ys. apply only_pure, pure_ret.
Qed.

Lemma only_Array_mapi (P : logged -> Prop) {A B} (f : A -> nat -> M B) (l : list A) :
  (forall x i, only_calls P (f x i)) -> only_calls P (Array_mapi f l).
Proof. intros Hf. apply only_Array_mapi_from. exact Hf. Qed.

Lemma only_Array_map (P : logged -> Prop) {A B} (f : A -> M B) (l : list A) :
  (forall x, only_calls P (f x)) -> only_calls P (Array_map f l).
Proof. intros Hf. apply only_Array_mapi. intros x _. apply Hf. Qed.

Lemma pure_Date_now_M : pure Date_now_M.
Proof. intros s. reflexivity. Qed.

Ltac only_step :=
  first
    [ apply only_perform
    | apply only_pure;
      first [ apply pure_ret | apply pure_throw | apply pure_lift
            | apply pure_Date_now_M | apply pure_getGuild
            | apply pure_requireDiscord | apply pure_resolveRole ]
    | apply only_try_catch
    | apply only_Array_map; intros ?
    | apply only_Array_mapi; intros ? ?
    | match goal with
      | |- only_calls _ (bind get_state _) => apply only_with_state; intros ?
      end
    | match goal with
      | |- only_calls _ (bind _ _) => apply only_bind; [|intros ?]
      end
    | match goal with
      | |- only_calls _ (if ?b then _ else _) => destruct b
      | |- only_calls _ (match ?x with _ => _ end) => destruct x
      | |- only_calls _ (let _ := _ in _) => cbv zeta
      end ].

Lemma only_resolveMember (P : logged -> Prop) (guild : Guild) (x : jsval) :
  P (Logged (Guild_members_fetch_id guild x)) ->
  P (Logged (Guild_members_fetch guild)) ->
  only_calls P (resolveMember guild x).
Proof. intros H1 H2. unfold resolveMember. repeat only_step; assumption. Qed.

Lemma only_resolveTextChannel (P : logged -> Prop) (guild : Guild) (x : jsval) :
  P (Logged (Client_channels_fetch x)) ->
  P (Logged (Guild_channels_fetchActiveThreads guild)) ->
  only_calls P (resolveTextChannel guild x).
Proof. intros H1 H2. unfold resolveTextChannel. repeat only_step; assumption. Qed.

Lemma resolveTextChannel_text (guild : Guild) (id : jsval) (s s' : state)
    (ch : Channel) :
  resolveTextChannel guild id s = (inr ch, s') -> channel_isTextBased ch = true.
Proof.
  unfold resolveTextChannel. rewrite bind_get_state. intros H.
  apply bind_success in H. destruct H as [c1 [s1 [_ H]]].
  apply bind_success in H. destruct H as [c2 [s2 [_ H]]].
  destruct c2 as [c|]; [|discriminate H].
  destruct (channel_isTextBased c) eqn:E; [|discriminate H].
  inversion H. subst. exact E.
Qed.

Lemma only_after_resolveTextChannel (P : logged -> Prop) {B}
    (guild : Guild) (x : jsval) (k : Channel -> M B) :
  P (Logged (Client_channels_fetch x)) ->
  P (Logged (Guild_channels_fetchActiveThreads guild)) ->
  (forall ch, channel_isTextBased ch = true -> only_calls P (k ch)) ->
  only_calls P (bind (resolveTextChannel guild x) k).
Proof.
  intros H1 H2 Hk.
  apply (only_bind_post P (fun ch => channel_isTextBased ch = true)).
  - apply only_resolveTextChannel; assumption.
  - intros s a s'. apply resolveTextChannel_text.
  - exact Hk.
Qed.

Ltac only_tool :=
  cbv beta delta
    [ fst snd arg
      create_channel create_category create_voice_channel mass_channels
      mass_categories mass_voice_channels delete mass_delete mass_delete_item
      get_messages send_message reply_message edit_message mass_send_message
      mass_send_message_item delete_message mass_delete_message
      mass_delete_message_item add_reaction create_role delete_role
      mass_create_role mass_delete_role mass_delete_role_item assign_role
      remove_role kick_user ban_user unban_user time_out_user mass_ban
      mass_time_out mass_time_out_item ];
  repeat first
    [ exact I
    | assumption
    | apply only_resolveMember
    | match goal with
      | |- only_calls _ (bind (resolveTextChannel _ _) _) =>
          apply only_after_resolveTextChannel; [| |intros ? ?]
      end
    | match goal with
      | |- only_calls _ (bind (Array_map _ _) _) =>
          apply only_batch;
          [apply yields_Array_map; intros ?; launch_steps|intros ?]
      end
    | only_step ].

Lemma only_switch (P : logged -> Prop) {A} (x : string)
    (cases : list (string * M A)) (d : M A) :
  Forall (fun c => x = fst c -> only_calls P (snd c)) cases ->
  only_calls P d -> only_calls P (switch x cases d).
Proof.
  intros Hcases Hd. unfold switch.
  induction Hcases as [|[k h] cases Hc _ IH]; [exact Hd|].
  cbn [find fst]. destruct (String.eqb_spec x k) as [E|_]; [exact (Hc E)|exact IH].
Qed.

Lemma only_resolve_guild (P : logged -> Prop) (args : jsval) :
  only_calls P (resolve_guild args).
Proof.
  apply only_pure. intros s. apply resolve_guild_state.
Qed.

Lemma only_handleTool (P : logged -> Prop) (name : string) (args : jsval) :
  (forall guild,
     only_calls P
       (switch name (guild_tools guild args)
          ( if existsb (String.eqb name) elsewhere_tools
            then elsewhere name guild args
            else throw (Error ("Unknown tool: " ++ name)) ))) ->
  only_calls P (handleTool elsewhere name args).
Proof.
  intros H s. destruct (guild_free name) eqn:Hfree.
  - exists []. rewrite app_nil_r. split; [|constructor].
    unfold guild_free in Hfree.
    destruct (String.eqb_spec name "set_guild") as [->|_];
      [apply set_guild_client_untouched|].
    destruct (String.eqb_spec name "get_guild") as [->|_].
    { rewrite handleTool_get_guild.
      rewrite (pure_bind _ _ pure_requireDiscord (fun _ => pure_get_guild)).
      reflexivity. }
    destruct (String.eqb_spec name "list_guilds") as [->|_]; [|discriminate].
    rewrite handleTool_list_guilds.
    rewrite (pure_bind _ _ pure_requireDiscord (fun _ => pure_list_guilds)).
    reflexivity.
  - rewrite (handleTool_guild_scoped name args s Hfree).
    revert s. apply only_bind; [apply only_pure, pure_requireDiscord|]. intros _.
    apply only_bind; [apply only_resolve_guild|]. exact H.
Qed.

Lemma disjoint_names (x : string) (l1 l2 : list string) :
  forallb (fun y => negb (existsb (String.eqb y) l2)) l1 = true ->
  existsb (String.eqb x) l1 = true -> existsb (String.eqb x) l2 = false.
Proof.
  rewrite forallb_forall. intros H Hx. apply existsb_eqb_In in Hx.
  specialize (H x Hx). destruct (existsb (String.eqb x) l2); [discriminate H|reflexivity].
Qed.

(** X21.  The tools that read or write messages address only channels that
    are text based: whatever the arguments and whatever the client answers,
    every message that one of the eight message tools sends and every fetch
    of messages it makes is on a text-based channel. *)
Theorem message_tools_address_text_channels (name : string) (args : jsval) :
  existsb (String.eqb name) message_tools = true ->
  only_calls text_addressed (handleTool elsewhere name args).
Proof.
  intros Hname. apply only_handleTool. intros guild.
  apply only_switch.
  - unfold guild_tools.
    repeat (constructor;
            [ cbn [fst snd]; intros E; rewrite E in Hname;
              first [ discriminate Hname | only_tool ]
            | ]).
    constructor.
  - rewrite (disjoint_names name message_tools elsewhere_tools
               ltac:(vm_compute; reflexivity) Hname).
    apply only_pure, pure_throw.
Qed.

(** X22.  Only the tools whose name announces it delete or sanction: a call
    of any other tool never deletes a channel, a message or a role, and
    never kicks, bans or times out a member, whatever its arguments and
    whatever the client answers.  The cases that are not embedded are taken
    to make no such call, as in the source. *)
Theorem only_removing_tools_remove (name : string) (args : jsval) :
  (forall n g a, only_calls harmless (elsewhere n g a)) ->
  existsb (String.eqb name) removing_tools = false ->
  only_calls harmless (handleTool elsewhere name args).
Proof.
  intros Helse Hname. apply only_handleTool. intros guild.
  apply only_switch.
  - unfold guild_tools.
    repeat (constructor;
            [ cbn [fst snd]; intros E; rewrite E in Hname;
              first [ discriminate Hname | only_tool ]
            | ]).
    constructor.
  - destruct (existsb (String.eqb name) elsewhere_tools);
      [apply Helse|apply only_pure, pure_throw].
Qed.

(** *** Targets that do not resolve *)

(** X23.  The four tools that act on one message fetch that message first
    and stop there when the fetch fails: [reply_message], [edit_message],
    [delete_message] and [add_reaction] then fail with the error of the
    fetch, and the fetch is their last call: nothing is sent, edited,
    deleted or reacted to. *)
Theorem message_is_fetched_first
    (tool : Guild -> jsval -> M jsval) (guild : Guild) (args : jsval)
    (channel : Channel) (e : exn) (s s1 s2 : state) :
  In tool [reply_message; edit_message; delete_message; add_reaction] ->
  nullish args = false ->
  resolveTextChannel guild (field "channel_id" args) s = (inr channel, s1) ->
  perform (Channel_messages_fetch_id channel (field "message_id" args)) s1
  = (inl e, s2) ->
  tool guild args s = (inl e, s2)
  /\ calls s2
     = (calls s1
        ++ [Logged (Channel_messages_fetch_id channel (field "message_id" args))])%list.
Proof.
  intros Htool Hargs Hchannel Hfetch.
  pose proof (fun k => get_prop_field args k Hargs) as Hget.
  split.
  - destruct Htool as [<-|[<-|[<-|[<-|[]]]]];
      cbv beta delta [reply_message edit_message delete_message add_reaction arg];
      rewrite !Hget; rewrite (bind_lift _ _ _ _ eq_refl);
      rewrite (bind_inr _ _ _ _ _ Hchannel);
      rewrite (bind_lift _ _ _ _ eq_refl);
      apply bind_inl; exact Hfetch.
  - pose proof (calls_after_perform
                  (Channel_messages_fetch_id channel (field "message_id" args)) s1)
      as H.
    rewrite Hfetch in H. exact H.
Qed.

(** X24.  The tools that sanction one user resolve the member first and
    stop when that fails: [kick_user], [ban_user] and [time_out_user] then
    fail with the error of [resolveMember] and make no other call, so a user
    who is not a member of the server cannot be banned with [ban_user].
    [mass_ban] does not resolve anything: it hands each identifier to the
    platform as it is. *)
Theorem single_sanctions_need_a_member
    (guild : Guild) (args : jsval) (e : exn) (s s1 : state) :
  nullish args = false ->
  resolveMember guild (field "user_id" args) s = (inl e, s1) ->
  kick_user guild args s = (inl e, s1)
  /\ ban_user guild args s = (inl e, s1)
  /\ time_out_user guild args s = (inl e, s1)
  /\ makes_calls
       (mass_ban guild (JObj [ ("user_ids", JArr [field "user_id" args]);
                               ("reason", field "reason" args) ])) s
       [ Logged (Guild_members_ban guild (field "user_id" args)
                   (ban_options "Mass ban" (field "reason" args) JUndefined)) ].
Proof.
  intros Hargs Hmember.
  pose proof (fun k => get_prop_field args k Hargs) as Hget.
  split; [|split; [|split]].
  - unfold kick_user, arg. rewrite !Hget. rewrite (bind_lift _ _ _ _ eq_refl).
    apply bind_inl. exact Hmember.
  - unfold ban_user, arg. rewrite !Hget. rewrite (bind_lift _ _ _ _ eq_refl).
    apply bind_inl. exact Hmember.
  - unfold time_out_user, arg. rewrite !Hget. rewrite (bind_lift _ _ _ _ eq_refl).
    apply bind_inl. exact Hmember.
  - unfold makes_calls, mass_ban, arg.
    rewrite get_prop_first. rewrite (bind_lift _ _ _ _ eq_refl).
    cbn [as_array]. rewrite (bind_lift _ _ _ _ eq_refl).
    change (get_prop (JObj [ ("user_ids", JArr [field "user_id" args]);
                             ("reason", field "reason" args) ]) "reason")
      with (@inr exn jsval (field "reason" args)).
    change (get_prop (JObj [ ("user_ids", JArr [field "user_id" args]);
                             ("reason", field "reason" args) ])
              "delete_message_days")
      with (@inr exn jsval JUndefined).
    erewrite batch_of_one by (cbv beta iota delta [bind lift]; reflexivity).
    rewrite awaited_call. cbn [array_get nth].
    cbv beta iota zeta delta [bind lift perform ret throw].
    destruct (exec _ (discord s)) as [[e1|[]] d]; reflexivity.
Qed.

End Properties.

(* ================================================================= *)
(** ** The theorems at work on the executable platform *)

Import TestRuntime TestPlatform TestThreads.

(** The scenario of the specification: of three channels to create, the
    second is refused. *)
Example mass_channels_scenario :
  fst (tool "mass_channels" (in_home [("channels", JArr three_channels)]) startup)
  = inr (JArr
           [ JObj [("name", JStr "a"); ("id", JStr "1000"); ("status", JStr "created")];
             JObj [("name", JStr "b"); ("status", JStr "failed");
                   ("error", JStr "Missing Permissions")];
             JObj [("name", JStr "c"); ("id", JStr "1001"); ("status", JStr "created")] ]).
Proof. vm_compute. reflexivity. Qed.

(** The closures of a batch run side by side: the three members are looked
    up before any of them is timed out. *)
Example mass_time_out_scenario :
  calls (snd (tool "mass_time_out" time_out_three startup))
  = [ fetch_of (member_id alice); fetch_of "999999999999999999";
      fetch_of (member_id bob); time_out_of alice; time_out_of bob ].
Proof. vm_compute. reflexivity. Qed.


(** [resolvers_follow_token_shape] on the identifier of [alice], which is
    fetched, and on one of her names in capitals, which is looked up. *)
Lemma resolvers_follow_token_shape_witness :
  snowflake_shaped (member_id alice)
  /\ resolveMember home (JStr (member_id alice)) startup
     = perform (Guild_members_fetch_id home (JStr (member_id alice))) startup
  /\ ~ snowflake_shaped "ALICE W"
  /\ first_match (answers_to "ALICE W") [alice; bob] alice
  /\ equal_up_to_case "Alice W" "ALICE W"
  /\ same_ignoring_case "Alice W" "ALICE W".
Proof.
  assert (Hshape : snowflake_shaped (member_id alice)).
  { split; [reflexivity|simpl; lia]. }
  assert (Hname : ~ snowflake_shaped "ALICE W").
  { intros [H _]. vm_compute in H. discriminate H. }
  assert (Hcase : equal_up_to_case "Alice W" "ALICE W").
  { cbn [equal_up_to_case]. unfold same_letter, capital_of.
    repeat split;
      first [ left; reflexivity
            | right; left; split; cbn; lia
            | right; right; split; cbn; lia ]. }
  split; [exact Hshape|]. split; [|split; [exact Hname|]].
  - destruct (resolvers_follow_token_shape home (member_id alice) startup)
      as [_ [Hid _]].
    exact (proj1 (Hid Hshape)).
  - destruct (resolvers_follow_token_shape home "ALICE W" startup)
      as [_ [_ [Hother Hascii]]].
    destruct (Hother Hname) as [Hmember _].
    destruct (Hmember (snd (perform (Guild_members_fetch home) startup)) eq_refl)
      as [Hfirst _].
    split; [apply (Hfirst alice); vm_compute; reflexivity|].
    split; [exact Hcase|].
    apply (Hascii "Alice W" eq_refl eq_refl). exact Hcase.
Defined.

(** [set_guild_then_get_guild] from startup: the guild [lab] is set, three
    other tools are called, and [get_guild] answers with [lab]. *)
Lemma set_guild_then_get_guild_witness :
  known_guild startup (JStr (guild_id lab)) = Some lab
  /\ exists r1 s1 r2,
       tool "set_guild" (JObj [("guild_id", JStr (guild_id lab))]) startup = (inr r1, s1)
       /\ tool "get_guild" JUndefined (run_calls elsewhere other_calls s1)
          = (inr r2, run_calls elsewhere other_calls s1)
       /\ get_prop r2 "default_guild_id" = inr (JStr (guild_id lab)).
Proof.
  split; [reflexivity|].
  pose proof (set_guild_then_get_guild elsewhere (guild_id lab)
                (JObj [("guild_id", JStr (guild_id lab))]) JUndefined lab []
                other_calls startup) as H.
  apply H.
  - reflexivity.
  - reflexivity.
  - discriminate.
  - reflexivity.
  - reflexivity.
  - vm_compute. reflexivity.
  - intros n g a s. reflexivity.
  - repeat constructor; discriminate.
Defined.

(** [guild_scoped_tool_needs_guild] on a [kick_user] that names no guild, at
    startup. *)
Lemma guild_scoped_tool_needs_guild_witness :
  guild_free "kick_user" = false
  /\ names_guild (JObj [("user_id", JStr "bob")]) = false
  /\ has_default startup = false
  /\ tool "kick_user" (JObj [("user_id", JStr "bob")]) startup
     = (inl (Error "No guild_id provided and no default guild set. Use set_guild first."),
        startup).
Proof.
  split; [reflexivity|]. split; [reflexivity|]. split; [reflexivity|].
  destruct (guild_scoped_tool_needs_guild elsewhere "kick_user"
              (JObj [("user_id", JStr "bob")]) startup eq_refl eq_refl eq_refl)
    as [e [Hrun [_ He]]].
  unfold tool. rewrite Hrun, (He eq_refl eq_refl eq_refl). reflexivity.
Defined.

(** [config_store_contract] without a file and with a file that is not JSON. *)
Lemma config_store_contract_witness :
  loadConfig startup = (inr (JObj []), startup)
  /\ loadConfig {| config_file := Some "{ not json"; discord := discord startup;
                   calls := [] |}
     = (inr (JObj []),
        {| config_file := Some "{ not json"; discord := discord startup; calls := [] |}).
Proof.
  split.
  - exact (proj1 (proj2 (config_store_contract startup)) eq_refl).
  - exact (proj1 (proj2 (proj2 (config_store_contract
                                  {| config_file := Some "{ not json";
                                     discord := discord startup; calls := [] |})))
             "{ not json" eq_refl eq_refl).
Defined.

(** [set_guild_keeps_other_fields] on a config with a field [theme]. *)
Lemma set_guild_keeps_other_fields_witness :
  stored_config (with_config (JObj themed_config)) = JObj themed_config
  /\ exists ps',
       config_file (snd (tool "set_guild" (JObj [("guild_id", JStr (guild_id lab))])
                           (with_config (JObj themed_config))))
       = Some (stringify (JObj ps'))
       /\ assoc "default_guild_id" ps' = Some (JStr (guild_id lab))
       /\ assoc "theme" ps' = Some (JStr "dark").
Proof.
  split; [vm_compute; reflexivity|].
  destruct (set_guild_keeps_other_fields elsewhere
              (JObj [("guild_id", JStr (guild_id lab))]) (JStr (guild_id lab)) lab
              themed_config (with_config (JObj themed_config)))
    as [ps' [Hfile [Hdefault Hothers]]].
  - reflexivity.
  - reflexivity.
  - reflexivity.
  - vm_compute. reflexivity.
  - exists ps'. split; [exact Hfile|]. split; [exact Hdefault|].
    rewrite (Hothers "theme"); [reflexivity|discriminate].
Defined.

(** [time_out_user_until] on a timeout of ten minutes for [alice]. *)
Lemma time_out_user_until_witness :
  resolveMember home (JStr (member_id alice)) startup
  = (inr alice, snd (resolveMember home (JStr (member_id alice)) startup))
  /\ exists r s2,
       tool "time_out_user" time_out_alice startup = (inr r, s2)
       /\ get_prop r "until" = inr (JDate (Some (Date_now (discord s2) + 600000))).
Proof.
  split; [vm_compute; reflexivity|].
  destruct (time_out_user_until elsewhere time_out_alice home alice 10 startup
              (snd (resolveMember home (JStr (member_id alice)) startup)))
    as [r [s2 [Hrun [_ [_ Hten]]]]].
  - reflexivity.
  - vm_compute. reflexivity.
  - vm_compute. reflexivity.
  - reflexivity.
  - vm_compute. reflexivity.
  - vm_compute. discriminate.
  - exists r, s2. split; [exact Hrun|]. apply Hten. reflexivity.
Defined.


(** [set_guild_unknown_guild] on an identifier that is no guild of the client:
    the config file keeps its content. *)
Lemma set_guild_unknown_guild_witness :
  known_guild (with_config (JObj themed_config)) (JStr "999") = None
  /\ exists e,
       tool "set_guild" (JObj [("guild_id", JStr "999")])
         (with_config (JObj themed_config))
       = (inl e, with_config (JObj themed_config))
       /\ e = Error "Guild 999 not found or bot is not in this server".
Proof.
  split; [reflexivity|].
  destruct (set_guild_unknown_guild elsewhere (JObj [("guild_id", JStr "999")])
              (JStr "999") (with_config (JObj themed_config)) eq_refl eq_refl)
    as [[e [Hrun He]] _].
  exists e. split; [exact Hrun|]. exact (He eq_refl).
Defined.


(** C6 as the specification words it fails: with a config that holds a field
    [theme], the file that [set_guild] rewrites is not the text of
    [{default_guild_id}] alone, and it still holds [theme]. *)
Lemma set_guild_drops_no_field :
  let s := with_config (JObj themed_config) in
  let s' := snd (tool "set_guild" (JObj [("guild_id", JStr (guild_id lab))]) s) in
  fst (tool "set_guild" (JObj [("guild_id", JStr (guild_id lab))]) s)
  = inr (JObj [ ("success", JBool true); ("default_guild_id", JStr (guild_id lab));
                ("guild_name", JStr "Lab") ])
  /\ config_file s'
     <> Some (JSON_stringify (JObj [("default_guild_id", JStr (guild_id lab))]))
  /\ config_file s'
     = Some (JSON_stringify (JObj [ ("default_guild_id", JStr (guild_id lab));
                                    ("theme", JStr "dark") ]))
  /\ field "theme" (stored_config s') = JStr "dark".
Proof.
  cbv zeta. split; [vm_compute; reflexivity|].
  split; [vm_compute; discriminate|].
  split; vm_compute; reflexivity.
Qed.


(* ================================================================= *)
(** ** The further properties at work on the executable platform *)

(** [config_written_only_by_set_guild] on the first [set_guild] after
    startup, which creates the file. *)
Lemma config_written_only_by_set_guild_witness :
  config_file (snd (tool "set_guild" (JObj [("guild_id", JStr (guild_id lab))]) startup))
  <> config_file startup
  /\ exists r,
       fst (tool "set_guild" (JObj [("guild_id", JStr (guild_id lab))]) startup) = inr r.
Proof.
  assert (Hchanged :
            config_file (snd (tool "set_guild"
                                (JObj [("guild_id", JStr (guild_id lab))]) startup))
            <> config_file startup).
  { vm_compute. discriminate. }
  split; [exact Hchanged|].
  pose proof (config_written_only_by_set_guild elsewhere "set_guild"
                (JObj [("guild_id", JStr (guild_id lab))]) startup
                (fun n g a s => eq_refl) Hchanged) as H.
  exact (proj1 (proj2 H)).
Defined.

(** [undeclared_arguments_are_ignored] on a [kick_user] with a property
    [force] that its schema does not know. *)
Lemma undeclared_arguments_are_ignored_witness :
  advertised "kick_user" = true
  /\ tool "kick_user" (in_home [("user_id", JStr "alice")]) startup
     = tool "kick_user" (in_home [("user_id", JStr "alice"); ("force", JBool true)])
         startup.
Proof.
  split; [vm_compute; reflexivity|].
  pose proof (undeclared_arguments_are_ignored elsewhere "kick_user"
                (in_home [("user_id", JStr "alice")])
                (in_home [("user_id", JStr "alice"); ("force", JBool true)])
                startup) as H.
  apply H.
  - intros n g a a' s _ _ _. reflexivity.
  - vm_compute. reflexivity.
  - reflexivity.
  - reflexivity.
  - intros k Hk.
    change (declares "kick_user" k)
      with (existsb (String.eqb k) ["guild_id"; "user_id"; "reason"]) in Hk.
    apply existsb_eqb_In in Hk.
    destruct Hk as [<-|[<-|[<-|[]]]]; reflexivity.
Defined.

(** [default_guild_stands_in] on a [create_category] that names no guild,
    with the guild [home] stored as the default. *)
Lemma default_guild_stands_in_witness :
  stored_default (with_config (JObj [("default_guild_id", JStr (guild_id home))]))
  = JStr (guild_id home)
  /\ tool "create_category" (JObj [("name", JStr "news")])
       (with_config (JObj [("default_guild_id", JStr (guild_id home))]))
     = tool "create_category"
         (JObj [("name", JStr "news"); ("guild_id", JStr (guild_id home))])
         (with_config (JObj [("default_guild_id", JStr (guild_id home))])).
Proof.
  assert (Hd : stored_default
                 (with_config (JObj [("default_guild_id", JStr (guild_id home))]))
               = JStr (guild_id home)) by (vm_compute; reflexivity).
  split; [exact Hd|].
  pose proof (default_guild_stands_in elsewhere "create_category"
                [("name", JStr "news")]
                (with_config (JObj [("default_guild_id", JStr (guild_id home))])))
    as H.
  rewrite Hd in H. apply H.
  - intros n g a a' s _ _ _. reflexivity.
  - reflexivity.
  - reflexivity.
  - vm_compute. reflexivity.
  - reflexivity.
Defined.

(** [named_guild_ignores_config] on a [create_category] in [home], with a
    config file that is not JSON. *)
Lemma named_guild_ignores_config_witness :
  tool "create_category" (in_home [("name", JStr "news")])
    (with_config_file (Some "{ not json") startup)
  = (fst (tool "create_category" (in_home [("name", JStr "news")]) startup),
     with_config_file (Some "{ not json")
       (snd (tool "create_category" (in_home [("name", JStr "news")]) startup))).
Proof.
  pose proof (named_guild_ignores_config elsewhere "create_category"
                (in_home [("name", JStr "news")]) (Some "{ not json") startup) as H.
  apply H.
  - intros n g a file s. reflexivity.
  - reflexivity.
  - reflexivity.
Defined.

(** [get_guild_never_fails] with a stored default that the client does not
    know. *)
Lemma get_guild_never_fails_witness :
  tool "get_guild" JUndefined
    (with_config (JObj [("default_guild_id", JStr "999")]))
  = (inr (JObj [ ("default_guild_id", JStr "999");
                 ("message", JStr "Saved but bot may no longer be in this server") ]),
     with_config (JObj [("default_guild_id", JStr "999")])).
Proof.
  pose proof (get_guild_never_fails elsewhere JUndefined
                (with_config (JObj [("default_guild_id", JStr "999")]))
                eq_refl) as H.
  unfold tool. rewrite H; vm_compute; reflexivity.
Defined.

(** [set_guild_last_call_wins] on [lab] and then [home], from startup. *)
Lemma set_guild_last_call_wins_witness :
  tool "set_guild" (JObj [("guild_id", JStr (guild_id home))])
    (snd (tool "set_guild" (JObj [("guild_id", JStr (guild_id lab))]) startup))
  = tool "set_guild" (JObj [("guild_id", JStr (guild_id home))]) startup.
Proof.
  pose proof (set_guild_last_call_wins elsewhere
                (JObj [("guild_id", JStr (guild_id lab))])
                (JObj [("guild_id", JStr (guild_id home))])
                (JStr (guild_id lab)) (JStr (guild_id home)) lab home [] startup)
    as H.
  apply H; reflexivity.
Defined.

(** [null_config_breaks_guild_tools] on a config file that holds [null]. *)
Lemma null_config_breaks_guild_tools_witness :
  JSON_parse "null" = Some JNull
  /\ tool "get_guild" JUndefined
       {| config_file := Some "null"; discord := discord startup; calls := [] |}
     = (inl (TypeError "Cannot read properties of null (reading 'default_guild_id')"),
        {| config_file := Some "null"; discord := discord startup; calls := [] |}).
Proof.
  assert (Hnull : JSON_parse "null" = Some JNull) by (vm_compute; reflexivity).
  split; [exact Hnull|].
  pose proof (null_config_breaks_guild_tools elsewhere "null" "kick_user" JUndefined
                {| config_file := Some "null"; discord := discord startup;
                   calls := [] |} eq_refl Hnull eq_refl) as H.
  exact (proj1 (proj2 H)).
Defined.

(** [list_guilds_flags_the_default] with [lab] stored as the default. *)
Lemma list_guilds_flags_the_default_witness :
  exists entries,
    fst (tool "list_guilds" JUndefined
           (with_config (JObj [("default_guild_id", JStr (guild_id lab))])))
    = inr (JObj [ ("guilds", JArr entries);
                  ("default_guild_id", JStr (guild_id lab)) ])
    /\ List.length entries = 2%nat.
Proof.
  pose proof (list_guilds_flags_the_default elsewhere JUndefined
                (with_config (JObj [("default_guild_id", JStr (guild_id lab))]))
                eq_refl) as H.
  destruct H as [entries [Hrun [Hlen _]]]; [vm_compute; reflexivity|].
  exists entries. unfold tool. rewrite Hrun. split; [|exact Hlen].
  vm_compute. reflexivity.
Defined.

(** [names_resolve_in_any_case] on a name of [alice] in capitals. *)
Lemma names_resolve_in_any_case_witness :
  same_ignoring_case "ALICE" "alice"
  /\ fst (resolveMember home (JStr "ALICE") startup) = inr alice.
Proof.
  assert (Hsame : same_ignoring_case "ALICE" "alice") by (vm_compute; reflexivity).
  split; [exact Hsame|].
  pose proof (names_resolve_in_any_case home "ALICE" "alice" startup Hsame) as H.
  apply (proj2 (proj1 (proj2 H) alice)). vm_compute. reflexivity.
Defined.

(** [delete_goes_by_the_cache] on the channel [general], which the cache
    holds, and on a role that it does not hold. *)
Lemma delete_goes_by_the_cache_witness :
  makes_calls
    (delete home (JObj [("channel_id", JStr (channel_id general));
                        ("role_id", JStr "777")]))
    startup [Logged (Channel_delete general)]
  /\ delete_role home (JObj [("channel_id", JStr (channel_id general));
                             ("role_id", JStr "777")]) startup
     = (inl (Error "Role 777 not found"), startup).
Proof.
  pose proof (delete_goes_by_the_cache home
                (JObj [("channel_id", JStr (channel_id general));
                       ("role_id", JStr "777")]) startup eq_refl) as H.
  destruct H as [Hchannel Hrole].
  split; [exact (proj1 Hchannel)|exact Hrole].
Defined.

(** [moderation_reason_is_reported] on a [kick_user] of [alice] without a
    reason. *)
Lemma moderation_reason_is_reported_witness :
  fst (kick_user home (JObj [("user_id", JStr (member_id alice))]) startup)
  = inr (JObj [ ("kicked", JStr (member_id alice)); ("username", JStr "alice");
                ("reason", JStr "No reason provided") ])
  /\ exists before l,
       calls (snd (kick_user home (JObj [("user_id", JStr (member_id alice))]) startup))
       = (calls startup ++ before ++ [l])%list
       /\ reason_sent l = Some (JStr "No reason provided").
Proof.
  split; [vm_compute; reflexivity|].
  pose proof (moderation_reason_is_reported kick_user home
                (JObj [("user_id", JStr (member_id alice))])
                (JObj [ ("kicked", JStr (member_id alice)); ("username", JStr "alice");
                        ("reason", JStr "No reason provided") ])
                startup
                (snd (kick_user home (JObj [("user_id", JStr (member_id alice))])
                        startup))) as H.
  destruct H as [before [l [Hcalls [Hreason _]]]].
  - left. reflexivity.
  - reflexivity.
  - vm_compute. reflexivity.
  - exists before, l. split; [exact Hcalls|exact Hreason].
Defined.

(** [batch_needs_an_array] on a [mass_channels] without its list. *)
Lemma batch_needs_an_array_witness :
  as_array (field "channels" (in_home [])) 
  = inl (TypeError "Cannot read properties of undefined (reading 'map')")
  /\ tool "mass_channels" (in_home []) startup
     = (inl (TypeError "Cannot read properties of undefined (reading 'map')"), startup).
Proof.
  split; [reflexivity|].
  pose proof (batch_needs_an_array elsewhere batch_mass_channels (in_home []) home tt
                startup startup
                (TypeError "Cannot read properties of undefined (reading 'map')"))
    as H.
  apply H.
  - left. reflexivity.
  - reflexivity.
  - vm_compute. reflexivity.
  - reflexivity.
  - reflexivity.
Defined.

(** [batch_of_one_is_the_single_tool] on a channel that the platform
    refuses: the batch reports the error that the single tool throws. *)
Lemma batch_of_one_is_the_single_tool_witness :
  fst (create_channel home (JObj [("name", JStr "b")]) startup)
  = inl (Error "Missing Permissions")
  /\ fst (mass_channels home (JObj [("channels", JArr [JObj [("name", JStr "b")]])])
            startup)
     = inr (JArr [failed "name" (JStr "b") (Error "Missing Permissions")])
  /\ snd (mass_channels home (JObj [("channels", JArr [JObj [("name", JStr "b")]])])
            startup)
     = snd (create_channel home (JObj [("name", JStr "b")]) startup).
Proof.
  assert (Hsingle : fst (create_channel home (JObj [("name", JStr "b")]) startup)
                    = inl (Error "Missing Permissions")) by (vm_compute; reflexivity).
  split; [exact Hsingle|].
  pose proof (batch_of_one_is_the_single_tool home (JObj [("name", JStr "b")])
                (JStr "news") startup eq_refl) as H.
  destruct H as [[Hstate Hout] _].
  split; [|exact Hstate].
  rewrite Hsingle in Hout. exact Hout.
Defined.

(** [send_thread_message_sends_once] on the cached channel [general], with
    every channel taken for a thread. *)
Lemma send_thread_message_sends_once_witness :
  fetchThread (fun _ => true) home (JStr (channel_id general)) startup
  = (inr general, startup)
  /\ calls (snd (handleTool elsewhere_with_threads "send_thread_message"
                   (in_home [("thread_id", JStr (channel_id general));
                             ("content", JStr "hi")]) startup))
     = [Logged (Channel_send general (JStr "hi"))].
Proof.
  assert (Hthread : fetchThread (fun _ => true) home (JStr (channel_id general)) startup
                    = (inr general, startup)) by (vm_compute; reflexivity).
  split; [exact Hthread|].
  pose proof (send_thread_message_sends_once elsewhere_with_threads (fun _ => true)
                home
                (in_home [("thread_id", JStr (channel_id general));
                          ("content", JStr "hi")]) general startup startup) as H.
  apply H.
  - intros g a. reflexivity.
  - reflexivity.
  - vm_compute. reflexivity.
  - exact Hthread.
Defined.

(** [time_out_without_duration] on a time-out of [alice] that gives no
    duration. *)
Lemma time_out_without_duration_witness :
  primitive (field "duration_minutes" (in_home [("user_id", JStr (member_id alice))]))
  = true
  /\ ToNumber (field "duration_minutes" (in_home [("user_id", JStr (member_id alice))]))
     = None
  /\ calls (snd (tool "time_out_user" (in_home [("user_id", JStr (member_id alice))])
                   startup))
     = [ Logged (Guild_members_fetch_id home (JStr (member_id alice)));
         Logged (Member_timeout alice JNaN (JStr "No reason provided")) ].
Proof.
  split; [reflexivity|]. split; [reflexivity|].
  pose proof (time_out_without_duration elsewhere
                (in_home [("user_id", JStr (member_id alice))]) home alice startup
                (snd (resolveMember home (JStr (member_id alice)) startup))) as H.
  destruct H as [Hcalls _].
  - reflexivity.
  - vm_compute. reflexivity.
  - vm_compute. reflexivity.
  - reflexivity.
  - reflexivity.
  - unfold tool. rewrite Hcalls. vm_compute. reflexivity.
Defined.

(** [role_change_after_both_resolve] on [alice] and the role [mods], both
    given by name. *)
Lemma role_change_after_both_resolve_witness :
  fst (resolveRole home (JStr "mods")
         (snd (resolveMember home (JStr "alice") startup))) = inr mods
  /\ calls (snd (assign_role home (JObj [("user_id", JStr "alice");
                                         ("role_id", JStr "mods")]) startup))
     = [ Logged (Guild_members_fetch home); Logged (Member_roles_add alice mods) ].
Proof.
  assert (Hrole : fst (resolveRole home (JStr "mods")
                         (snd (resolveMember home (JStr "alice") startup)))
                  = inr mods) by (vm_compute; reflexivity).
  split; [exact Hrole|].
  pose proof (role_change_after_both_resolve home
                (JObj [("user_id", JStr "alice"); ("role_id", JStr "mods")])
                alice startup
                (snd (resolveMember home (JStr "alice") startup))) as H.
  change (field "role_id" (JObj [("user_id", JStr "alice"); ("role_id", JStr "mods")]))
    with (JStr "mods") in H.
  rewrite Hrole in H.
  destruct H as [Hadd _].
  - reflexivity.
  - vm_compute. reflexivity.
  - rewrite Hadd. vm_compute. reflexivity.
Defined.

(** [message_tools_address_text_channels] on a [send_message] to [general]. *)
Lemma message_tools_address_text_channels_witness :
  exists cs,
    calls (snd (tool "send_message"
                  (in_home [("channel_id", JStr (channel_id general));
                            ("content", JStr "hi")]) startup))
    = (calls startup ++ cs)%list
    /\ Forall text_addressed cs.
Proof.
  pose proof (message_tools_address_text_channels elsewhere "send_message"
                (in_home [("channel_id", JStr (channel_id general));
                          ("content", JStr "hi")]) eq_refl) as H.
  exact (H startup).
Defined.

(** [only_removing_tools_remove] on the same [send_message]. *)
Lemma only_removing_tools_remove_witness :
  exists cs,
    calls (snd (tool "send_message"
                  (in_home [("channel_id", JStr (channel_id general));
                            ("content", JStr "hi")]) startup))
    = (calls startup ++ cs)%list
    /\ Forall harmless cs.
Proof.
  pose proof (only_removing_tools_remove elsewhere "send_message"
                (in_home [("channel_id", JStr (channel_id general));
                          ("content", JStr "hi")])) as H.
  apply H.
  - intros n g a s. exists []. split; [symmetry; apply app_nil_r|constructor].
  - reflexivity.
Defined.

(** [message_is_fetched_first] on an [edit_message] for a message that the
    platform does not know. *)
Lemma message_is_fetched_first_witness :
  edit_message home (JObj [("channel_id", JStr (channel_id general));
                           ("message_id", JStr "1"); ("content", JStr "new")])
    startup
  = (inl (Error "Unknown Message"),
     snd (perform (Channel_messages_fetch_id general (JStr "1")) startup)).
Proof.
  pose proof (message_is_fetched_first edit_message home
                (JObj [("channel_id", JStr (channel_id general));
                       ("message_id", JStr "1"); ("content", JStr "new")])
                general (Error "Unknown Message") startup startup
                (snd (perform (Channel_messages_fetch_id general (JStr "1")) startup)))
    as H.
  apply H.
  - right. left. reflexivity.
  - reflexivity.
  - vm_compute. reflexivity.
  - vm_compute. reflexivity.
Defined.

(** [single_sanctions_need_a_member] on an identifier that is not the one
    of a member. *)
Lemma single_sanctions_need_a_member_witness :
  ban_user home (JObj [("user_id", JStr "888888888888888888")]) startup
  = (inl (Error "Unknown Member"),
     snd (resolveMember home (JStr "888888888888888888") startup)).
Proof.
  pose proof (single_sanctions_need_a_member home
                (JObj [("user_id", JStr "888888888888888888")])
                (Error "Unknown Member") startup
                (snd (resolveMember home (JStr "888888888888888888") startup)))
    as H.
  apply H.
  - reflexivity.
  - vm_compute. reflexivity.
Defined.

(** [resolvers_client_calls] on the name of [bob], which causes the fetch
    of all members. *)
Lemma resolvers_client_calls_witness :
  primitive (JStr "bob") = true
  /\ makes_calls (resolveMember home (JStr "bob")) startup
       [Logged (Guild_members_fetch home)].
Proof.
  split; [reflexivity|].
  exact (proj1 (resolvers_client_calls home (JStr "bob") startup) eq_refl).
Defined.

(** [resolveTextChannel_sources] on the cached channel [general], which is
    returned without a call, and on an identifier that nothing knows: the
    platform rejects the fetch, the rejection is passed over, the active
    threads are listed, and the error is the not-found one. *)
Lemma resolveTextChannel_sources_witness :
  resolveTextChannel home (JStr (channel_id general)) startup = (inr general, startup)
  /\ fst (perform (Client_channels_fetch (JStr "1")) startup)
     = inl (Error "Unknown Channel")
  /\ fst (resolveTextChannel home (JStr "1") startup)
     = inl (Error "Channel/thread 1 not found")
  /\ makes_calls (resolveTextChannel home (JStr "1")) startup
       [ Logged (Client_channels_fetch (JStr "1"));
         Logged (Guild_channels_fetchActiveThreads home) ].
Proof.
  split.
  - pose proof (resolveTextChannel_sources home (JStr (channel_id general)) startup)
      as H.
    exact (proj1 (proj2 H) general eq_refl).
  - split; [reflexivity|].
    pose proof (resolveTextChannel_sources home (JStr "1") startup) as H.
    pose proof (proj2 (proj2 H) eq_refl _ _ eq_refl _ _ eq_refl) as Hrun.
    unfold makes_calls. rewrite Hrun. split; vm_compute; reflexivity.
Defined.

(** [advertised_tools_are_the_cases] on a name that is not advertised. *)
Lemma advertised_tools_are_the_cases_witness :
  has_case "frobnicate" = false
  /\ tool "frobnicate" (in_home []) startup
     = (inl (Error "Unknown tool: frobnicate"), startup).
Proof.
  pose proof (advertised_tools_are_the_cases elsewhere "frobnicate") as H.
  destruct H as [Hsame Hunknown].
  assert (Hno : advertised "frobnicate" = false) by (vm_compute; reflexivity).
  split; [rewrite <- Hsame; exact Hno|].
  refine (proj1 (Hunknown Hno (in_home []) home startup eq_refl _)).
  vm_compute. reflexivity.
Defined.

